(** * mutemath: the notification classifier and its polling cycle

    A shallow embedding of the Go sources [core/core.go], [github.go] and
    [main.go].  Go strings are byte sequences and are modelled by [string]
    (a list of 8-bit [ascii]); Go's [int] and [time.Duration] are 64-bit
    two's-complement integers, modelled by [Z] with the wrap-around written
    out; [(T, error)] results are modelled by the sum [Result]. *)

From Stdlib Require Import ZArith String Ascii List Bool Lia DecimalString.
From stdpp Require Import gmap strings list.

Local Open Scope string_scope.
Local Open Scope Z_scope.

(** stdpp never simplifies string concatenation; the proofs below compute
    with it. *)
Local Arguments String.append !_ _ / : simpl nomatch.

(** ** Results and errors

    A Go [error] is represented by its message. *)

Inductive Result (A : Type) : Type :=
| Ok (a : A)
| Err (msg : string).
Arguments Ok {A} a.
Arguments Err {A} msg.

Definition isOk {A} (r : Result A) : bool :=
  match r with Ok _ => true | Err _ => false end.

(** ** Behaviour of the Go runtime that the program only calls

    The slow path of [strings.EqualFold] (entered at the first non-ASCII
    byte, where it decodes UTF-8 and walks the Unicode folding orbits),
    [strconv.Quote] (also the [%q] verb) and the rune count used by the
    width of [%-40s] depend on Unicode tables; [urlError] is the error, if
    any, with which [http.NewRequest] rejects a URL.  They are taken as an
    interface. *)

Class GoLib : Type := {
  unicodeEqualFold : string -> string -> bool;
  Quote : string -> string;
  RuneCount : string -> nat;
  urlError : string -> option string
}.

(** The double-quote character and the instance used for worked examples:
    it agrees with Go on printable ASCII text without quotes or
    backslashes. *)

Definition dquote : string := String (ascii_of_nat 34) EmptyString.

Definition asciiLib : GoLib := {|
  unicodeEqualFold := fun _ _ => false;
  Quote := fun s => dquote ++ s ++ dquote;
  RuneCount := fun s => String.length s;
  urlError := fun _ => None
|}.

(** ** 64-bit integers *)

Definition wrap64 (z : Z) : Z := (z + 2^63) mod 2^64 - 2^63.

Definition minInt64 : Z := - 2^63.
Definition maxInt64 : Z := 2^63 - 1.
Definition maxUint64 : Z := 2^64 - 1.

Definition inInt64 (z : Z) : Prop := minInt64 <= z <= maxInt64.

Definition byte (c : ascii) : Z := Z.of_N (N_of_ascii c).

(** [%d] of an [int]. *)
Definition itoa (z : Z) : string := NilZero.string_of_int (Z.to_int z).

(** ** package strconv *)

Module Strconv.
Section WithLib.
Context {lib : GoLib}.

Inductive NumError : Type := ErrSyntax | ErrRange.

Definition isDigit (c : ascii) : bool := (48 <=? byte c) && (byte c <=? 57).

(** The digit loop of [ParseUint(s, 10, 64)]: a byte that is not a decimal
    digit is a syntax error, a value above [maxUint64] a range error,
    whichever is met first. *)
Fixpoint parseDigits (s : string) (n : Z) : NumError + Z :=
  match s with
  | EmptyString => inr n
  | String c s' =>
      if isDigit c then
        let n1 := n * 10 + (byte c - 48) in
        if maxUint64 <? n1 then inl ErrRange else parseDigits s' n1
      else inl ErrSyntax
  end.

Definition ParseUint (s : string) : NumError + Z :=
  match s with
  | EmptyString => inl ErrSyntax
  | _ => parseDigits s 0
  end.

(** [ParseInt(s, 10, 0)] on a 64-bit platform. *)
Definition ParseInt (s : string) : NumError + Z :=
  match s with
  | EmptyString => inl ErrSyntax
  | String c s' =>
      let neg := Ascii.eqb c "-" in
      let body := if Ascii.eqb c "+" || neg then s' else s in
      match ParseUint body with
      | inl e => inl e
      | inr un =>
          if negb neg && (2^63 <=? un) then inl ErrRange
          else if neg && (2^63 <? un) then inl ErrRange
          else inr (if neg then - un else un)
      end
  end.

Definition numErrorMessage (fn s : string) (e : NumError) : string :=
  "strconv." ++ fn ++ ": parsing " ++ Quote s ++ ": " ++
  match e with
  | ErrSyntax => "invalid syntax"
  | ErrRange => "value out of range"
  end.

(** [strconv.Atoi]; its fast path for short inputs computes the same
    result as [ParseInt]. *)
Definition Atoi (s : string) : Result Z :=
  match ParseInt s with
  | inl e => Err (numErrorMessage "Atoi" s e)
  | inr n => Ok n
  end.

End WithLib.
End Strconv.

(** ** package strings *)

Module Strings.
Section WithLib.
Context {lib : GoLib}.

Fixpoint HasPrefix (s prefix : string) {struct prefix} : bool :=
  match prefix, s with
  | EmptyString, _ => true
  | String p prefix', String c s' => Ascii.eqb c p && HasPrefix s' prefix'
  | String _ _, EmptyString => false
  end.

Fixpoint dropBytes (n : nat) (s : string) : string :=
  match n, s with
  | S n', String _ s' => dropBytes n' s'
  | _, _ => s
  end.

Definition TrimPrefix (s prefix : string) : string :=
  if HasPrefix s prefix then dropBytes (String.length prefix) s else s.

(** [strings.Split(s, sep)] for a one-byte separator [sep]: the result is
    never empty, and has one more element than [s] has separators. *)
Fixpoint Split (s : string) (sep : ascii) : list string :=
  match s with
  | EmptyString => [EmptyString]
  | String c s' =>
      if Ascii.eqb c sep then EmptyString :: Split s' sep
      else match Split s' sep with
           | h :: t => String c h :: t
           | [] => [String c EmptyString]
           end
  end.

(** [strings.EqualFold]: the ASCII loop, which hands the remaining suffixes
    to the Unicode path at the first byte that is not ASCII. *)
Fixpoint EqualFold (s t : string) : bool :=
  match s, t with
  | String sr s', String tr t' =>
      if (128 <=? byte sr) || (128 <=? byte tr) then unicodeEqualFold s t
      else if byte tr =? byte sr then EqualFold s' t'
      else
        let lo := Z.min (byte sr) (byte tr) in
        let hi := Z.max (byte sr) (byte tr) in
        if (65 <=? lo) && (lo <=? 90) && (hi =? lo + 32) then EqualFold s' t'
        else false
  | EmptyString, EmptyString => true
  | _, _ => false
  end.

End WithLib.
End Strings.

(** ** package core: domain types *)

Module Core.

Record Subject : Type := {
  Title : string;
  URL : string;
  Type_ : string
}.

Record Repository : Type := {
  FullName : string;
  Owner : string
}.

Record Notification : Type := {
  ID : string;
  Reason : string;
  Subject_ : Subject;
  Repository_ : Repository
}.

Record Reviewers : Type := {
  Users : list string;
  Teams : list string
}.

(** [type Action int]: an open enumeration with three named values. *)
Definition Action : Type := Z.
Definition ActionSkip : Action := 0.
Definition ActionKeep : Action := 1.
Definition ActionMute : Action := 2.

Definition ActionString (a : Action) : string :=
  if a =? ActionSkip then "SKIP"
  else if a =? ActionKeep then "KEEP"
  else if a =? ActionMute then "MUTE"
  else "UNKNOWN".

Record Decision : Type := {
  Notification_ : Notification;
  Action_ : Action;
  Reason_ : string
}.

Record PRRef : Type := {
  RefOwner : string;
  RefRepo : string;
  Number : Z
}.

Record Config : Type := {
  IncludeOrg : string;
  ExcludeOrg : string
}.

Definition nonEmpty (s : string) : bool :=
  match s with EmptyString => false | String _ _ => true end.

Section WithLib.
Context {lib : GoLib}.

Definition apiPrefix : string := "https://api.github.com/repos/".

(** [ParseSubjectURL]: the four parts of the path after the prefix are
    owner, repository, the literal [pulls] and the number. *)
Definition ParseSubjectURL (url : string) : Result PRRef :=
  if negb (Strings.HasPrefix url apiPrefix) then
    Err ("unexpected URL prefix: " ++ url)
  else
    let rest := Strings.TrimPrefix url apiPrefix in
    let parts := Strings.Split rest "/" in
    match parts with
    | [p0; p1; p2; p3] =>
        if negb (String.eqb p2 "pulls") then
          Err ("unexpected URL structure: " ++ url)
        else
          match Strconv.Atoi p3 with
          | Err e => Err ("invalid PR number in URL " ++ url ++ ": " ++ e)
          | Ok number =>
              Ok {| RefOwner := p0; RefRepo := p1; Number := number |}
          end
    | _ => Err ("unexpected URL structure: " ++ url)
    end.

Definition MatchesOrgFilter (n : Notification) (cfg : Config) : bool :=
  let org := Owner (Repository_ n) in
  if nonEmpty (IncludeOrg cfg) && negb (Strings.EqualFold org (IncludeOrg cfg))
  then false
  else if nonEmpty (ExcludeOrg cfg) && Strings.EqualFold org (ExcludeOrg cfg)
  then false
  else true.

Definition NeedsReviewerLookup (n : Notification) (cfg : Config) : bool :=
  if negb (String.eqb (Reason n) "review_requested") then false
  else if negb (String.eqb (Type_ (Subject_ n)) "PullRequest") then false
  else MatchesOrgFilter n cfg.

(** The [for ... range reviewers.Users] loop of [Classify]: does some user
    fold-equal the login? *)
Fixpoint anyUserIs (users : list string) (login : string) : bool :=
  match users with
  | [] => false
  | user :: users' =>
      if Strings.EqualFold user login then true else anyUserIs users' login
  end.

(** [Classify]; the [*Reviewers] argument is [None] when the pointer is
    nil. *)
Definition Classify (n : Notification) (reviewers : option Reviewers)
    (login : string) (cfg : Config) : Decision :=
  if negb (MatchesOrgFilter n cfg) then
    {| Notification_ := n; Action_ := ActionSkip; Reason_ := "filtered by org" |}
  else if negb (String.eqb (Reason n) "review_requested")
          || negb (String.eqb (Type_ (Subject_ n)) "PullRequest") then
    {| Notification_ := n; Action_ := ActionSkip;
       Reason_ := "not a review-requested PR" |}
  else
    match reviewers with
    | None =>
        {| Notification_ := n; Action_ := ActionSkip;
           Reason_ := "no reviewer data" |}
    | Some r =>
        if anyUserIs (Users r) login then
          {| Notification_ := n; Action_ := ActionKeep;
             Reason_ := "direct review request" |}
        else
          {| Notification_ := n; Action_ := ActionMute;
             Reason_ := "team-only review request" |}
    end.

(** A [map[string]*Reviewers] may hold nil pointers: its values are
    [option Reviewers], and indexing a missing key yields nil as well. *)
Definition lookupReviewers (reviewersByURL : gmap string (option Reviewers))
    (url : string) : option Reviewers :=
  match reviewersByURL !! url with
  | Some r => r
  | None => None
  end.

Definition ClassifyAll (notifications : list Notification)
    (reviewersByURL : gmap string (option Reviewers))
    (login : string) (cfg : Config) : list Decision :=
  fold_left
    (fun decisions n =>
       let reviewers := lookupReviewers reviewersByURL (URL (Subject_ n)) in
       (decisions ++ [Classify n reviewers login cfg])%list)
    notifications [].

(** [CountByAction]: the counters are Go [int]s, incremented modulo 2^64;
    an action outside the three named values is not counted. *)
Definition countStep (acc : Z * Z * Z) (d : Decision) : Z * Z * Z :=
  let '(skip, keep, mute) := acc in
  if Action_ d =? ActionSkip then (wrap64 (skip + 1), keep, mute)
  else if Action_ d =? ActionKeep then (skip, wrap64 (keep + 1), mute)
  else if Action_ d =? ActionMute then (skip, keep, wrap64 (mute + 1))
  else (skip, keep, mute).

Definition CountByAction (decisions : list Decision) : Z * Z * Z :=
  fold_left countStep decisions (0, 0, 0).

(** *** Formatting *)

(** [%-Ns]: pad on the right with spaces up to [width] runes. *)
Definition padRight (width : nat) (s : string) : string :=
  s ++ string_of_list_ascii (repeat " "%char (width - RuneCount s)).

Definition formatLabel (d : Decision) : string :=
  match ParseSubjectURL (URL (Subject_ (Notification_ d))) with
  | Err _ => FullName (Repository_ (Notification_ d))
  | Ok ref => FullName (Repository_ (Notification_ d)) ++ "#" ++ itoa (Number ref)
  end.

Definition FormatDecisionRow (d : Decision) : string :=
  let label := formatLabel d in
  let action := ActionString (Action_ d) ++ " (" ++ Reason_ d ++ ")" in
  padRight 40 label ++ "  " ++
  padRight 90 (Title (Subject_ (Notification_ d))) ++ "  " ++ action.

Definition FormatMutationRow (d : Decision) (err : option string) : string :=
  let label := formatLabel d in
  match err with
  | Some e =>
      "ERROR  " ++ label ++ "  " ++
      Quote (Title (Subject_ (Notification_ d))) ++ "  " ++ e
  | None =>
      "MUTED  " ++ label ++ "  " ++ Quote (Title (Subject_ (Notification_ d)))
  end.

Definition newline : string := String (ascii_of_nat 10) EmptyString.

Definition FormatSummary (scanned muted kept skipped errors : Z) : string :=
  if 0 <? errors then
    newline ++ "Done: " ++ itoa scanned ++ " scanned, " ++ itoa muted ++
    " muted, " ++ itoa errors ++ " errors"
  else if 0 <? muted then
    newline ++ "Done: " ++ itoa scanned ++ " scanned, " ++ itoa muted ++ " muted"
  else
    newline ++ "Summary: " ++ itoa scanned ++ " scanned, " ++ itoa muted ++
    " spam, " ++ itoa kept ++ " kept, " ++ itoa skipped ++ " skipped".

(** [FormatDaemonCycleSummary]; [ts] is [now.UTC().Format(time.RFC3339)]. *)
Definition FormatDaemonCycleSummary (ts : string) (scanned muted errCount : Z)
    (notModified : bool) : string :=
  if notModified then ts ++ "  cycle: not modified" ++ newline
  else
    ts ++ "  cycle: " ++ itoa scanned ++ " scanned, " ++ itoa muted ++
    " muted, " ++ itoa errCount ++ " errors" ++ newline.

End WithLib.
End Core.

(** ** The world outside the process

    The server is a script of replies, consumed one per [httpClient.Do]; a
    reply is a response or a transport error, and an exhausted script is a
    transport error too.  Everything the process does to the outside is
    appended to a trace.

    A script is finite.  A server that answers without end, for instance
    with one non-empty page after the other, is not a world of this model:
    that a loop over the replies ends is a fact about finite scripts, not
    about the loop of the source, which has no bound. *)

Module GitHub.

Record ghOwner : Type := { ghLogin : string }.

Record ghSubject : Type := {
  ghTitle : string;
  ghURL : string;
  ghType : string
}.

Record ghRepository : Type := {
  ghFullName : string;
  ghRepoOwner : ghOwner
}.

Record ghNotification : Type := {
  ghID : string;
  ghReason : string;
  ghSubject_ : ghSubject;
  ghRepository_ : ghRepository
}.

Record ghUser : Type := { ghUserLogin : string }.
Record ghTeam : Type := { ghSlug : string }.

Record ghReviewersResponse : Type := {
  ghUsers : list ghUser;
  ghTeams : list ghTeam
}.

Record ghAuthenticatedUser : Type := { ghAuthLogin : string }.

(** A response body, seen through the three JSON decoders the client
    applies to bodies. *)
Record Body : Type := {
  asUser : Result ghAuthenticatedUser;
  asNotifications : Result (list ghNotification);
  asReviewers : Result ghReviewersResponse
}.

(** A request; [ReqBody] is empty when there is no body. *)
Record Request : Type := {
  Method : string;
  ReqURL : string;
  ReqHeader : list (string * string);
  ReqBody : string
}.

Record Response : Type := {
  StatusCode : Z;
  Header : list (string * string);
  RespBody : Body
}.

(** What the process does to the outside: [EvDo] is a request handed to
    [httpClient.Do], [EvSleep] a [time.Sleep] of that many nanoseconds,
    [EvStdout], [EvStderr] and [EvLog] are text written to standard output,
    to standard error and through [log.Printf].  [EvLookup] is a ghost event
    that marks a call of [GetRequestedReviewers] and its outcome. *)
Inductive Event : Type :=
| EvDo (req : Request)
| EvSleep (d : Z)
| EvStdout (s : string)
| EvStderr (s : string)
| EvLog (s : string)
| EvLookup (url : string) (ok : bool).

Record World : Type := {
  replies : list (Result Response);
  trace : list Event
}.

(** *** The state monad of effects on the world *)

Definition M (A : Type) : Type := World -> A * World.

Definition ret {A} (a : A) : M A := fun w => (a, w).

Definition bind {A B} (c : M A) (k : A -> M B) : M B :=
  fun w => let (a, w') := c w in k a w'.

Notation "'let*' x ':=' c 'in' k" := (bind c (fun x => k))
  (at level 10, x name, c at level 100, k at level 200).

Definition emit (e : Event) : M unit :=
  fun w => (tt, {| replies := replies w; trace := (trace w ++ [e])%list |}).

Definition when (b : bool) (c : M unit) : M unit := if b then c else ret tt.

(** [c.httpClient.Do(req)]. *)
Definition httpDo (req : Request) : M (Result Response) :=
  fun w =>
    let tr := (trace w ++ [EvDo req])%list in
    match replies w with
    | [] => (Err "connection refused", {| replies := []; trace := tr |})
    | r :: rest => (r, {| replies := rest; trace := tr |})
    end.

Definition Sleep (d : Z) : M unit := emit (EvSleep d).
Definition Println (s : string) : M unit := emit (EvStdout (s ++ Core.newline)).
Definition Print (s : string) : M unit := emit (EvStdout s).
Definition Eprint (s : string) : M unit := emit (EvStderr s).
Definition logPrintf (s : string) : M unit := emit (EvLog s).

(** [Header.Get]: the first value of the key, or the empty string. *)
Fixpoint Get (h : list (string * string)) (key : string) : string :=
  match h with
  | [] => EmptyString
  | (k, v) :: h' => if String.eqb k key then v else Get h' key
  end.

(** [Header.Set]. *)
Fixpoint Set_ (h : list (string * string)) (key value : string)
  : list (string * string) :=
  match h with
  | [] => [(key, value)]
  | (k, v) :: h' =>
      if String.eqb k key then (key, value) :: h'
      else (k, v) :: Set_ h' key value
  end.

Definition statusOK : Z := 200.
Definition statusCreated : Z := 201.
Definition statusResetContent : Z := 205.
Definition statusNotModified : Z := 304.
Definition statusForbidden : Z := 403.
Definition statusTooManyRequests : Z := 429.

(** [time.Second], in nanoseconds. *)
Definition Second : Z := 1000000000.

Record GitHubClient : Type := {
  token : string;
  login : string
}.

Definition NewGitHubClient (tok : string) : GitHubClient :=
  {| token := tok; login := EmptyString |}.

Section WithLib.
Context {lib : GoLib}.

(** [http.NewRequest]: fails on a URL it cannot parse; the methods the
    client uses are all valid. *)
Definition NewRequest (method url body : string) : Result Request :=
  match urlError url with
  | Some e => Err e
  | None =>
      Ok {| Method := method; ReqURL := url; ReqHeader := []; ReqBody := body |}
  end.

Definition withHeader (req : Request) (key value : string) : Request :=
  {| Method := Method req; ReqURL := ReqURL req;
     ReqHeader := Set_ (ReqHeader req) key value; ReqBody := ReqBody req |}.

Definition setStandardHeaders (c : GitHubClient) (req : Request) : Request :=
  withHeader
    (withHeader
       (withHeader req "Accept" "application/vnd.github+json")
       "Authorization" ("Bearer " ++ token c))
    "X-GitHub-Api-Version" "2022-11-28".

(** [isRateLimited]: status 429, or status 403 with a [Retry-After]. *)
Definition isRateLimited (resp : Response) : bool :=
  if StatusCode resp =? statusTooManyRequests then true
  else (StatusCode resp =? statusForbidden)
       && Core.nonEmpty (Get (Header resp) "Retry-After").

(** [parseRetryAfter]: the product [time.Duration(secs) * time.Second] is
    an [int64] multiplication. *)
Definition parseRetryAfter (resp : Response) : Z :=
  let s := Get (Header resp) "Retry-After" in
  if negb (Core.nonEmpty s) then wrap64 (60 * Second)
  else
    match Strconv.Atoi s with
    | Err _ => wrap64 (60 * Second)
    | Ok secs => wrap64 (secs * Second)
    end.

(** One iteration of the loop of [do].  [body] is what the [io.Reader]
    passed to [do] still has to yield when the iteration starts: the
    request carries exactly that, and sending it drains the reader.  The
    result is [inl] when the loop continues. *)
Definition doAttempt (c : GitHubClient) (attempt : Z)
    (method url body : string) : M (unit + Result Response) :=
  match NewRequest method url body with
  | Err e => ret (inr (Err e))
  | Ok req =>
      let req := setStandardHeaders c req in
      let* r := httpDo req in
      match r with
      | Err e => ret (inr (Err e))
      | Ok resp =>
          if (attempt =? 0) && isRateLimited resp then
            let wait := parseRetryAfter resp in
            let* _ := Sleep wait in
            ret (inl tt)
          else ret (inr (Ok resp))
      end
  end.

(** [do]: [for attempt := range 2].  The [body] argument is one reader
    shared by both iterations: [http.NewRequest] takes the body of the
    request, and its length, from what the reader has left, and the
    transport reads it to the end when it sends the request.  The second
    iteration therefore builds its request from an exhausted reader. *)
Definition do (c : GitHubClient) (method url body : string)
  : M (Result Response) :=
  let* r0 := doAttempt c 0 method url body in
  match r0 with
  | inr res => ret res
  | inl _ =>
      let* r1 := doAttempt c 1 method url EmptyString in
      match r1 with
      | inr res => ret res
      | inl _ => ret (Err "exhausted retries")
      end
  end.

(** [FetchLogin] stores the login in the client: the updated client is
    returned next to the error. *)
Definition FetchLogin (c : GitHubClient) : M (GitHubClient * option string) :=
  let* r := do c "GET" "https://api.github.com/user" EmptyString in
  match r with
  | Err e => ret (c, Some ("fetch login: " ++ e))
  | Ok resp =>
      if negb (StatusCode resp =? statusOK) then
        ret (c, Some ("fetch login: unexpected status " ++ itoa (StatusCode resp)))
      else
        match asUser (RespBody resp) with
        | Err e => ret (c, Some ("fetch login: " ++ e))
        | Ok user => ret ({| token := token c; login := ghAuthLogin user |}, None)
        end
  end.

Record NotificationsResult : Type := {
  Notifications : list Core.Notification;
  NotModified : bool;
  LastModified : string;
  PollInterval : Z
}.

Definition toNotification (gn : ghNotification) : Core.Notification :=
  {| Core.ID := ghID gn;
     Core.Reason := ghReason gn;
     Core.Subject_ :=
       {| Core.Title := ghTitle (ghSubject_ gn);
          Core.URL := ghURL (ghSubject_ gn);
          Core.Type_ := ghType (ghSubject_ gn) |};
     Core.Repository_ :=
       {| Core.FullName := ghFullName (ghRepository_ gn);
          Core.Owner := ghLogin (ghRepoOwner (ghRepository_ gn)) |} |}.

Definition toReviewers (gr : ghReviewersResponse) : Core.Reviewers :=
  {| Core.Users := map ghUserLogin (ghUsers gr);
     Core.Teams := map ghSlug (ghTeams gr) |}.

(** The metadata captured from the first page. *)
Definition captureMetadata (page : Z) (resp : Response)
    (result : NotificationsResult) : NotificationsResult :=
  if page =? 1 then
    let lm := Get (Header resp) "Last-Modified" in
    let result :=
      if Core.nonEmpty lm then
        {| Notifications := Notifications result;
           NotModified := NotModified result;
           LastModified := lm;
           PollInterval := PollInterval result |}
      else result in
    let pi := Get (Header resp) "X-Poll-Interval" in
    if Core.nonEmpty pi then
      match Strconv.Atoi pi with
      | Ok secs =>
          {| Notifications := Notifications result;
             NotModified := NotModified result;
             LastModified := LastModified result;
             PollInterval := wrap64 (secs * Second) |}
      | Err _ => result
      end
    else result
  else result.

(** What one iteration of the page loop decides. *)
Inductive PageOutcome : Type :=
| PageReturn (r : Result NotificationsResult)
| PageBreak
| PageNext (all : list Core.Notification).

(** The part of an iteration that follows the (possibly retried) reply. *)
Definition handlePage (page : Z) (resp : Response) (all : list Core.Notification)
    (result : NotificationsResult) : NotificationsResult * PageOutcome :=
  let result := captureMetadata page resp result in
  if StatusCode resp =? statusNotModified then
    let result :=
      {| Notifications := Notifications result;
         NotModified := true;
         LastModified := LastModified result;
         PollInterval := PollInterval result |} in
    (result, PageReturn (Ok result))
  else if negb (StatusCode resp =? statusOK) then
    (result,
     PageReturn (Err ("list notifications page " ++ itoa page ++
                      ": unexpected status " ++ itoa (StatusCode resp))))
  else
    match asNotifications (RespBody resp) with
    | Err e =>
        (result,
         PageReturn (Err ("list notifications page " ++ itoa page ++ ": " ++ e)))
    | Ok ghNotifs =>
        match ghNotifs with
        | [] => (result, PageBreak)
        | _ => (result, PageNext (all ++ map toNotification ghNotifs)%list)
        end
    end.

(** One iteration of [for page := 1; ; page++]. *)
Definition listPage (c : GitHubClient) (lastModified : string) (page : Z)
    (all : list Core.Notification) (result : NotificationsResult)
  : M (NotificationsResult * PageOutcome) :=
  let url :=
    "https://api.github.com/notifications?per_page=50&page=" ++ itoa page in
  match NewRequest "GET" url EmptyString with
  | Err e => ret (result, PageReturn (Err ("list notifications: " ++ e)))
  | Ok req =>
      let req := setStandardHeaders c req in
      let req :=
        if Core.nonEmpty lastModified && (page =? 1)
        then withHeader req "If-Modified-Since" lastModified
        else req in
      let* r := httpDo req in
      match r with
      | Err e =>
          ret (result,
               PageReturn (Err ("list notifications page " ++ itoa page ++
                                ": " ++ e)))
      | Ok resp =>
          if isRateLimited resp then
            let wait := parseRetryAfter resp in
            let* _ := Sleep wait in
            let* r2 := httpDo req in
            match r2 with
            | Err e =>
                ret (result,
                     PageReturn (Err ("list notifications page " ++ itoa page ++
                                      " (retry): " ++ e)))
            | Ok resp2 => ret (handlePage page resp2 all result)
            end
          else ret (handlePage page resp all result)
      end
  end.

(** The page loop.  Every iteration consumes a reply of the script or ends
    the loop, so [fuel] above the length of the script is never used up;
    [None] is the loop still running when the fuel is. *)
Fixpoint listLoop (fuel : nat) (c : GitHubClient) (lastModified : string)
    (page : Z) (all : list Core.Notification) (result : NotificationsResult)
  : M (option (Result NotificationsResult)) :=
  match fuel with
  | O => ret None
  | S fuel' =>
      let* o := listPage c lastModified page all result in
      match o with
      | (_, PageReturn r) => ret (Some r)
      | (result', PageBreak) =>
          ret (Some (Ok {| Notifications := all;
                           NotModified := NotModified result';
                           LastModified := LastModified result';
                           PollInterval := PollInterval result' |}))
      | (result', PageNext all') =>
          listLoop fuel' c lastModified (wrap64 (page + 1)) all' result'
      end
  end.

Definition emptyResult : NotificationsResult :=
  {| Notifications := []; NotModified := false;
     LastModified := EmptyString; PollInterval := 0 |}.

Definition ListUnreadNotifications (c : GitHubClient) (lastModified : string)
  : M (option (Result NotificationsResult)) :=
  fun w =>
    listLoop (S (List.length (replies w))) c lastModified 1 [] emptyResult w.

Definition reviewersURL (ref : Core.PRRef) : string :=
  "https://api.github.com/repos/" ++ Core.RefOwner ref ++ "/" ++
  Core.RefRepo ref ++ "/pulls/" ++ itoa (Core.Number ref) ++
  "/requested_reviewers".

Definition refLabel (ref : Core.PRRef) : string :=
  Core.RefOwner ref ++ "/" ++ Core.RefRepo ref ++ "#" ++ itoa (Core.Number ref).

Definition GetRequestedReviewers (c : GitHubClient) (subjectURL : string)
  : M (Result Core.Reviewers) :=
  match Core.ParseSubjectURL subjectURL with
  | Err e => ret (Err ("get reviewers: " ++ e))
  | Ok ref =>
      let* r := do c "GET" (reviewersURL ref) EmptyString in
      match r with
      | Err e => ret (Err ("get reviewers for " ++ refLabel ref ++ ": " ++ e))
      | Ok resp =>
          if negb (StatusCode resp =? statusOK) then
            ret (Err ("get reviewers for " ++ refLabel ref ++
                      ": unexpected status " ++ itoa (StatusCode resp)))
          else
            match asReviewers (RespBody resp) with
            | Err e =>
                ret (Err ("get reviewers for " ++ refLabel ref ++ ": " ++ e))
            | Ok ghReviewers => ret (Ok (toReviewers ghReviewers))
            end
      end
  end.

(** [MarkThreadRead] and [IgnoreThread] return an [error]: [None] is nil. *)
Definition threadURL (threadID : string) : string :=
  "https://api.github.com/notifications/threads/" ++ threadID.

Definition MarkThreadRead (c : GitHubClient) (threadID : string)
  : M (option string) :=
  let* r := do c "PATCH" (threadURL threadID) EmptyString in
  match r with
  | Err e => ret (Some ("mark thread " ++ threadID ++ " read: " ++ e))
  | Ok resp =>
      if negb (StatusCode resp =? statusResetContent)
         && negb (StatusCode resp =? statusOK) then
        ret (Some ("mark thread " ++ threadID ++ " read: unexpected status " ++
                   itoa (StatusCode resp)))
      else ret None
  end.

Definition ignoredBody : string :=
  "{" ++ dquote ++ "ignored" ++ dquote ++ ":true}".

Definition IgnoreThread (c : GitHubClient) (threadID : string)
  : M (option string) :=
  let* r := do c "PUT" (threadURL threadID ++ "/subscription") ignoredBody in
  match r with
  | Err e => ret (Some ("ignore thread " ++ threadID ++ ": " ++ e))
  | Ok resp =>
      if negb (StatusCode resp =? statusOK)
         && negb (StatusCode resp =? statusCreated) then
        ret (Some ("ignore thread " ++ threadID ++ ": unexpected status " ++
                   itoa (StatusCode resp)))
      else ret None
  end.

End WithLib.
End GitHub.

(** ** package main *)

Module Main.
Import GitHub.

Section WithLib.
Context {lib : GoLib}.

(** The state of the loop of [processNotifications]. *)
Record LoopState : Type := {
  reviewersByURL : gmap string (option Core.Reviewers);
  decisions : list Core.Decision;
  errCount : Z
}.

Definition initState : LoopState :=
  {| reviewersByURL := ∅; decisions := []; errCount := 0 |}.

(** "Fetch reviewer data if needed (with dedup)".  [EvLookup] is a ghost
    event: it records that [client.GetRequestedReviewers] was called for
    the URL and whether it returned without error. *)
Definition fetchIfNeeded (client : GitHubClient) (cfg : Core.Config)
    (verbose : bool) (byURL : gmap string (option Core.Reviewers))
    (n : Core.Notification) : M (gmap string (option Core.Reviewers)) :=
  let url := Core.URL (Core.Subject_ n) in
  if Core.NeedsReviewerLookup n cfg then
    match byURL !! url with
    | Some _ => ret byURL
    | None =>
        let* r := GetRequestedReviewers client url in
        let* _ := emit (EvLookup url (isOk r)) in
        match r with
        | Err e =>
            let* _ := when verbose (logPrintf ("warning: " ++ e)) in
            ret byURL
        | Ok reviewers => ret (<[url := Some reviewers]> byURL)
        end
    end
  else ret byURL.

(** Mark read, then ignore: the second call is the [else if] of the
    first. *)
Definition mutate (client : GitHubClient) (threadID : string)
  : M (option string) :=
  let* e1 := MarkThreadRead client threadID in
  match e1 with
  | Some e => ret (Some e)
  | None => IgnoreThread client threadID
  end.

(** The body of the loop over the notifications. *)
Definition processOne (client : GitHubClient) (cfg : Core.Config)
    (apply verbose : bool) (st : LoopState) (n : Core.Notification)
  : M LoopState :=
  let* byURL := fetchIfNeeded client cfg verbose (reviewersByURL st) n in
  let d :=
    Core.Classify n (Core.lookupReviewers byURL (Core.URL (Core.Subject_ n)))
      (login client) cfg in
  let ds := (decisions st ++ [d])%list in
  if apply && (Core.Action_ d =? Core.ActionMute) then
    let* mutErr := mutate client (Core.ID (Core.Notification_ d)) in
    let errs :=
      match mutErr with
      | Some _ => wrap64 (errCount st + 1)
      | None => errCount st
      end in
    let* _ := Println (Core.FormatMutationRow d mutErr) in
    ret {| reviewersByURL := byURL; decisions := ds; errCount := errs |}
  else if negb apply then
    let* _ := Println (Core.FormatDecisionRow d) in
    ret {| reviewersByURL := byURL; decisions := ds; errCount := errCount st |}
  else
    ret {| reviewersByURL := byURL; decisions := ds; errCount := errCount st |}.

Fixpoint processLoop (client : GitHubClient) (cfg : Core.Config)
    (apply verbose : bool) (notifications : list Core.Notification)
    (st : LoopState) : M LoopState :=
  match notifications with
  | [] => ret st
  | n :: rest =>
      let* st' := processOne client cfg apply verbose st n in
      processLoop client cfg apply verbose rest st'
  end.

Definition processNotifications (client : GitHubClient) (cfg : Core.Config)
    (notifications : list Core.Notification) (apply verbose : bool)
  : M (list Core.Decision * Z) :=
  let* st := processLoop client cfg apply verbose notifications initState in
  ret (decisions st, errCount st).

Definition len {A} (l : list A) : Z := Z.of_nat (List.length l).

(** [runOnce] returns the exit status; [None] only if the page loop were
    still running (over a finite script it never is, see
    [ListUnreadNotifications_returns]). *)
Definition runOnce (client : GitHubClient) (cfg : Core.Config)
    (apply verbose : bool) : M (option Z) :=
  let* o := ListUnreadNotifications client EmptyString in
  match o with
  | None => ret None
  | Some (Err e) =>
      let* _ := Eprint ("Error: " ++ e ++ Core.newline) in
      ret (Some 1)
  | Some (Ok result) =>
      if NotModified result || (len (Notifications result) =? 0) then
        let* _ := Println "No unread notifications." in
        ret (Some 0)
      else
        let* _ :=
          when verbose
            (logPrintf ("fetched " ++ itoa (len (Notifications result)) ++
                        " unread notifications")) in
        let* _ :=
          when (negb apply)
            (let* _ :=
               Println "DRY RUN — no changes will be made (use --apply to execute)" in
             Println EmptyString) in
        let* r :=
          processNotifications client cfg (Notifications result) apply verbose in
        let ds := fst r in
        let errs := snd r in
        match Core.CountByAction ds with
        | (skip, keep, mute) =>
            let* _ :=
              Println (Core.FormatSummary (len ds) (wrap64 (mute - errs))
                         keep skip errs) in
            if 0 <? errs then ret (Some 1) else ret (Some 0)
        end
  end.

(** What [runDaemon] carries from one cycle to the next. *)
Record CycleState : Type := {
  pollInterval : Z;
  lastModified : string
}.

Definition daemonStart : CycleState :=
  {| pollInterval := wrap64 (60 * Second); lastModified := EmptyString |}.

(** One iteration of the loop of [runDaemon], up to its [select]; [ts] is
    the RFC 3339 rendering of [time.Now()]. *)
Definition runDaemonCycle (client : GitHubClient) (cfg : Core.Config)
    (apply verbose : bool) (ts : string) (cs : CycleState)
  : M (option CycleState) :=
  let* o := ListUnreadNotifications client (lastModified cs) in
  match o with
  | None => ret None
  | Some (Err e) =>
      let* _ := logPrintf ("cycle error: " ++ e) in
      ret (Some cs)
  | Some (Ok result) =>
      let lm :=
        if Core.nonEmpty (LastModified result) then LastModified result
        else lastModified cs in
      let pi :=
        if 0 <? PollInterval result then PollInterval result
        else pollInterval cs in
      let cs' := {| pollInterval := pi; lastModified := lm |} in
      if NotModified result || (len (Notifications result) =? 0) then
        let* _ :=
          when verbose (Print (Core.FormatDaemonCycleSummary ts 0 0 0 true)) in
        ret (Some cs')
      else
        let* r :=
          processNotifications client cfg (Notifications result) apply verbose in
        let ds := fst r in
        let errs := snd r in
        match Core.CountByAction ds with
        | (_, _, muted) =>
            let* _ :=
              Print (Core.FormatDaemonCycleSummary ts (len ds)
                       (wrap64 (muted - errs)) errs false) in
            ret (Some cs')
        end
  end.

End WithLib.
End Main.


(** ** The loop of the daemon *)

Module Daemon.
Import GitHub Main.

(** What the [select] of [runDaemon] receives: the timer, or a signal with
    its name. *)
Inductive Wake : Type :=
| Timer
| Signal (name : string).

Section WithLib.
Context {lib : GoLib}.

(** The loop of [runDaemon] over a schedule, which gives for each
    iteration the rendering of [time.Now()] and what the [select] receives.
    The wait for [time.After(pollInterval)] is recorded as an [EvSleep] of
    the interval.  The result is the exit status, or [None] while the loop
    is still running when the schedule ends, and the cycle state. *)
Fixpoint daemonLoop (client : GitHubClient) (cfg : Core.Config)
    (apply verbose : bool) (schedule : list (string * Wake)) (cs : CycleState)
  : M (option Z * CycleState) :=
  match schedule with
  | [] => ret (None, cs)
  | (ts, wake) :: schedule' =>
      let* o := runDaemonCycle client cfg apply verbose ts cs in
      match o with
      | None => ret (None, cs)
      | Some cs' =>
          match wake with
          | Signal s =>
              let* _ := logPrintf ("received " ++ s ++ ", shutting down") in
              ret (Some 0, cs')
          | Timer =>
              let* _ := Sleep (pollInterval cs') in
              daemonLoop client cfg apply verbose schedule' cs'
          end
      end
  end.

(** [runDaemon]; the interval it starts with prints as [1m0s]. *)
Definition runDaemon (client : GitHubClient) (cfg : Core.Config)
    (apply verbose : bool) (schedule : list (string * Wake))
  : M (option Z * CycleState) :=
  let* _ := logPrintf "daemon started (poll interval: 1m0s)" in
  daemonLoop client cfg apply verbose schedule daemonStart.

End WithLib.
End Daemon.

(** ** The entry point *)

Module Entry.
Import GitHub Main Daemon.

(** The command line after [flag.Parse]. *)
Record Flags : Type := {
  flagApply : bool;
  flagVerbose : bool;
  flagDaemon : bool;
  flagIncludeOrg : string;
  flagExcludeOrg : string
}.

Section WithLib.
Context {lib : GoLib}.

(** [resolveToken]; [env] is the value of [GH_TOKEN], empty when unset. *)
Definition resolveToken (env : string) : Result string :=
  if negb (Core.nonEmpty env) then
    Err ("GH_TOKEN environment variable is not set" ++ Core.newline ++
         Core.newline ++
         "Set a GitHub Classic PAT with 'notifications' scope:" ++
         Core.newline ++ "  export GH_TOKEN=ghp_...")
  else Ok env.

(** [run] from the parsed flags on; [schedule] is what the daemon's
    [select] receives, and the result is the exit status. *)
Definition run (flags : Flags) (env : string)
    (schedule : list (string * Wake)) : M (option Z) :=
  let cfg :=
    {| Core.IncludeOrg := flagIncludeOrg flags;
       Core.ExcludeOrg := flagExcludeOrg flags |} in
  match resolveToken env with
  | Err e =>
      let* _ := Eprint ("Error: " ++ e ++ Core.newline) in
      ret (Some 1)
  | Ok tok =>
      let client := NewGitHubClient tok in
      let* r := FetchLogin client in
      match snd r with
      | Some e =>
          let* _ := Eprint ("Error: " ++ e ++ Core.newline) in
          ret (Some 1)
      | None =>
          let client := fst r in
          let* _ :=
            when (flagVerbose flags)
              (logPrintf ("authenticated as " ++ login client)) in
          if flagDaemon flags then
            let* d :=
              runDaemon client cfg (flagApply flags) (flagVerbose flags)
                schedule in
            ret (fst d)
          else runOnce client cfg (flagApply flags) (flagVerbose flags)
      end
  end.

End WithLib.
End Entry.


(** * Vocabulary of the properties *)

(** ** Vocabulary: strings and decimal literals *)

Module StringsSpec.

Section WithLib.
Context {lib : GoLib}.

(** ASCII lower-casing, the reference for case folding on ASCII text. *)
Definition isUpper (c : ascii) : bool := (65 <=? byte c) && (byte c <=? 90).

Definition lowerByte (c : ascii) : ascii :=
  if isUpper c then ascii_of_N (N_of_ascii c + 32) else c.

Fixpoint toLower (s : string) : string :=
  match s with
  | EmptyString => EmptyString
  | String c s' => String (lowerByte c) (toLower s')
  end.

Fixpoint isASCII (s : string) : bool :=
  match s with
  | EmptyString => true
  | String c s' => (byte c <? 128) && isASCII s'
  end.

(** [s] does not contain the byte [sep]. *)
Fixpoint without (sep : ascii) (s : string) : bool :=
  match s with
  | EmptyString => true
  | String c s' => negb (Ascii.eqb c sep) && without sep s'
  end.

Definition sepString (sep : ascii) : string := String sep EmptyString.

Fixpoint allDigits (s : string) : bool :=
  match s with
  | EmptyString => true
  | String c s' => Strconv.isDigit c && allDigits s'
  end.

Fixpoint valueFrom (acc : Z) (s : string) : Z :=
  match s with
  | EmptyString => acc
  | String c s' => valueFrom (acc * 10 + (byte c - 48)) s'
  end.

Definition decimal (s : string) : Z := valueFrom 0 s.

(** [s] is a decimal integer literal of value [n]: an optional sign, at
    least one digit, and a value that fits 64 bits. *)
Definition IntLiteral (s : string) (n : Z) : Prop :=
  exists sign digits,
    s = sign ++ digits /\
    (sign = EmptyString \/ sign = "+" \/ sign = "-") /\
    digits <> EmptyString /\
    allDigits digits = true /\
    n = (if String.eqb sign "-" then - decimal digits else decimal digits) /\
    inInt64 n.

End WithLib.
End StringsSpec.

(** ** Vocabulary: the classifier *)

Module CoreSpec.
Import Core.

Section WithLib.
Context {lib : GoLib}.

Definition reviewRequested : string := "review_requested".
Definition pullRequest : string := "PullRequest".

(** The acting user appears in the user list, up to case folding. *)
Definition requestedDirectly (login : string) (r : Reviewers) : Prop :=
  exists user, In user (Users r) /\ Strings.EqualFold user login = true.

(** The decision taken once the org filter and the kind test have passed. *)
Definition byReviewers (n : Notification) (reviewers : option Reviewers)
    (login : string) : Decision :=
  match reviewers with
  | None =>
      {| Notification_ := n; Action_ := ActionSkip; Reason_ := "no reviewer data" |}
  | Some r =>
      if anyUserIs (Users r) login then
        {| Notification_ := n; Action_ := ActionKeep;
           Reason_ := "direct review request" |}
      else
        {| Notification_ := n; Action_ := ActionMute;
           Reason_ := "team-only review request" |}
  end.

Definition namedAction (d : Decision) : Prop :=
  Action_ d = ActionSkip \/ Action_ d = ActionKeep \/ Action_ d = ActionMute.

Definition slashFree (s : string) : Prop := StringsSpec.without "/" s = true.

(** An API reference [<root>/repos/<owner>/<repo>/<kind>/<num>]. *)
Definition refURL (kind owner repo num : string) : string :=
  apiPrefix ++ owner ++ "/" ++ repo ++ "/" ++ kind ++ "/" ++ num.

Definition pullURL : string -> string -> string -> string := refURL "pulls".
Definition issueURL : string -> string -> string -> string := refURL "issues".

End WithLib.
End CoreSpec.

(** ** Vocabulary: traces of the client *)

Module GitHubSpec.
Import GitHub.

Section WithLib.
Context {lib : GoLib}.

(** [emits Q c]: running [c] appends events to the trace, all of them
    satisfying [Q]. *)
Definition emits {A} (Q : Event -> Prop) (c : M A) : Prop :=
  forall w, exists evs,
    trace (snd (c w)) = (trace w ++ evs)%list /\ List.Forall Q evs.

(** The request [do] builds. *)
Definition request (c : GitHubClient) (method url body : string) : Request :=
  setStandardHeaders c
    {| Method := method; ReqURL := url; ReqHeader := []; ReqBody := body |}.

(** An HTTP exchange with the given method, or the pause between its two
    attempts. *)
Definition exchange (method : string) (e : Event) : Prop :=
  match e with
  | EvDo req => Method req = method
  | EvSleep _ => True
  | _ => False
  end.

End WithLib.
End GitHubSpec.

(** ** Vocabulary: the cycle *)

Module MainSpec.
Import GitHub Main GitHubSpec.

Section WithLib.
Context {lib : GoLib}.

(** The reviewer lookups recorded in a trace, oldest first. *)
Fixpoint lookupsOf (tr : list Event) : list (string * bool) :=
  match tr with
  | [] => []
  | EvLookup url ok :: tr' => (url, ok) :: lookupsOf tr'
  | _ :: tr' => lookupsOf tr'
  end.

(** No reference is looked up again once a lookup of it has succeeded. *)
Fixpoint noRefetch (L : list (string * bool)) : Prop :=
  match L with
  | [] => True
  | (url, ok) :: L' =>
      (ok = true -> forall ok', ~ In (url, ok') L') /\ noRefetch L'
  end.

Definition silent (e : Event) : Prop :=
  match e with
  | EvLookup _ _ => False
  | _ => True
  end.

(** The cache holds exactly the references whose lookup has succeeded, and
    the lookups so far never repeat a resolved reference. *)
Definition cacheInv (L : list (string * bool))
    (byURL : gmap string (option Core.Reviewers)) : Prop :=
  noRefetch L /\ forall url, In (url, true) L <-> byURL !! url <> None.

(** The lookups a batch makes, exactly, from the set of references resolved
    so far: a notification that needs reviewer data and whose reference is
    not resolved triggers one lookup, with whatever outcome; any other
    notification triggers none; and only a lookup that succeeds resolves
    its reference. *)
Fixpoint lookupsFor (cfg : Core.Config) (resolved : gset string)
    (ns : list Core.Notification) (L : list (string * bool)) : Prop :=
  match ns with
  | [] => L = []
  | n :: ns' =>
      let url := Core.URL (Core.Subject_ n) in
      if Core.NeedsReviewerLookup n cfg && negb (bool_decide (url ∈ resolved))
      then
        exists ok L',
          L = (url, ok) :: L' /\
          lookupsFor cfg (if ok then {[url]} ∪ resolved else resolved) ns' L'
      else lookupsFor cfg resolved ns' L
  end.

(** The number of lookups of a reference, and the number of notifications
    with that reference that need reviewer data. *)
Definition lookupsAt (url : string) (L : list (string * bool)) : nat :=
  List.length (List.filter (fun p => String.eqb (fst p) url) L).

Definition needingAt (cfg : Core.Config) (url : string)
    (ns : list Core.Notification) : nat :=
  List.length
    (List.filter
       (fun n => Core.NeedsReviewerLookup n cfg
                 && String.eqb (Core.URL (Core.Subject_ n)) url) ns).

(** An event that is not a [PUT] request. *)
Definition noPut (e : Event) : Prop :=
  match e with
  | EvDo req => Method req <> "PUT"
  | _ => True
  end.

Definition pageURL (page : Z) : string :=
  "https://api.github.com/notifications?per_page=50&page=" ++ itoa page.

(** The request for a page of the inbox. *)
Definition pageRequest (c : GitHubClient) (lastModified : string) (page : Z)
  : Request :=
  let req := request c "GET" (pageURL page) EmptyString in
  if Core.nonEmpty lastModified && (page =? 1)
  then withHeader req "If-Modified-Since" lastModified
  else req.

(** The first reply, when it is "not modified" or an empty first page. *)
Definition quietReply (resp : Response) : Prop :=
  StatusCode resp = statusNotModified \/
  (StatusCode resp = statusOK /\ asNotifications (RespBody resp) = Ok []).

(** The cycle state a daemon cycle keeps after a successful fetch. *)
Definition learn (cs : CycleState) (meta : NotificationsResult) : CycleState :=
  {| pollInterval :=
       if 0 <? PollInterval meta then PollInterval meta else pollInterval cs;
     lastModified :=
       if Core.nonEmpty (LastModified meta) then LastModified meta
       else lastModified cs |}.

End WithLib.
End MainSpec.

(** ** Data of the worked examples *)

Module Examples.
Import GitHub Main.

Definition cfg0 : Core.Config :=
  {| Core.IncludeOrg := EmptyString; Core.ExcludeOrg := EmptyString |}.

Definition cfgOrgs : Core.Config :=
  {| Core.IncludeOrg := "myorg"; Core.ExcludeOrg := "Other" |}.

Definition url42 : string := "https://api.github.com/repos/MyOrg/repo/pulls/42".

Definition notification (id reason kind url : string) : Core.Notification :=
  {| Core.ID := id;
     Core.Reason := reason;
     Core.Subject_ := {| Core.Title := "Fix the parser"; Core.URL := url;
                         Core.Type_ := kind |};
     Core.Repository_ := {| Core.FullName := "MyOrg/repo"; Core.Owner := "MyOrg" |} |}.

Definition nA : Core.Notification :=
  notification "1" "review_requested" "PullRequest" url42.
Definition nB : Core.Notification :=
  notification "2" "review_requested" "PullRequest"
    "https://api.github.com/repos/MyOrg/repo/pulls/43".
Definition nC : Core.Notification :=
  notification "3" "mention" "PullRequest"
    "https://api.github.com/repos/MyOrg/repo/pulls/44".
Definition nA' : Core.Notification :=
  notification "4" "review_requested" "PullRequest" url42.

Definition rA : Core.Reviewers :=
  {| Core.Users := ["alice"; "me"]; Core.Teams := [] |}.
Definition rB : Core.Reviewers :=
  {| Core.Users := ["alice"]; Core.Teams := ["backend"] |}.
Definition rB' : Core.Reviewers :=
  {| Core.Users := ["alice"]; Core.Teams := ["frontend"; "ops"] |}.

Definition byURL0 : gmap string (option Core.Reviewers) :=
  <[Core.URL (Core.Subject_ nA) := Some rA]>
    (<[Core.URL (Core.Subject_ nB) := Some rB]> ∅).

Definition c0 : GitHubClient := {| token := "t"; login := "me" |}.

Definition noBody : Body :=
  {| asUser := Err "EOF"; asNotifications := Err "EOF"; asReviewers := Err "EOF" |}.

Definition reply (status : Z) (header : list (string * string)) : Response :=
  {| StatusCode := status; Header := header; RespBody := noBody |}.

Definition emptyPage : Response :=
  {| StatusCode := 200; Header := [];
     RespBody := {| asUser := Err "not an object";
                    asNotifications := Ok [];
                    asReviewers := Err "not an object" |} |}.

Definition reviewersReply (users : list string) : Response :=
  {| StatusCode := 200; Header := [];
     RespBody := {| asUser := Err "no login";
                    asNotifications := Err "not an array";
                    asReviewers :=
                      Ok {| ghUsers := map (fun u => {| ghUserLogin := u |}) users;
                            ghTeams := [{| ghSlug := "backend" |}] |} |} |}.

Definition world (rs : list (Result Response)) : World :=
  {| replies := rs; trace := [] |}.

Definition st0 : LoopState := initState.

End Examples.


(** ** Vocabulary: paging and requests *)

Module ClientSpec.
Import GitHub GitHubSpec MainSpec.

Section WithLib.
Context {lib : GoLib}.

(** The notifications a reply carries, as [ListUnreadNotifications]
    converts them. *)
Definition notifsOf (resp : Response) : list Core.Notification :=
  match asNotifications (RespBody resp) with
  | Ok ghNotifs => map toNotification ghNotifs
  | Err _ => []
  end.

(** A reply with status 200 and at least one notification. *)
Definition fullPage (resp : Response) : Prop :=
  StatusCode resp = statusOK /\
  exists gn ghNotifs, asNotifications (RespBody resp) = Ok (gn :: ghNotifs).

(** A reply with status 200 and an empty array. *)
Definition emptyPage (resp : Response) : Prop :=
  StatusCode resp = statusOK /\ asNotifications (RespBody resp) = Ok [].

(** The requests for [n] consecutive pages, from [page] on. *)
Fixpoint pageRequests (c : GitHubClient) (lastModified : string) (page : Z)
    (n : nat) : list Event :=
  match n with
  | O => []
  | S n' =>
      EvDo (pageRequest c lastModified page)
      :: pageRequests c lastModified (page + 1) n'
  end.

(** All notifications of a sequence of replies, in order. *)
Definition allNotifs (pages : list Response) : list Core.Notification :=
  concat (map notifsOf pages).

(** The metadata after a sequence of pages, the first numbered [page]. *)
Fixpoint capturePages (page : Z) (pages : list Response)
    (result : NotificationsResult) : NotificationsResult :=
  match pages with
  | [] => result
  | resp :: pages' =>
      capturePages (page + 1) pages' (captureMetadata page resp result)
  end.

(** [uniform c]: what [c] returns, the replies it leaves and the events it
    appends depend on the replies it finds, not on the trace so far. *)
Definition uniform {A} (c : M A) : Prop :=
  forall rs t1 t2,
    fst (c {| replies := rs; trace := t1 |})
    = fst (c {| replies := rs; trace := t2 |}) /\
    replies (snd (c {| replies := rs; trace := t1 |}))
    = replies (snd (c {| replies := rs; trace := t2 |})) /\
    exists evs,
      trace (snd (c {| replies := rs; trace := t1 |})) = (t1 ++ evs)%list /\
      trace (snd (c {| replies := rs; trace := t2 |})) = (t2 ++ evs)%list.

(** An exchange with the given method at the given URL, or the pause
    between its two attempts. *)
Definition exchangeAt (method url : string) (e : Event) : Prop :=
  match e with
  | EvDo req => Method req = method /\ ReqURL req = url
  | EvSleep _ => True
  | _ => False
  end.

End WithLib.
End ClientSpec.

(** ** Vocabulary: the batch *)

Module BatchSpec.
Import GitHub Main GitHubSpec MainSpec ClientSpec.

Section WithLib.
Context {lib : GoLib}.

Definition isMute (d : Core.Decision) : bool :=
  Core.Action_ d =? Core.ActionMute.

(** What a reviewer lookup may add to the trace. *)
Definition lookupTraffic (e : Event) : Prop :=
  match e with
  | EvDo req => Method req = "GET"
  | EvSleep _ | EvLog _ | EvLookup _ _ => True
  | _ => False
  end.

(** The exchanges that mark a thread read and set it to ignored. *)
Definition threadTraffic (threadID : string) (e : Event) : Prop :=
  exchangeAt "PATCH" (threadURL threadID) e \/
  exchangeAt "PUT" (threadURL threadID ++ "/subscription") e.

(** Every request among the events is a [GET], or, when mutations are
    applied, addresses the thread of a decision to mute. *)
Definition touchesOnly (apply : bool) (ds : list Core.Decision) (e : Event)
  : Prop :=
  match e with
  | EvDo req =>
      Method req = "GET" \/
      (apply = true /\
       exists d, In d ds /\ Core.Action_ d = Core.ActionMute /\
                 threadTraffic (Core.ID (Core.Notification_ d)) e)
  | _ => True
  end.

(** The text written to standard output, in order. *)
Fixpoint stdoutOf (evs : list Event) : list string :=
  match evs with
  | [] => []
  | EvStdout s :: evs' => s :: stdoutOf evs'
  | _ :: evs' => stdoutOf evs'
  end.

(** One iteration, as seen from outside: the decision, and the error of
    the mutation if one was attempted. *)
Definition Step : Type := (Core.Decision * option (option string))%type.

(** A mutation is attempted exactly for the decisions to mute, when
    mutations are applied. *)
Definition stepOK (apply : bool) (s : Step) : Prop :=
  match snd s with
  | Some _ => apply = true /\ isMute (fst s) = true
  | None => apply && isMute (fst s) = false
  end.

(** The rows an iteration prints. *)
Definition rowsOf (apply : bool) (s : Step) : list string :=
  match snd s with
  | Some mutErr => [Core.FormatMutationRow (fst s) mutErr ++ Core.newline]
  | None =>
      if apply then [] else [Core.FormatDecisionRow (fst s) ++ Core.newline]
  end.

(** The number of failed mutations. *)
Fixpoint failures (steps : list Step) : Z :=
  match steps with
  | [] => 0
  | (_, Some (Some _)) :: steps' => 1 + failures steps'
  | _ :: steps' => failures steps'
  end.

(** A mutation row that reports an error. *)
Definition failed (o : Core.Decision * option string) : bool :=
  match snd o with
  | Some _ => true
  | None => false
  end.

(** The decision is one [Classify] takes for the notification. *)
Definition classified (client : GitHubClient) (cfg : Core.Config)
    (n : Core.Notification) (d : Core.Decision) : Prop :=
  exists reviewers, d = Core.Classify n reviewers (login client) cfg.

(** The number of decisions with a given action. *)
Fixpoint countAction (a : Core.Action) (ds : list Core.Decision) : Z :=
  match ds with
  | [] => 0
  | d :: ds' =>
      (if Core.Action_ d =? a then 1 else 0) + countAction a ds'
  end.

End WithLib.
End BatchSpec.

(** ** Vocabulary: the whole run *)

Module EntrySpec.
Import GitHub.

(** An event that changes nothing on the server: any event but a request
    with a method other than [GET]. *)
Definition readOnly (e : Event) : Prop :=
  match e with
  | EvDo req => Method req = "GET"
  | _ => True
  end.

(** A request that carries the three standard headers, with the given
    token; any event that is not a request. *)
Definition standard (tok : string) (e : Event) : Prop :=
  match e with
  | EvDo req =>
      Get (ReqHeader req) "Accept" = "application/vnd.github+json" /\
      Get (ReqHeader req) "Authorization" = "Bearer " ++ tok /\
      Get (ReqHeader req) "X-GitHub-Api-Version" = "2022-11-28"
  | _ => True
  end.

End EntrySpec.

(** ** Data of the worked scenarios *)

Module Scenarios.
Import GitHub Main Daemon Entry Examples.

(** A notification as the server sends it. *)
Definition wire (n : Core.Notification) : ghNotification :=
  {| ghID := Core.ID n;
     ghReason := Core.Reason n;
     ghSubject_ :=
       {| ghTitle := Core.Title (Core.Subject_ n);
          ghURL := Core.URL (Core.Subject_ n);
          ghType := Core.Type_ (Core.Subject_ n) |};
     ghRepository_ :=
       {| ghFullName := Core.FullName (Core.Repository_ n);
          ghRepoOwner := {| ghLogin := Core.Owner (Core.Repository_ n) |} |} |}.

Definition page (header : list (string * string))
    (ns : list Core.Notification) : Response :=
  {| StatusCode := 200; Header := header;
     RespBody := {| asUser := Err "not an object";
                    asNotifications := Ok (map wire ns);
                    asReviewers := Err "not an object" |} |}.

Definition stamp : string := "Thu, 01 Jan 2026 00:00:00 GMT".

Definition firstPage : Response :=
  page [("Last-Modified", stamp); ("X-Poll-Interval", "120")] [nA; nC].

Definition throttled : Response := reply 429 [("Retry-After", "5")].

Definition userReply (name : string) : Response :=
  {| StatusCode := 200; Header := [];
     RespBody := {| asUser := Ok {| ghAuthLogin := name |};
                    asNotifications := Err "not an array";
                    asReviewers := Err "no users" |} |}.

Definition rShout : Core.Reviewers :=
  {| Core.Users := ["ALICE"; "Me"]; Core.Teams := [] |}.

Definition odd : Core.Decision :=
  {| Core.Notification_ := nC; Core.Action_ := 7; Core.Reason_ := "unknown" |}.

Definition flags0 : Flags :=
  {| flagApply := false; flagVerbose := false; flagDaemon := true;
     flagIncludeOrg := EmptyString; flagExcludeOrg := EmptyString |}.

End Scenarios.

(** * Properties *)

(** ** Arithmetic and list helpers *)

Lemma wrap64_small (z : Z) : inInt64 z -> wrap64 z = z.
Proof.
  unfold inInt64, wrap64, minInt64, maxInt64. intros H.
  rewrite Z.mod_small; lia.
Qed.

Lemma fold_left_snoc_map {A B} (f : A -> B) (l : list A) (acc : list B) :
  fold_left (fun ds a => (ds ++ [f a])%list) l acc = (acc ++ map f l)%list.
Proof.
  revert acc. induction l as [|a l IH]; intros acc; simpl.
  - now rewrite app_nil_r.
  - rewrite IH, <- app_assoc. reflexivity.
Qed.

(** ** Facts about the string functions *)

Module StringsFacts.
Import StringsSpec.

Section WithLib.
Context {lib : GoLib}.

Lemma byte_range (c : ascii) : 0 <= byte c < 256.
Proof.
  unfold byte. pose proof (N_ascii_bounded c). lia.
Qed.

Lemma byte_inj (a b : ascii) : byte a = byte b -> a = b.
Proof.
  unfold byte. intros H. apply N2Z.inj in H.
  rewrite <- (ascii_N_embedding a), <- (ascii_N_embedding b). now f_equal.
Qed.

Lemma Ascii_eqb_byte (a b : ascii) : Ascii.eqb a b = (byte a =? byte b).
Proof.
  destruct (Ascii.eqb_spec a b) as [->|Hne].
  - now rewrite Z.eqb_refl.
  - symmetry. apply Z.eqb_neq. intros H. now apply Hne, byte_inj.
Qed.

Lemma byte_lowerByte (c : ascii) :
  byte (lowerByte c) = if isUpper c then byte c + 32 else byte c.
Proof.
  unfold lowerByte. destruct (isUpper c) eqn:E; [|reflexivity].
  unfold isUpper in E. apply andb_true_iff in E as [H1 H2].
  apply Z.leb_le in H1, H2. unfold byte in *.
  rewrite N_ascii_embedding by lia. lia.
Qed.

(** *** Concatenation, prefixes and splitting *)

Lemma append_assoc (a b c : string) : (a ++ b) ++ c = a ++ (b ++ c).
Proof.
  induction a as [|x a IH]; simpl; [reflexivity | now rewrite IH].
Qed.

Lemma append_nil_r (a : string) : a ++ EmptyString = a.
Proof.
  induction a as [|x a IH]; simpl; [reflexivity | now rewrite IH].
Qed.

Lemma HasPrefix_app (p rest : string) : Strings.HasPrefix (p ++ rest) p = true.
Proof.
  induction p as [|x p IH]; simpl; [reflexivity|].
  now rewrite Ascii.eqb_refl, IH.
Qed.

Lemma HasPrefix_inv (p : string) : forall s,
  Strings.HasPrefix s p = true -> exists rest, s = p ++ rest.
Proof.
  induction p as [|x p IH]; intros s H; simpl in *.
  - now exists s.
  - destruct s as [|c s]; [discriminate|].
    apply andb_true_iff in H as [Hc Hs].
    apply Ascii.eqb_eq in Hc as ->.
    destruct (IH s Hs) as [rest ->]. now exists rest.
Qed.

Lemma dropBytes_app (p rest : string) :
  Strings.dropBytes (String.length p) (p ++ rest) = rest.
Proof.
  induction p as [|x p IH]; simpl; [now destruct rest | exact IH].
Qed.

Lemma TrimPrefix_app (p rest : string) : Strings.TrimPrefix (p ++ rest) p = rest.
Proof.
  unfold Strings.TrimPrefix. now rewrite HasPrefix_app, dropBytes_app.
Qed.

Lemma Split_nonempty (s : string) (sep : ascii) : Strings.Split s sep <> [].
Proof.
  destruct s as [|c s]; simpl; [discriminate|].
  destruct (Ascii.eqb c sep); [discriminate|].
  destruct (Strings.Split s sep); discriminate.
Qed.

Lemma Split_without (sep : ascii) (s : string) :
  without sep s = true -> Strings.Split s sep = [s].
Proof.
  induction s as [|c s IH]; simpl; [reflexivity|].
  intros H. apply andb_true_iff in H as [Hc Hs].
  apply negb_true_iff in Hc. rewrite Hc, (IH Hs). reflexivity.
Qed.

Lemma Split_app (sep : ascii) (a rest : string) :
  without sep a = true ->
  Strings.Split (a ++ String sep rest) sep = a :: Strings.Split rest sep.
Proof.
  induction a as [|c a IH]; simpl.
  - intros _. now rewrite Ascii.eqb_refl.
  - intros H. apply andb_true_iff in H as [Hc Ha].
    apply negb_true_iff in Hc. rewrite Hc, (IH Ha). reflexivity.
Qed.

(** Splitting is inverted by [strings.Join], which is [String.concat]. *)
Lemma Split_join (sep : ascii) (s : string) :
  String.concat (sepString sep) (Strings.Split s sep) = s.
Proof.
  induction s as [|c s IH]; simpl; [reflexivity|].
  pose proof (Split_nonempty s sep) as Hne.
  destruct (Ascii.eqb_spec c sep) as [->|Hc].
  - destruct (Strings.Split s sep) as [|h t]; [contradiction|].
    change (String.concat (sepString sep) (EmptyString :: h :: t))
      with (String sep (String.concat (sepString sep) (h :: t))).
    now rewrite IH.
  - destruct (Strings.Split s sep) as [|h t]; [contradiction|].
    destruct t as [|h' t]; simpl in *; now rewrite <- IH.
Qed.

Lemma Split_parts_without (sep : ascii) (s : string) :
  List.Forall (fun part => without sep part = true) (Strings.Split s sep).
Proof.
  induction s as [|c s IH]; simpl.
  - constructor; [reflexivity | constructor].
  - destruct (Ascii.eqb c sep) eqn:Hc.
    + constructor; [reflexivity | exact IH].
    + destruct (Strings.Split s sep) as [|h t]; inversion IH; subst.
      * constructor; [simpl; now rewrite Hc | constructor].
      * constructor; [simpl; rewrite Hc; assumption | assumption].
Qed.

(** *** Decimal literals *)

Lemma isDigit_range (c : ascii) :
  Strconv.isDigit c = true -> 0 <= byte c - 48 <= 9.
Proof.
  unfold Strconv.isDigit. intros H. apply andb_true_iff in H as [H1 H2].
  apply Z.leb_le in H1, H2. lia.
Qed.

Lemma valueFrom_ge (s : string) : forall acc,
  0 <= acc -> allDigits s = true -> acc <= valueFrom acc s.
Proof.
  induction s as [|c s IH]; intros acc Hacc Hd; simpl in *; [lia|].
  apply andb_true_iff in Hd as [Hc Hs]. apply isDigit_range in Hc.
  specialize (IH (acc * 10 + (byte c - 48)) ltac:(lia) Hs). lia.
Qed.

Lemma parseDigits_spec (s : string) : forall acc n,
  0 <= acc <= maxUint64 ->
  (Strconv.parseDigits s acc = inr n <->
   allDigits s = true /\ valueFrom acc s = n /\ n <= maxUint64).
Proof.
  induction s as [|c s IH]; intros acc n Hacc; simpl.
  - split.
    + intros H. inversion H; subst. repeat split; lia.
    + intros (_ & -> & _). reflexivity.
  - destruct (Strconv.isDigit c) eqn:Hc; simpl.
    + pose proof (isDigit_range c Hc) as Hr.
      destruct (Z.ltb_spec maxUint64 (acc * 10 + (byte c - 48))) as [Hov|Hok].
      * split; [discriminate|]. intros (Hd & Hv & Hn).
        pose proof (valueFrom_ge s (acc * 10 + (byte c - 48)) ltac:(lia) Hd). lia.
      * apply IH. lia.
    + split; [discriminate | intros (H & _); discriminate].
Qed.

Lemma ParseUint_spec (s : string) (n : Z) :
  Strconv.ParseUint s = inr n <->
  s <> EmptyString /\ allDigits s = true /\ decimal s = n /\ n <= maxUint64.
Proof.
  unfold Strconv.ParseUint, decimal. destruct s as [|c s].
  - split; [discriminate | intros (H & _); contradiction].
  - rewrite parseDigits_spec by (unfold maxUint64; lia).
    split; [intros H; split; [discriminate | exact H] | intros (_ & H); exact H].
Qed.

Lemma ParseUint_literal (digits : string) :
  digits <> EmptyString -> allDigits digits = true ->
  decimal digits <= 2 ^ 63 ->
  Strconv.ParseUint digits = inr (decimal digits).
Proof.
  intros Hne Hd Hr. apply ParseUint_spec. repeat split; auto.
  unfold maxUint64. lia.
Qed.

Lemma decimal_nonneg (digits : string) :
  allDigits digits = true -> 0 <= decimal digits.
Proof.
  intros H. apply (valueFrom_ge digits 0); [lia | exact H].
Qed.

Lemma ParseInt_spec (s : string) (n : Z) :
  Strconv.ParseInt s = inr n <-> IntLiteral s n.
Proof.
  unfold Strconv.ParseInt, IntLiteral. destruct s as [|c s].
  { split; [discriminate|].
    intros (sign & digits & Hs & [-> | [-> | ->]] & Hne & _);
      destruct digits; simpl in Hs; congruence. }
  assert (Hlit : forall digits, digits <> EmptyString ->
            allDigits digits = true -> decimal digits <= 2 ^ 63 ->
            forall e, Strconv.ParseUint digits = inl e -> False).
  { intros digits Hne Hd Hr e He.
    rewrite (ParseUint_literal digits Hne Hd Hr) in He. discriminate. }
  cbv zeta.
  destruct (Ascii.eqb_spec c "-") as [->|Hminus].
  - (* a leading minus sign *)
    rewrite orb_true_r. simpl negb.
    destruct (Strconv.ParseUint s) as [e|un] eqn:HU.
    + split; [discriminate|].
      intros (sign & digits & Hs & [-> | [-> | ->]] & Hne & Hd & Hn & Hr);
        simpl in Hs, Hn; try discriminate.
      * subst digits. simpl in Hd. discriminate.
      * inversion Hs; subst digits. pose proof (decimal_nonneg s Hd).
        unfold inInt64, minInt64, maxInt64 in Hr.
        exfalso. apply (Hlit s Hne Hd ltac:(lia) e HU).
    + apply ParseUint_spec in HU as (Hne & Hd & Hv & Hmax).
      pose proof (decimal_nonneg s Hd). simpl andb.
      destruct (Z.ltb_spec (2 ^ 63) un) as [Hov|Hok].
      * split; [discriminate|].
        intros (sign & digits & Hs & [-> | [-> | ->]] & Hne' & Hd' & Hn & Hr);
          simpl in Hs, Hn; try discriminate.
        -- subst digits. simpl in Hd'. discriminate.
        -- inversion Hs; subst digits.
           unfold inInt64, minInt64, maxInt64 in Hr. lia.
      * split.
        -- intros Heq. inversion Heq; subst n. exists "-", s.
           repeat split; auto; simpl; unfold minInt64, maxInt64; try lia.
        -- intros (sign & digits & Hs & [-> | [-> | ->]] & Hne' & Hd' & Hn & Hr);
             simpl in Hs, Hn; try discriminate.
           ++ subst digits. simpl in Hd'. discriminate.
           ++ inversion Hs; subst digits. f_equal. lia.
  - destruct (Ascii.eqb_spec c "+") as [->|Hplus].
    + (* a leading plus sign *)
      rewrite orb_true_l. simpl negb.
      destruct (Strconv.ParseUint s) as [e|un] eqn:HU.
      * split; [discriminate|].
        intros (sign & digits & Hs & [-> | [-> | ->]] & Hne & Hd & Hn & Hr);
          simpl in Hs, Hn; try discriminate.
        -- subst digits. simpl in Hd. discriminate.
        -- inversion Hs; subst digits. pose proof (decimal_nonneg s Hd).
           unfold inInt64, minInt64, maxInt64 in Hr.
           exfalso. apply (Hlit s Hne Hd ltac:(lia) e HU).
      * apply ParseUint_spec in HU as (Hne & Hd & Hv & Hmax).
        pose proof (decimal_nonneg s Hd). simpl andb.
        destruct (Z.leb_spec (2 ^ 63) un) as [Hov|Hok].
        -- split; [discriminate|].
           intros (sign & digits & Hs & [-> | [-> | ->]] & Hne' & Hd' & Hn & Hr);
             simpl in Hs, Hn; try discriminate.
           ++ subst digits. simpl in Hd'. discriminate.
           ++ inversion Hs; subst digits.
              unfold inInt64, minInt64, maxInt64 in Hr. lia.
        -- split.
           ++ intros Heq. inversion Heq; subst n. exists "+", s.
              repeat split; auto; simpl; unfold minInt64, maxInt64; try lia.
           ++ intros (sign & digits & Hs & [-> | [-> | ->]] & Hne' & Hd' & Hn & Hr);
                simpl in Hs, Hn; try discriminate.
              ** subst digits. simpl in Hd'. discriminate.
              ** inversion Hs; subst digits. f_equal. lia.
    + (* no sign *)
      rewrite orb_false_l. simpl negb.
      destruct (Strconv.ParseUint (String c s)) as [e|un] eqn:HU.
      * split; [discriminate|].
        intros (sign & digits & Hs & [-> | [-> | ->]] & Hne & Hd & Hn & Hr);
          simpl in Hs, Hn; try (inversion Hs; subst; contradiction).
        subst digits. pose proof (decimal_nonneg _ Hd).
        unfold inInt64, minInt64, maxInt64 in Hr.
        exfalso. apply (Hlit _ Hne Hd ltac:(lia) e HU).
      * apply ParseUint_spec in HU as (Hne & Hd & Hv & Hmax).
        pose proof (decimal_nonneg _ Hd). simpl andb.
        destruct (Z.leb_spec (2 ^ 63) un) as [Hov|Hok].
        -- split; [discriminate|].
           intros (sign & digits & Hs & [-> | [-> | ->]] & Hne' & Hd' & Hn & Hr);
             simpl in Hs, Hn; try (inversion Hs; subst; contradiction).
           subst digits. unfold inInt64, minInt64, maxInt64 in Hr. lia.
        -- split.
           ++ intros Heq. inversion Heq; subst n. exists EmptyString, (String c s).
              repeat split; auto; simpl; unfold minInt64, maxInt64; try lia.
           ++ intros (sign & digits & Hs & [-> | [-> | ->]] & Hne' & Hd' & Hn & Hr);
                simpl in Hs, Hn; try (inversion Hs; subst; contradiction).
              subst digits. f_equal. lia.
Qed.

(** On ASCII text [EqualFold] is equality of the lower-cased strings. *)
Lemma EqualFold_ascii (s : string) : forall t,
  isASCII s = true -> isASCII t = true ->
  Strings.EqualFold s t = String.eqb (toLower s) (toLower t).
Proof.
  induction s as [|sr s IH]; intros [|tr t] Hs Ht; try reflexivity.
  simpl in Hs, Ht.
  apply andb_true_iff in Hs as [Hsr Hs], Ht as [Htr Ht].
  apply Z.ltb_lt in Hsr, Htr.
  pose proof (byte_range sr). pose proof (byte_range tr).
  cbn [Strings.EqualFold toLower String.eqb].
  rewrite Ascii_eqb_byte, !byte_lowerByte. unfold isUpper.
  rewrite <- (IH t Hs Ht).
  repeat match goal with
         | |- context [?a <=? ?b] => destruct (Z.leb_spec a b)
         | |- context [?a =? ?b] => destruct (Z.eqb_spec a b)
         end; simpl in *; try reflexivity; lia.
Qed.

(** [Atoi] accepts exactly the decimal integer literals. *)
Lemma Atoi_Ok_iff (s : string) (n : Z) :
  Strconv.Atoi s = Ok n <-> IntLiteral s n.
Proof.
  rewrite <- ParseInt_spec. unfold Strconv.Atoi.
  destruct (Strconv.ParseInt s) as [e|m]; split; intros H;
    try discriminate; inversion H; reflexivity.
Qed.

Lemma allDigits_without_slash (s : string) :
  allDigits s = true -> without "/" s = true.
Proof.
  induction s as [|c s IH]; simpl; [reflexivity|].
  intros H. apply andb_true_iff in H as [Hc Hs]. rewrite (IH Hs), andb_true_r.
  apply negb_true_iff, Ascii.eqb_neq. intros ->. discriminate.
Qed.

Lemma IntLiteral_without_slash (s : string) (n : Z) :
  IntLiteral s n -> without "/" s = true.
Proof.
  intros (sign & digits & -> & [-> | [-> | ->]] & _ & Hd & _); simpl;
    now apply allDigits_without_slash.
Qed.

Lemma EqualFold_ascii_iff (s t : string) :
  isASCII s = true -> isASCII t = true ->
  (Strings.EqualFold s t = true <-> toLower s = toLower t).
Proof.
  intros Hs Ht. rewrite EqualFold_ascii by assumption. apply String.eqb_eq.
Qed.

End WithLib.
End StringsFacts.

(** ** The classifier *)

Module CoreFacts.
Import Core CoreSpec.

Section WithLib.
Context {lib : GoLib}.

Lemma anyUserIs_true (users : list string) (login : string) :
  anyUserIs users login = true <->
  exists user, In user users /\ Strings.EqualFold user login = true.
Proof.
  induction users as [|u us IH]; simpl.
  - split; [discriminate | intros (x & [] & _)].
  - destruct (Strings.EqualFold u login) eqn:E.
    + split; [intros _; exists u; auto | reflexivity].
    + rewrite IH. split.
      * intros (x & Hin & Hx). exists x. auto.
      * intros (x & [-> | Hin] & Hx); [congruence | exists x; auto].
Qed.

Lemma anyUserIs_false (users : list string) (login : string) :
  anyUserIs users login = false <->
  forall user, In user users -> Strings.EqualFold user login = false.
Proof.
  split.
  - intros H user Hin. destruct (Strings.EqualFold user login) eqn:E; [|reflexivity].
    assert (anyUserIs users login = true) by (apply anyUserIs_true; eauto).
    congruence.
  - intros H. destruct (anyUserIs users login) eqn:E; [|reflexivity].
    apply anyUserIs_true in E as (x & Hin & Hx). rewrite (H x Hin) in Hx.
    discriminate.
Qed.

Lemma Classify_reviewer_branch n reviewers login cfg :
  MatchesOrgFilter n cfg = true ->
  Reason n = reviewRequested ->
  Type_ (Subject_ n) = pullRequest ->
  Classify n reviewers login cfg = byReviewers n reviewers login.
Proof.
  intros Hf Hr Ht. unfold Classify, byReviewers.
  rewrite Hf, Hr, Ht. reflexivity.
Qed.

Lemma Classify_not_review_request n reviewers login cfg :
  Reason n <> reviewRequested \/ Type_ (Subject_ n) <> pullRequest ->
  Action_ (Classify n reviewers login cfg) = ActionSkip.
Proof.
  intros H. unfold Classify.
  destruct (MatchesOrgFilter n cfg); simpl; [|reflexivity].
  destruct (String.eqb_spec (Reason n) "review_requested") as [Hr|Hr]; simpl;
    [|reflexivity].
  destruct (String.eqb_spec (Type_ (Subject_ n)) "PullRequest") as [Ht|Ht]; simpl;
    [|reflexivity].
  destruct H as [H|H]; contradiction.
Qed.

Lemma Classify_action_range n reviewers login cfg :
  let a := Action_ (Classify n reviewers login cfg) in
  a = ActionSkip \/ a = ActionKeep \/ a = ActionMute.
Proof.
  unfold Classify.
  destruct (MatchesOrgFilter n cfg); simpl; auto.
  destruct (_ || _); simpl; auto.
  destruct reviewers as [r|]; simpl; auto.
  destruct (anyUserIs (Users r) login); simpl; auto.
Qed.

(** C1.  A notification that is not a pull-request review request is
    skipped whatever the reviewer data; one that is, and passes the org
    filter, is skipped without reviewer data, kept when the login
    fold-equals one of the requested users, and muted otherwise, the empty
    reviewer set included. *)
Theorem Classify_cases n reviewers login cfg :
  (Reason n <> reviewRequested \/ Type_ (Subject_ n) <> pullRequest ->
   Action_ (Classify n reviewers login cfg) = ActionSkip) /\
  (MatchesOrgFilter n cfg = true ->
   Reason n = reviewRequested ->
   Type_ (Subject_ n) = pullRequest ->
   (reviewers = None ->
    Action_ (Classify n reviewers login cfg) = ActionSkip) /\
   (forall r, reviewers = Some r -> requestedDirectly login r ->
    Action_ (Classify n reviewers login cfg) = ActionKeep) /\
   (forall r, reviewers = Some r -> ~ requestedDirectly login r ->
    Action_ (Classify n reviewers login cfg) = ActionMute) /\
   Action_ (Classify n (Some {| Users := []; Teams := [] |}) login cfg)
   = ActionMute).
Proof.
  split; [apply Classify_not_review_request|].
  intros Hf Hr Ht. rewrite !Classify_reviewer_branch by assumption.
  repeat split.
  - intros ->. reflexivity.
  - intros r -> Hd. simpl.
    apply anyUserIs_true in Hd. rewrite Hd. reflexivity.
  - intros r -> Hd. simpl.
    destruct (anyUserIs (Users r) login) eqn:E; [|reflexivity].
    apply anyUserIs_true in E. contradiction.
Qed.

Lemma NeedsReviewerLookup_true n cfg :
  NeedsReviewerLookup n cfg = true <->
  MatchesOrgFilter n cfg = true /\ Reason n = reviewRequested /\
  Type_ (Subject_ n) = pullRequest.
Proof.
  unfold NeedsReviewerLookup, reviewRequested, pullRequest.
  destruct (String.eqb_spec (Reason n) "review_requested") as [Hr|Hr]; simpl.
  - destruct (String.eqb_spec (Type_ (Subject_ n)) "PullRequest") as [Ht|Ht];
      simpl; intuition congruence.
  - intuition congruence.
Qed.

(** C2.  The lookup predicate is the conjunction of the org filter, the
    reason test and the kind test; where it is false [Classify] skips for
    every reviewer argument, where it is true [Classify] decides by the
    reviewer data. *)
Theorem NeedsReviewerLookup_spec n cfg :
  (NeedsReviewerLookup n cfg = true <->
   MatchesOrgFilter n cfg = true /\ Reason n = reviewRequested /\
   Type_ (Subject_ n) = pullRequest) /\
  (NeedsReviewerLookup n cfg = false ->
   forall reviewers login,
     Action_ (Classify n reviewers login cfg) = ActionSkip) /\
  (NeedsReviewerLookup n cfg = true ->
   forall reviewers login,
     Classify n reviewers login cfg = byReviewers n reviewers login).
Proof.
  split; [apply NeedsReviewerLookup_true|]. split.
  - intros H reviewers login.
    destruct (MatchesOrgFilter n cfg) eqn:Hf.
    + apply Classify_not_review_request.
      destruct (String.eqb_spec (Reason n) reviewRequested) as [Hr|Hr]; auto.
      destruct (String.eqb_spec (Type_ (Subject_ n)) pullRequest) as [Ht|Ht]; auto.
      assert (NeedsReviewerLookup n cfg = true)
        by (apply NeedsReviewerLookup_true; auto).
      congruence.
    + unfold Classify. rewrite Hf. reflexivity.
  - intros H reviewers login.
    apply NeedsReviewerLookup_true in H as (Hf & Hr & Ht).
    now apply Classify_reviewer_branch.
Qed.

(** C9.  Two reviewer sets with the same user list get the same decision,
    action and justification alike, whatever their team lists. *)
Theorem Classify_ignores_teams n login cfg (r1 r2 : Reviewers) :
  Users r1 = Users r2 ->
  Classify n (Some r1) login cfg = Classify n (Some r2) login cfg.
Proof.
  intros H. unfold Classify. rewrite H. reflexivity.
Qed.

(** *** The batch *)

Lemma ClassifyAll_map ns byURL login cfg :
  ClassifyAll ns byURL login cfg =
  map (fun n => Classify n (lookupReviewers byURL (URL (Subject_ n))) login cfg) ns.
Proof.
  unfold ClassifyAll.
  exact (fold_left_snoc_map
           (fun n => Classify n (lookupReviewers byURL (URL (Subject_ n))) login cfg)
           ns []).
Qed.

Lemma countStep_sum (ds : list Decision) : forall skip keep mute,
  Forall namedAction ds ->
  0 <= skip -> 0 <= keep -> 0 <= mute ->
  skip + keep + mute + Z.of_nat (List.length ds) <= maxInt64 ->
  match fold_left countStep ds (skip, keep, mute) with
  | (skip', keep', mute') =>
      skip' + keep' + mute' = skip + keep + mute + Z.of_nat (List.length ds) /\
      0 <= skip' /\ 0 <= keep' /\ 0 <= mute'
  end.
Proof.
  induction ds as [|d ds IH]; intros skip keep mute Hall Hs Hk Hm Hb.
  - simpl. lia.
  - inversion Hall as [|? ? Hd Hds]; subst.
    change (List.length (d :: ds)) with (S (List.length ds)) in *.
    rewrite Nat2Z.inj_succ in *.
    assert (Hw : forall x, 0 <= x -> x + 1 <= maxInt64 -> wrap64 (x + 1) = x + 1).
    { intros x H0 H1. apply wrap64_small. unfold inInt64, minInt64, maxInt64 in *. lia. }
    cbn [fold_left].
    assert (Hstep : exists a b c,
               countStep (skip, keep, mute) d = (a, b, c) /\
               a + b + c = skip + keep + mute + 1 /\
               0 <= a /\ 0 <= b /\ 0 <= c).
    { unfold countStep.
      destruct Hd as [Hd|[Hd|Hd]]; rewrite Hd; simpl; rewrite Hw by lia;
        do 3 eexists; (split; [reflexivity|lia]). }
    destruct Hstep as (a & b & c & -> & Hsum & Ha & Hb' & Hc).
    specialize (IH a b c Hds Ha Hb' Hc).
    destruct (fold_left countStep ds (a, b, c)) as [[s' k'] m']. lia.
Qed.

(** C7.  [ClassifyAll] yields one decision per notification, in input
    order, and the three counts of [CountByAction] on them add up to the
    number of notifications (a Go slice never has more than [maxInt64]
    elements). *)
Theorem ClassifyAll_partition ns byURL login cfg :
  Z.of_nat (List.length ns) <= maxInt64 ->
  let ds := ClassifyAll ns byURL login cfg in
  List.length ds = List.length ns /\
  map Notification_ ds = ns /\
  (forall i n, ns !! i = Some n ->
     ds !! i =
     Some (Classify n (lookupReviewers byURL (URL (Subject_ n))) login cfg)) /\
  match CountByAction ds with
  | (skip, keep, mute) =>
      skip + keep + mute = Z.of_nat (List.length ns) /\
      0 <= skip /\ 0 <= keep /\ 0 <= mute
  end.
Proof.
  intros Hlen ds. subst ds. rewrite ClassifyAll_map.
  set (f := fun n => Classify n (lookupReviewers byURL (URL (Subject_ n))) login cfg).
  split; [apply length_map|]. split.
  { rewrite map_map. induction ns as [|n ns IH]; simpl; [reflexivity|].
    f_equal; [|apply IH; simpl in Hlen; lia].
    unfold f, Classify.
    destruct (MatchesOrgFilter n cfg); simpl; [|reflexivity].
    destruct (_ || _); simpl; [reflexivity|].
    destruct (lookupReviewers _ _) as [r|]; [|reflexivity].
    destruct (anyUserIs _ _); reflexivity. }
  split.
  { intros i n Hi. rewrite list_lookup_fmap, Hi. reflexivity. }
  unfold CountByAction.
  assert (Hall : Forall namedAction (map f ns)).
  { apply List.Forall_forall. intros d Hd. apply in_map_iff in Hd as (n & <- & _).
    apply Classify_action_range. }
  pose proof (countStep_sum (map f ns) 0 0 0 Hall) as H.
  rewrite length_map in H.
  destruct (fold_left countStep (map f ns) (0, 0, 0)) as [[s k] m].
  lia.
Qed.

(** *** The org filter *)

Lemma nonEmpty_true (s : string) : nonEmpty s = true <-> s <> EmptyString.
Proof.
  destruct s; simpl; split; congruence.
Qed.

Lemma MatchesOrgFilter_true n cfg :
  MatchesOrgFilter n cfg = true <->
  (IncludeOrg cfg <> EmptyString ->
   Strings.EqualFold (Owner (Repository_ n)) (IncludeOrg cfg) = true) /\
  (ExcludeOrg cfg <> EmptyString ->
   Strings.EqualFold (Owner (Repository_ n)) (ExcludeOrg cfg) = false).
Proof.
  unfold MatchesOrgFilter. rewrite <- !nonEmpty_true.
  destruct (nonEmpty (IncludeOrg cfg)), (nonEmpty (ExcludeOrg cfg));
    destruct (Strings.EqualFold _ (IncludeOrg cfg));
    destruct (Strings.EqualFold _ (ExcludeOrg cfg)); simpl;
    intuition congruence.
Qed.

(** C6.  The org filter passes exactly when the owner fold-equals the
    include organisation, if one is set, and does not fold-equal the exclude
    organisation, if one is set; on ASCII names this is equality, resp.
    inequality, of the lower-cased names; a notification that fails the
    filter is skipped as filtered by org, whatever else holds of it. *)
Theorem MatchesOrgFilter_spec n cfg :
  (MatchesOrgFilter n cfg = true <->
   (IncludeOrg cfg <> EmptyString ->
    Strings.EqualFold (Owner (Repository_ n)) (IncludeOrg cfg) = true) /\
   (ExcludeOrg cfg <> EmptyString ->
    Strings.EqualFold (Owner (Repository_ n)) (ExcludeOrg cfg) = false)) /\
  (StringsSpec.isASCII (Owner (Repository_ n)) = true ->
   StringsSpec.isASCII (IncludeOrg cfg) = true ->
   StringsSpec.isASCII (ExcludeOrg cfg) = true ->
   (MatchesOrgFilter n cfg = true <->
    (IncludeOrg cfg <> EmptyString ->
     StringsSpec.toLower (Owner (Repository_ n))
     = StringsSpec.toLower (IncludeOrg cfg)) /\
    (ExcludeOrg cfg <> EmptyString ->
     StringsSpec.toLower (Owner (Repository_ n))
     <> StringsSpec.toLower (ExcludeOrg cfg)))) /\
  (MatchesOrgFilter n cfg = false ->
   forall reviewers login,
     Classify n reviewers login cfg =
     {| Notification_ := n; Action_ := ActionSkip;
        Reason_ := "filtered by org" |}).
Proof.
  split; [apply MatchesOrgFilter_true|]. split.
  - intros Ho Hi He. rewrite MatchesOrgFilter_true.
    pose proof (StringsFacts.EqualFold_ascii_iff _ _ Ho Hi) as Hinc.
    pose proof (StringsFacts.EqualFold_ascii_iff _ _ Ho He) as Hexc.
    destruct (Strings.EqualFold _ (ExcludeOrg cfg)).
    + split.
      * intros [H1 H2]. split; [intros H; apply Hinc, H1, H|].
        intros H. specialize (H2 H). discriminate.
      * intros [H1 H2]. split; [intros H; apply Hinc, H1, H|].
        intros H. exfalso. apply (H2 H). now apply Hexc.
    + split.
      * intros [H1 H2]. split; [intros H; apply Hinc, H1, H|].
        intros _ H. apply Hexc in H. discriminate.
      * intros [H1 H2]. split; [intros H; apply Hinc, H1, H|reflexivity].
  - intros H reviewers login. unfold Classify. rewrite H. reflexivity.
Qed.

(** *** Subject references *)

Lemma Split_three (a b c rest : string) :
  slashFree a -> slashFree b -> slashFree c ->
  Strings.Split (a ++ "/" ++ b ++ "/" ++ c ++ "/" ++ rest) "/" =
  a :: b :: c :: Strings.Split rest "/".
Proof.
  intros Ha Hb Hc. cbn [String.append].
  rewrite (StringsFacts.Split_app "/" a) by exact Ha.
  rewrite (StringsFacts.Split_app "/" b) by exact Hb.
  rewrite (StringsFacts.Split_app "/" c) by exact Hc.
  reflexivity.
Qed.

(** What [ParseSubjectURL] computes on a reference of that shape. *)
Lemma ParseSubjectURL_refURL (kind o r num : string) :
  slashFree kind -> slashFree o -> slashFree r ->
  ParseSubjectURL (refURL kind o r num) =
  match Strings.Split num "/" with
  | [p3] =>
      if negb (String.eqb kind "pulls") then
        Err ("unexpected URL structure: " ++ refURL kind o r num)
      else
        match Strconv.Atoi p3 with
        | Err e =>
            Err ("invalid PR number in URL " ++ refURL kind o r num ++ ": " ++ e)
        | Ok number => Ok {| RefOwner := o; RefRepo := r; Number := number |}
        end
  | _ => Err ("unexpected URL structure: " ++ refURL kind o r num)
  end.
Proof.
  intros Hk Ho Hr. unfold ParseSubjectURL.
  remember (refURL kind o r num) as url eqn:Hurl.
  assert (Hp : Strings.HasPrefix url apiPrefix = true)
    by (subst url; apply StringsFacts.HasPrefix_app).
  assert (Ht : Strings.TrimPrefix url apiPrefix
               = o ++ "/" ++ r ++ "/" ++ kind ++ "/" ++ num)
    by (subst url; apply StringsFacts.TrimPrefix_app).
  rewrite Hp, Ht, Split_three by assumption. simpl negb. cbv iota.
  pose proof (StringsFacts.Split_nonempty num "/") as Hne.
  destruct (Strings.Split num "/") as [|p3 [|p4 rest]]; [contradiction| |];
    reflexivity.
Qed.

Lemma ParseSubjectURL_Ok_inv (url : string) (ref : PRRef) :
  ParseSubjectURL url = Ok ref ->
  exists num,
    url = pullURL (RefOwner ref) (RefRepo ref) num /\
    slashFree (RefOwner ref) /\ slashFree (RefRepo ref) /\ slashFree num /\
    Strconv.Atoi num = Ok (Number ref).
Proof.
  unfold ParseSubjectURL.
  destruct (Strings.HasPrefix url apiPrefix) eqn:Hp; simpl; [|discriminate].
  apply StringsFacts.HasPrefix_inv in Hp as [rest ->].
  rewrite StringsFacts.TrimPrefix_app.
  pose proof (StringsFacts.Split_join "/" rest) as Hj.
  pose proof (StringsFacts.Split_parts_without "/" rest) as Hw.
  revert Hj Hw.
  destruct (Strings.Split rest "/") as [|p0 [|p1 [|p2 [|p3 [|p4 more]]]]];
    intros Hj Hw; try discriminate.
  destruct (String.eqb_spec p2 "pulls") as [->|Hne]; simpl; [|discriminate].
  destruct (Strconv.Atoi p3) as [number|e] eqn:Ha; [|discriminate].
  intros H. inversion H; subst ref; simpl.
  inversion Hw as [|? ? H0 Hw1]; subst.
  inversion Hw1 as [|? ? H1 Hw2]; subst.
  inversion Hw2 as [|? ? H2 Hw3]; subst.
  inversion Hw3 as [|? ? H3 Hw4]; subst.
  exists p3. repeat split; auto.
Qed.

Lemma ParseSubjectURL_pull (o r num : string) (n : Z) :
  slashFree o -> slashFree r -> StringsSpec.IntLiteral num n ->
  ParseSubjectURL (pullURL o r num) =
  Ok {| RefOwner := o; RefRepo := r; Number := n |}.
Proof.
  intros Ho Hr Hn. unfold pullURL.
  rewrite ParseSubjectURL_refURL by (assumption || reflexivity).
  rewrite StringsFacts.Split_without
    by exact (StringsFacts.IntLiteral_without_slash num n Hn).
  apply StringsFacts.Atoi_Ok_iff in Hn. rewrite Hn. reflexivity.
Qed.

Lemma refURL_trailing (kind o r num extra : string) :
  refURL kind o r num ++ "/" ++ extra = refURL kind o r (num ++ "/" ++ extra).
Proof.
  unfold refURL. now rewrite !StringsFacts.append_assoc.
Qed.

(** C3, as the code has it.  [ParseSubjectURL] returns owner, repository
    and number exactly on the references
    [<root>/repos/<owner>/<repo>/pulls/<num>] whose owner and repository
    hold no slash and whose [<num>] is a decimal integer literal, of either
    sign or zero, that fits 64 bits; on every other string it returns an
    error: so on an issues reference, on a reference with trailing segments
    and on a number that is not such a literal. *)
Theorem ParseSubjectURL_shape :
  (forall url ref,
     ParseSubjectURL url = Ok ref <->
     exists num,
       url = pullURL (RefOwner ref) (RefRepo ref) num /\
       slashFree (RefOwner ref) /\ slashFree (RefRepo ref) /\
       StringsSpec.IntLiteral num (Number ref)) /\
  (forall url,
     (forall ref, ParseSubjectURL url <> Ok ref) ->
     exists msg, ParseSubjectURL url = Err msg) /\
  (forall o r num,
     slashFree o -> slashFree r ->
     isOk (ParseSubjectURL (issueURL o r num)) = false) /\
  (forall url ref extra,
     ParseSubjectURL url = Ok ref ->
     isOk (ParseSubjectURL (url ++ "/" ++ extra)) = false) /\
  (forall o r num,
     slashFree o -> slashFree r ->
     (forall n, ~ StringsSpec.IntLiteral num n) ->
     isOk (ParseSubjectURL (pullURL o r num)) = false).
Proof.
  split; [|split; [|split; [|split]]].
  - intros url ref. split.
    + intros H.
      apply ParseSubjectURL_Ok_inv in H as (num & Hu & Ho & Hr & _ & Ha).
      exists num. repeat split; auto. now apply StringsFacts.Atoi_Ok_iff.
    + intros (num & -> & Ho & Hr & Hn).
      rewrite (ParseSubjectURL_pull _ _ _ _ Ho Hr Hn). now destruct ref.
  - intros url H. destruct (ParseSubjectURL url) as [ref|msg] eqn:E.
    + now destruct (H ref).
    + now exists msg.
  - intros o r num Ho Hr. unfold issueURL.
    rewrite ParseSubjectURL_refURL by (assumption || reflexivity).
    destruct (Strings.Split num "/") as [|p3 [|p4 rest]]; reflexivity.
  - intros url ref extra H.
    apply ParseSubjectURL_Ok_inv in H as (num & -> & Ho & Hr & Hn & _).
    unfold pullURL. rewrite refURL_trailing.
    rewrite ParseSubjectURL_refURL by (assumption || reflexivity).
    change (num ++ "/" ++ extra) with (num ++ String "/"%char extra).
    rewrite StringsFacts.Split_app by exact Hn.
    pose proof (StringsFacts.Split_nonempty extra "/") as Hne.
    destruct (Strings.Split extra "/"); [contradiction | reflexivity].
  - intros o r num Ho Hr Hn. unfold pullURL.
    rewrite ParseSubjectURL_refURL by (assumption || reflexivity).
    pose proof (StringsFacts.Split_join "/" num) as Hj.
    revert Hj.
    destruct (Strings.Split num "/") as [|p3 [|p4 rest]]; intros Hj;
      try reflexivity.
    simpl in Hj. subst p3. simpl.
    destruct (Strconv.Atoi num) as [n|e] eqn:Ha; [|reflexivity].
    apply StringsFacts.Atoi_Ok_iff in Ha. now destruct (Hn n).
Qed.

End WithLib.
End CoreFacts.

(** ** The client *)

Module GitHubFacts.
Import GitHub GitHubSpec.

Section WithLib.
Context {lib : GoLib}.

(** *** The page loop returns *)

Lemma listPage_consumes c lastModified page all result w res all' w' :
  listPage c lastModified page all result w = ((res, PageNext all'), w') ->
  (List.length (replies w') < List.length (replies w))%nat.
Proof.
  unfold listPage.
  destruct (NewRequest "GET" _ EmptyString) as [req|e]; [|discriminate].
  unfold bind, ret, httpDo, Sleep, emit.
  destruct w as [rs tr]. cbn [replies trace].
  destruct rs as [|[resp|e] rest]; try discriminate.
  destruct (isRateLimited resp).
  - destruct rest as [|[resp2|e2] rest2]; try discriminate.
    intros H. inversion H; subst. cbn. lia.
  - intros H. inversion H; subst. cbn. lia.
Qed.

Lemma listLoop_returns (fuel : nat) : forall c lastModified page all result w,
  (List.length (replies w) < fuel)%nat ->
  exists r w', listLoop fuel c lastModified page all result w = (Some r, w').
Proof.
  induction fuel as [|fuel IH]; intros c lastModified page all result w Hfuel;
    [lia|].
  cbn [listLoop]. unfold bind at 1.
  destruct (listPage c lastModified page all result w) as [[res o] w1] eqn:Hp.
  destruct o as [r| |all'].
  - eexists _, _. reflexivity.
  - eexists _, _. reflexivity.
  - apply listPage_consumes in Hp. apply IH. lia.
Qed.

(** Over a finite script [ListUnreadNotifications] returns. *)
Lemma ListUnreadNotifications_returns c lastModified w :
  exists r w', ListUnreadNotifications c lastModified w = (Some r, w').
Proof.
  unfold ListUnreadNotifications. apply listLoop_returns. lia.
Qed.

(** *** What a computation adds to the trace *)

Lemma emits_ret {A} Q (a : A) : emits Q (ret a).
Proof.
  intros w. exists []. split; [now rewrite app_nil_r | constructor].
Qed.

Lemma emits_bind {A B} Q (c : M A) (k : A -> M B) :
  emits Q c -> (forall a, emits Q (k a)) -> emits Q (bind c k).
Proof.
  intros Hc Hk w. unfold bind.
  destruct (Hc w) as (evs1 & E1 & F1).
  destruct (c w) as [a w1]. simpl in E1.
  destruct (Hk a w1) as (evs2 & E2 & F2).
  exists (evs1 ++ evs2)%list. split.
  - now rewrite E2, E1, app_assoc.
  - apply List.Forall_app. now split.
Qed.

Lemma emits_emit Q (e : Event) : Q e -> emits Q (emit e).
Proof.
  intros H w. exists [e]. split; [reflexivity | now repeat constructor].
Qed.

Lemma emits_when Q (b : bool) (c : M unit) : emits Q c -> emits Q (when b c).
Proof.
  intros H. destruct b; [exact H | apply emits_ret].
Qed.

Lemma emits_httpDo Q (req : Request) : Q (EvDo req) -> emits Q (httpDo req).
Proof.
  intros H w. exists [EvDo req]. split; [|now repeat constructor].
  unfold httpDo. now destruct (replies w).
Qed.

Lemma emits_weaken {A} (Q Q' : Event -> Prop) (c : M A) :
  (forall e, Q e -> Q' e) -> emits Q c -> emits Q' c.
Proof.
  intros Himp H w. destruct (H w) as (evs & E & F).
  exists evs. split; [exact E|]. eapply List.Forall_impl; eauto.
Qed.

Lemma emits_doAttempt c attempt method url body :
  emits (exchange method) (doAttempt c attempt method url body).
Proof.
  unfold doAttempt, NewRequest.
  destruct (urlError url); [apply emits_ret|].
  apply emits_bind; [now apply emits_httpDo|].
  intros [resp|e]; [|apply emits_ret].
  destruct (_ && _); [|apply emits_ret].
  apply emits_bind; [now apply emits_emit | intros; apply emits_ret].
Qed.

Lemma emits_do c method url body : emits (exchange method) (do c method url body).
Proof.
  unfold do. apply emits_bind; [apply emits_doAttempt|].
  intros [_|res]; [|apply emits_ret].
  apply emits_bind; [apply emits_doAttempt|].
  intros [_|res]; apply emits_ret.
Qed.

Lemma emits_MarkThreadRead c threadID :
  emits (exchange "PATCH") (MarkThreadRead c threadID).
Proof.
  unfold MarkThreadRead. apply emits_bind; [apply emits_do|].
  intros [resp|e]; [|apply emits_ret].
  destruct (_ && _); apply emits_ret.
Qed.

Lemma emits_IgnoreThread c threadID :
  emits (exchange "PUT") (IgnoreThread c threadID).
Proof.
  unfold IgnoreThread. apply emits_bind; [apply emits_do|].
  intros [resp|e]; [|apply emits_ret].
  destruct (_ && _); apply emits_ret.
Qed.

Lemma emits_GetRequestedReviewers c subjectURL :
  emits (exchange "GET") (GetRequestedReviewers c subjectURL).
Proof.
  unfold GetRequestedReviewers.
  destruct (Core.ParseSubjectURL subjectURL) as [ref|e]; [|apply emits_ret].
  apply emits_bind; [apply emits_do|].
  intros [resp|e]; [|apply emits_ret].
  destruct (negb _); [apply emits_ret|].
  destruct (asReviewers _); apply emits_ret.
Qed.

(** *** Throttling *)

(** A reply that is not throttled is returned at once. *)
Lemma do_immediate c method url body resp rest tr :
  urlError url = None ->
  isRateLimited resp = false ->
  do c method url body {| replies := Ok resp :: rest; trace := tr |} =
  (Ok resp,
   {| replies := rest;
      trace := (tr ++ [EvDo (request c method url body)])%list |}).
Proof.
  intros Hu Hr. unfold do, doAttempt, NewRequest, bind, ret, httpDo.
  rewrite Hu. cbn. rewrite Hr. reflexivity.
Qed.

(** A throttled reply is followed by one pause and one more attempt, whose
    reply is returned whatever it is; the second request is built from the
    reader the first one has drained. *)
Lemma do_throttled c method url body resp reply rest tr :
  urlError url = None ->
  isRateLimited resp = true ->
  do c method url body {| replies := Ok resp :: reply :: rest; trace := tr |} =
  (reply,
   {| replies := rest;
      trace := (tr ++ [EvDo (request c method url body);
                       EvSleep (parseRetryAfter resp);
                       EvDo (request c method url EmptyString)])%list |}).
Proof.
  intros Hu Hr.
  unfold do, doAttempt, NewRequest, bind, ret, httpDo, Sleep, emit.
  rewrite Hu. cbn. rewrite Hr. cbn. rewrite <- !app_assoc. cbn.
  destruct reply; reflexivity.
Qed.

(** X21.  The pause: sixty seconds without a usable hint, the hinted
    number of seconds when it is a decimal literal small enough for the
    product with [time.Second] to fit 64 bits. *)
Lemma parseRetryAfter_spec resp :
  let hint := Get (Header resp) "Retry-After" in
  (hint = EmptyString \/ (forall n, ~ StringsSpec.IntLiteral hint n) ->
   parseRetryAfter resp = 60 * Second) /\
  (forall secs,
     StringsSpec.IntLiteral hint secs ->
     - 9223372036 <= secs <= 9223372036 ->
     parseRetryAfter resp = secs * Second).
Proof.
  intros hint. unfold parseRetryAfter. fold hint. split.
  - intros [->|H]; [reflexivity|].
    destruct (Core.nonEmpty hint); [|reflexivity]. simpl.
    destruct (Strconv.Atoi hint) as [secs|e] eqn:Ha; [|reflexivity].
    apply StringsFacts.Atoi_Ok_iff in Ha. now destruct (H secs).
  - intros secs Hlit Hr.
    assert (Hne : Core.nonEmpty hint = true).
    { destruct Hlit as (sign & digits & Hs & _ & Hd & _).
      destruct hint; [|reflexivity].
      destruct sign, digits; simpl in Hs; congruence. }
    rewrite Hne. simpl.
    apply StringsFacts.Atoi_Ok_iff in Hlit. rewrite Hlit.
    apply wrap64_small. unfold inInt64, minInt64, maxInt64, Second. lia.
Qed.

End WithLib.
End GitHubFacts.

(** ** The cycle *)

Module MainFacts.
Import GitHub Main GitHubSpec GitHubFacts MainSpec.

Section WithLib.
Context {lib : GoLib}.

Lemma lookupsOf_app (tr1 tr2 : list Event) :
  lookupsOf (tr1 ++ tr2) = (lookupsOf tr1 ++ lookupsOf tr2)%list.
Proof.
  induction tr1 as [|e tr1 IH]; simpl; [reflexivity|].
  destruct e; simpl; now rewrite ?IH.
Qed.

Lemma lookupsOf_silent (evs : list Event) :
  List.Forall silent evs -> lookupsOf evs = [].
Proof.
  induction 1 as [|e evs He _ IH]; simpl; [reflexivity|].
  destruct e; simpl in *; now try contradiction.
Qed.

Lemma exchange_silent (method : string) (e : Event) :
  exchange method e -> silent e.
Proof.
  destruct e; simpl; auto.
Qed.

Lemma noRefetch_snoc (L : list (string * bool)) (url : string) (ok : bool) :
  noRefetch L -> ~ In (url, true) L -> noRefetch (L ++ [(url, ok)]).
Proof.
  induction L as [|[v okv] L IH]; simpl; intros HL Hnot.
  - split; [intros _ ok' [] | exact I].
  - destruct HL as [Hhead HL]. split.
    + intros -> ok' Hin. apply in_app_or in Hin as [Hin|[Heq|[]]].
      * exact (Hhead eq_refl ok' Hin).
      * inversion Heq; subst. apply Hnot. now left.
    + apply IH; [exact HL | intros Hin; apply Hnot; now right].
Qed.

Lemma noRefetch_split (L1 : list (string * bool)) : forall L url L2 ok,
  noRefetch L -> L = (L1 ++ (url, true) :: L2)%list -> ~ In (url, ok) L2.
Proof.
  induction L1 as [|x L1 IH]; intros L url L2 ok HL ->; simpl in HL.
  - destruct HL as [Hhead _]. now apply Hhead.
  - destruct x as [v okv]. destruct HL as [_ HL]. now apply (IH _ _ _ _ HL).
Qed.

Lemma Classify_notification n reviewers login cfg :
  Core.Notification_ (Core.Classify n reviewers login cfg) = n.
Proof.
  unfold Core.Classify.
  destruct (Core.MatchesOrgFilter n cfg); simpl; [|reflexivity].
  destruct (_ || _); simpl; [reflexivity|].
  destruct reviewers as [r|]; [|reflexivity].
  destruct (Core.anyUserIs _ _); reflexivity.
Qed.

(** *** Reviewer lookups *)

(** What [fetchIfNeeded] does, by cases: one lookup, stored when it
    succeeds, or nothing at all. *)
Lemma fetchIfNeeded_cases client cfg verbose byURL n w :
  let url := Core.URL (Core.Subject_ n) in
  let r := fetchIfNeeded client cfg verbose byURL n w in
  (Core.NeedsReviewerLookup n cfg = true /\ byURL !! url = None /\
   exists ok,
     lookupsOf (trace (snd r)) = (lookupsOf (trace w) ++ [(url, ok)])%list /\
     if ok then exists reviewers, fst r = <[url := Some reviewers]> byURL
     else fst r = byURL) \/
  ((Core.NeedsReviewerLookup n cfg = false \/ byURL !! url <> None) /\
   lookupsOf (trace (snd r)) = lookupsOf (trace w) /\ fst r = byURL).
Proof.
  intros url r. subst r. unfold fetchIfNeeded. fold url.
  destruct (Core.NeedsReviewerLookup n cfg) eqn:Hneed;
    [|right; repeat split; auto].
  destruct (byURL !! url) as [v|] eqn:Hv;
    [right; repeat split; auto; right; discriminate|].
  left. repeat split; auto.
  unfold bind, emit, ret.
  destruct (emits_GetRequestedReviewers client url w) as (evs & E & F).
  destruct (GetRequestedReviewers client url w) as [res w1]. simpl in E.
  assert (Hs : lookupsOf (trace w1) = lookupsOf (trace w)).
  { rewrite E, lookupsOf_app, (lookupsOf_silent evs), app_nil_r; [reflexivity|].
    eapply List.Forall_impl; [|exact F]. apply exchange_silent. }
  exists (isOk res).
  destruct res as [reviewers|e]; cbn [isOk].
  - cbn. split; [|now exists reviewers].
    now rewrite lookupsOf_app, Hs.
  - destruct verbose; cbn; split; auto;
      rewrite !lookupsOf_app, Hs; cbn;
      now rewrite ?app_nil_r.
Qed.

Lemma emits_mutate client threadID :
  emits (fun e => exchange "PATCH" e \/ exchange "PUT" e) (mutate client threadID).
Proof.
  unfold mutate. apply emits_bind.
  - eapply emits_weaken; [|apply emits_MarkThreadRead]. auto.
  - intros [e|]; [apply emits_ret|].
    eapply emits_weaken; [|apply emits_IgnoreThread]. auto.
Qed.

Lemma silent_trace {A} (c : M A) (w : World) :
  emits silent c -> lookupsOf (trace (snd (c w))) = lookupsOf (trace w).
Proof.
  intros H. destruct (H w) as (evs & E & F).
  now rewrite E, lookupsOf_app, (lookupsOf_silent evs F), app_nil_r.
Qed.

(** After the fetch, an iteration performs no lookup and leaves the cache
    alone. *)
Lemma processOne_after_fetch client cfg apply verbose st n w :
  let f := fetchIfNeeded client cfg verbose (reviewersByURL st) n w in
  let r := processOne client cfg apply verbose st n w in
  reviewersByURL (fst r) = fst f /\
  lookupsOf (trace (snd r)) = lookupsOf (trace (snd f)).
Proof.
  intros f r. subst f r. unfold processOne, bind, Println, emit, ret.
  destruct (fetchIfNeeded client cfg verbose (reviewersByURL st) n w)
    as [byURL w0].
  cbn [fst snd].
  set (d := Core.Classify n _ (login client) cfg).
  destruct (apply && (Core.Action_ d =? Core.ActionMute)).
  - pose proof (silent_trace (mutate client (Core.ID (Core.Notification_ d))) w0)
      as Hm.
    destruct (mutate client (Core.ID (Core.Notification_ d)) w0) as [mutErr w1].
    cbn in *. rewrite lookupsOf_app. cbn. rewrite app_nil_r.
    split; [reflexivity|]. apply Hm.
    eapply emits_weaken; [|apply emits_mutate].
    intros e [H|H]; eapply exchange_silent; exact H.
  - destruct (negb apply); cbn; [|auto].
    rewrite lookupsOf_app. cbn. now rewrite app_nil_r.
Qed.

Lemma processOne_lookups client cfg apply verbose st n w L0 :
  cacheInv L0 (reviewersByURL st) ->
  let r := processOne client cfg apply verbose st n w in
  exists L,
    lookupsOf (trace (snd r)) = (lookupsOf (trace w) ++ L)%list /\
    cacheInv (L0 ++ L) (reviewersByURL (fst r)) /\
    (List.length L <= 1)%nat /\
    (forall url ok, In (url, ok) L ->
       url = Core.URL (Core.Subject_ n) /\ Core.NeedsReviewerLookup n cfg = true).
Proof.
  intros [Hno Hcache] r. subst r.
  destruct (processOne_after_fetch client cfg apply verbose st n w) as [Hm Hl].
  rewrite Hm, Hl. clear Hm Hl.
  destruct (fetchIfNeeded_cases client cfg verbose (reviewersByURL st) n w)
    as [(Hneed & Hnone & ok & Htr & Hres) | (_ & Htr & Hres)].
  - exists [(Core.URL (Core.Subject_ n), ok)]. rewrite Htr.
    assert (Hfresh : ~ In (Core.URL (Core.Subject_ n), true) L0).
    { intros Hin. apply Hcache in Hin. contradiction. }
    split; [reflexivity|]. split; [|split; [simpl; lia|]].
    + split; [now apply noRefetch_snoc|].
      intros url. rewrite in_app_iff. simpl.
      destruct ok.
      * destruct Hres as [reviewers ->].
        destruct (decide (url = Core.URL (Core.Subject_ n))) as [->|Hne].
        -- rewrite lookup_insert_eq. split; [discriminate | auto].
        -- rewrite lookup_insert_ne by congruence. rewrite <- Hcache.
           split; [intros [H|[H|[]]]; [exact H | congruence] | auto].
      * rewrite Hres, <- Hcache.
        split; [intros [H|[H|[]]]; [exact H | congruence] | auto].
    + intros url ok' [Heq|[]]. inversion Heq; subst. auto.
  - exists []. rewrite Htr, Hres, !app_nil_r.
    split; [reflexivity|]. split; [now split|].
    split; [simpl; lia | intros ? ? []].
Qed.

Lemma processLoop_lookups client cfg apply verbose ns : forall st w L0,
  cacheInv L0 (reviewersByURL st) ->
  let r := processLoop client cfg apply verbose ns st w in
  exists L,
    lookupsOf (trace (snd r)) = (lookupsOf (trace w) ++ L)%list /\
    cacheInv (L0 ++ L) (reviewersByURL (fst r)) /\
    (List.length L <= List.length ns)%nat /\
    (forall url ok, In (url, ok) L ->
       exists n, In n ns /\ Core.URL (Core.Subject_ n) = url /\
                 Core.NeedsReviewerLookup n cfg = true).
Proof.
  induction ns as [|n ns IH]; intros st w L0 Hinv r; subst r.
  - exists []. cbn. rewrite !app_nil_r.
    split; [reflexivity|]. split; [exact Hinv|].
    split; [lia | intros ? ? []].
  - cbn [processLoop]. unfold bind.
    destruct (processOne_lookups client cfg apply verbose st n w L0 Hinv)
      as (L1 & Htr1 & Hinv1 & Hlen1 & Hsrc1).
    destruct (processOne client cfg apply verbose st n w) as [st1 w1].
    cbn [fst snd] in *.
    destruct (IH st1 w1 (L0 ++ L1)%list Hinv1) as (L2 & Htr2 & Hinv2 & Hlen2 & Hsrc2).
    exists (L1 ++ L2)%list. rewrite Htr2, Htr1, !app_assoc.
    split; [reflexivity|]. split; [exact Hinv2|]. split.
    + rewrite length_app. simpl. lia.
    + intros url ok Hin. apply in_app_or in Hin as [Hin|Hin].
      * destruct (Hsrc1 url ok Hin) as [-> Hneed]. exists n. simpl. auto.
      * destruct (Hsrc2 url ok Hin) as (m & Hm & Hu & Hneed).
        exists m. simpl. auto.
Qed.

Lemma processLoop_lookupsFor client cfg apply verbose ns : forall st w,
  exists L,
    lookupsOf (trace (snd (processLoop client cfg apply verbose ns st w)))
    = (lookupsOf (trace w) ++ L)%list /\
    lookupsFor cfg (dom (reviewersByURL st)) ns L.
Proof.
  induction ns as [|n ns IH]; intros st w.
  - exists []. cbn. now rewrite app_nil_r.
  - cbn [processLoop lookupsFor]. unfold bind.
    destruct (processOne_after_fetch client cfg apply verbose st n w) as [Hm Hl].
    destruct (fetchIfNeeded_cases client cfg verbose (reviewersByURL st) n w)
      as [(Hneed & Hnone & ok & Htr & Hres) | (Hskip & Htr & Hres)].
    + destruct (processOne client cfg apply verbose st n w) as [st1 w1].
      cbn [fst snd] in *.
      destruct (IH st1 w1) as (L2 & Htr2 & Hfor2).
      exists ((Core.URL (Core.Subject_ n), ok) :: L2).
      split; [rewrite Htr2, Hl, Htr, <- app_assoc; reflexivity|].
      rewrite Hneed. cbn [andb].
      rewrite bool_decide_eq_false_2 by (now apply not_elem_of_dom).
      cbn [negb]. exists ok, L2. split; [reflexivity|].
      rewrite Hm in Hfor2. destruct ok.
      * destruct Hres as [reviewers Hres]. rewrite Hres, dom_insert_L in Hfor2.
        exact Hfor2.
      * rewrite Hres in Hfor2. exact Hfor2.
    + destruct (processOne client cfg apply verbose st n w) as [st1 w1].
      cbn [fst snd] in *.
      destruct (IH st1 w1) as (L2 & Htr2 & Hfor2).
      exists L2. split; [rewrite Htr2, Hl, Htr; reflexivity|].
      rewrite Hm, Hres in Hfor2.
      destruct Hskip as [Hno|Hhit].
      * rewrite Hno. exact Hfor2.
      * rewrite bool_decide_eq_true_2, andb_false_r; [exact Hfor2|].
        apply elem_of_dom. destruct (reviewersByURL st !! _); [eauto|congruence].
Qed.

(** A reference that is not resolved, and that no lookup resolves, is
    looked up once for every notification that needs it. *)
Lemma lookupsFor_unresolved cfg url ns : forall resolved L,
  lookupsFor cfg resolved ns L ->
  url ∉ resolved -> ~ In (url, true) L ->
  lookupsAt url L = needingAt cfg url ns.
Proof.
  unfold lookupsAt, needingAt.
  induction ns as [|n ns IH]; intros resolved L Hfor Hfresh Hnever;
    cbn [lookupsFor] in Hfor.
  - subst L. reflexivity.
  - cbn [List.filter].
    destruct (Core.NeedsReviewerLookup n cfg) eqn:Hneed; cbn [andb] in *.
    + destruct (String.eqb_spec (Core.URL (Core.Subject_ n)) url) as [Hu|Hu].
      * rewrite Hu in Hfor.
        rewrite bool_decide_eq_false_2 in Hfor by exact Hfresh.
        cbn [negb] in Hfor. destruct Hfor as (ok & L' & -> & Hfor).
        destruct ok; [exfalso; apply Hnever; now left|].
        cbn [List.filter fst]. rewrite String.eqb_refl. cbn [List.length].
        f_equal. apply (IH resolved L' Hfor Hfresh).
        intros Hin. apply Hnever. now right.
      * destruct (bool_decide (Core.URL (Core.Subject_ n) ∈ resolved));
          cbn [negb] in Hfor.
        -- apply (IH resolved L Hfor Hfresh Hnever).
        -- destruct Hfor as (ok & L' & -> & Hfor).
           cbn [List.filter fst].
           destruct (String.eqb_spec (Core.URL (Core.Subject_ n)) url)
             as [Hu'|_]; [contradiction|].
           apply (IH _ L' Hfor).
           ++ destruct ok; [|exact Hfresh].
              intros Hin. apply elem_of_union in Hin as [Hin|Hin];
                [|contradiction].
              apply elem_of_singleton in Hin. congruence.
           ++ intros Hin. apply Hnever. now right.
    + apply (IH resolved L Hfor Hfresh Hnever).
Qed.

(** C4, as the code has it.  In one run of [processNotifications] a
    reference whose lookup has succeeded is not looked up again, however
    many notifications share it.  A failed lookup is not remembered: the
    lookups are exactly those of [lookupsFor], one for every notification
    that needs reviewer data and whose reference no earlier lookup has
    resolved, so a reference whose lookups all fail is looked up once per
    notification that needs it.  Every lookup is made for a notification
    that needs one, and there are no more lookups than notifications. *)
Theorem lookup_once_resolved client cfg ns apply verbose w :
  exists L,
    lookupsOf (trace (snd (processNotifications client cfg ns apply verbose w)))
    = (lookupsOf (trace w) ++ L)%list /\
    (forall L1 url L2 ok,
       L = (L1 ++ (url, true) :: L2)%list -> ~ In (url, ok) L2) /\
    lookupsFor cfg ∅ ns L /\
    (forall url, ~ In (url, true) L ->
       lookupsAt url L = needingAt cfg url ns) /\
    (forall url ok, In (url, ok) L ->
       exists n, In n ns /\ Core.URL (Core.Subject_ n) = url /\
                 Core.NeedsReviewerLookup n cfg = true) /\
    (List.length L <= List.length ns)%nat.
Proof.
  assert (Hinit : cacheInv [] (reviewersByURL initState)).
  { split; [exact I|]. intros url. cbn. rewrite lookup_empty.
    split; [intros [] | congruence]. }
  destruct (processLoop_lookups client cfg apply verbose ns initState w [] Hinit)
    as (L & Htr & [Hno _] & Hlen & Hsrc).
  destruct (processLoop_lookupsFor client cfg apply verbose ns initState w)
    as (L' & Htr' & Hfor).
  assert (HL : L' = L).
  { cbn [fst snd] in Htr. rewrite Htr in Htr'.
    symmetry. exact (app_inv_head _ _ _ Htr'). }
  subst L'. cbn [initState reviewersByURL] in Hfor. rewrite dom_empty_L in Hfor.
  exists L. unfold processNotifications, bind, ret.
  destruct (processLoop client cfg apply verbose ns initState w) as [st w'].
  cbn [fst snd] in *.
  split; [exact Htr|]. split.
  { intros L1 url L2 ok HL. eapply noRefetch_split; eauto. }
  split; [exact Hfor|]. split.
  { intros url Hnever.
    apply (lookupsFor_unresolved cfg url ns ∅ L Hfor); [|exact Hnever].
    apply not_elem_of_empty. }
  split; [exact Hsrc | exact Hlen].
Qed.

(** *** Mutations *)

Lemma emits_fetchIfNeeded client cfg verbose byURL n :
  emits noPut (fetchIfNeeded client cfg verbose byURL n).
Proof.
  unfold fetchIfNeeded.
  destruct (Core.NeedsReviewerLookup n cfg); [|apply emits_ret].
  destruct (byURL !! _); [apply emits_ret|].
  apply emits_bind.
  - eapply emits_weaken; [|apply emits_GetRequestedReviewers].
    intros [req| | | | |]; simpl; auto. intros ->. discriminate.
  - intros r. apply emits_bind; [now apply emits_emit|]. intros _.
    destruct r as [reviewers|e]; [apply emits_ret|].
    apply emits_bind; [|intros; apply emits_ret].
    apply emits_when. now apply emits_emit.
Qed.

Lemma requests_noPut (tr evs : list Event) (req : Request) :
  List.Forall noPut evs -> In (EvDo req) (tr ++ evs) ->
  In (EvDo req) tr \/ Method req <> "PUT".
Proof.
  intros F Hin. apply in_app_or in Hin as [Hin|Hin]; [now left|].
  right. rewrite List.Forall_forall in F. exact (F _ Hin).
Qed.

(** C10.  With the mutate flag set and a decision to mute, the iteration
    marks the thread read first.  If that fails, the iteration ends there:
    the row is printed on the world mark-as-read left, no [PUT] request was
    issued, and the error count grows by one.  If it succeeds, the thread
    is ignored next, and the error count grows by one exactly when that
    fails. *)
Theorem mute_only_after_read client cfg verbose st n w :
  let fetched := fetchIfNeeded client cfg verbose (reviewersByURL st) n w in
  let d :=
    Core.Classify n
      (Core.lookupReviewers (fst fetched) (Core.URL (Core.Subject_ n)))
      (login client) cfg in
  let read := MarkThreadRead client (Core.ID n) (snd fetched) in
  let done := processOne client cfg true verbose st n w in
  Core.Action_ d = Core.ActionMute ->
  0 <= errCount st < maxInt64 ->
  match fst read with
  | Some e =>
      done =
      ({| reviewersByURL := fst fetched;
          decisions := (decisions st ++ [d])%list;
          errCount := errCount st + 1 |},
       snd (Println (Core.FormatMutationRow d (Some e)) (snd read))) /\
      (forall req, In (EvDo req) (trace (snd done)) ->
                   In (EvDo req) (trace w) \/ Method req <> "PUT")
  | None =>
      let ignored := IgnoreThread client (Core.ID n) (snd read) in
      done =
      ({| reviewersByURL := fst fetched;
          decisions := (decisions st ++ [d])%list;
          errCount :=
            errCount st + match fst ignored with Some _ => 1 | None => 0 end |},
       snd (Println (Core.FormatMutationRow d (fst ignored)) (snd ignored)))
  end.
Proof.
  intros fetched d read done Hmute Hcount.
  assert (Hw : wrap64 (errCount st + 1) = errCount st + 1).
  { apply wrap64_small. unfold inInt64, minInt64, maxInt64 in *. lia. }
  pose proof (emits_fetchIfNeeded client cfg verbose (reviewersByURL st) n w)
    as (evs0 & E0 & F0).
  pose proof (emits_MarkThreadRead client (Core.ID n) (snd fetched))
    as (evs1 & E1 & F1).
  fold fetched in E0. fold read in E1.
  assert (Hdone : done =
    (let m := mutate client (Core.ID n) (snd fetched) in
     ({| reviewersByURL := fst fetched;
         decisions := (decisions st ++ [d])%list;
         errCount := match fst m with
                     | Some _ => wrap64 (errCount st + 1)
                     | None => errCount st
                     end |},
      snd (Println (Core.FormatMutationRow d (fst m)) (snd m))))).
  { subst done. unfold processOne, bind.
    subst d read. revert Hmute. subst fetched.
    destruct (fetchIfNeeded client cfg verbose (reviewersByURL st) n w)
      as [byURL w0].
    cbn [fst snd]. intros Hmute. rewrite Hmute, Classify_notification.
    rewrite Z.eqb_refl. cbn [andb].
    destruct (mutate client (Core.ID n) w0) as [mutErr w1]. reflexivity. }
  rewrite Hdone. unfold mutate, bind. fold read.
  destruct read as [[e|] w1] eqn:Hread; cbn [fst snd] in *.
  - rewrite Hw. split; [reflexivity|].
    intros req Hin. unfold Println, emit in Hin. cbn in Hin.
    rewrite E1, E0, <- !app_assoc in Hin.
    eapply requests_noPut; [|exact Hin].
    apply List.Forall_app. split; [exact F0|].
    apply List.Forall_app. split; [|repeat constructor].
    eapply List.Forall_impl; [|exact F1].
    intros [r| | | | |]; simpl; auto. intros ->. discriminate.
  - destruct (IgnoreThread client (Core.ID n) w1) as [[e|] w2];
      cbn [fst snd]; rewrite ?Hw, ?Z.add_0_r; reflexivity.
Qed.

(** The error count of a run stays between zero and the number of
    notifications processed. *)
Lemma processLoop_errCount client cfg apply verbose ns : forall st w,
  0 <= errCount st ->
  errCount st + Z.of_nat (List.length ns) <= maxInt64 ->
  let st' := fst (processLoop client cfg apply verbose ns st w) in
  errCount st <= errCount st' <= errCount st + Z.of_nat (List.length ns).
Proof.
  induction ns as [|n ns IH]; intros st w H0 Hmax; cbn [processLoop].
  - cbn. lia.
  - change (List.length (n :: ns)) with (S (List.length ns)) in *.
    rewrite Nat2Z.inj_succ in *. unfold bind.
    assert (Hstep : errCount st
                    <= errCount (fst (processOne client cfg apply verbose st n w))
                    <= errCount st + 1).
    { unfold processOne, bind, Println, emit, ret.
      destruct (fetchIfNeeded _ _ _ _ _ _) as [byURL w0].
      destruct (apply && _).
      - destruct (mutate _ _ _) as [[e|] w1]; cbn; [|lia].
        rewrite wrap64_small; [lia|].
        unfold inInt64, minInt64, maxInt64 in *. lia.
      - destruct (negb apply); cbn; lia. }
    destruct (processOne client cfg apply verbose st n w) as [st1 w1].
    cbn [fst] in *.
    specialize (IH st1 w1 ltac:(lia) ltac:(lia)). cbn zeta in IH. lia.
Qed.

(** *** The inbox fetch *)

Lemma captureMetadata_keeps page resp result :
  Notifications (captureMetadata page resp result) = Notifications result /\
  NotModified (captureMetadata page resp result) = NotModified result.
Proof.
  unfold captureMetadata. destruct (page =? 1); [|auto].
  destruct (Core.nonEmpty (Get (Header resp) "Last-Modified"));
    destruct (Core.nonEmpty (Get (Header resp) "X-Poll-Interval"));
    try destruct (Strconv.Atoi _); auto.
Qed.

Lemma ListUnreadNotifications_quiet c lastModified resp rest tr :
  urlError (pageURL 1) = None ->
  quietReply resp ->
  let meta := captureMetadata 1 resp emptyResult in
  ListUnreadNotifications c lastModified
    {| replies := Ok resp :: rest; trace := tr |} =
  (Some (Ok {| Notifications := [];
               NotModified := (StatusCode resp =? statusNotModified);
               LastModified := LastModified meta;
               PollInterval := PollInterval meta |}),
   {| replies := rest;
      trace := (tr ++ [EvDo (pageRequest c lastModified 1)])%list |}).
Proof.
  intros Hurl Hq meta.
  destruct (captureMetadata_keeps 1 resp emptyResult) as [Hn Hm].
  change (Notifications emptyResult) with (@nil Core.Notification) in Hn.
  change (NotModified emptyResult) with false in Hm.
  assert (Hrl : isRateLimited resp = false).
  { unfold isRateLimited. destruct Hq as [->|[-> _]]; reflexivity. }
  unfold ListUnreadNotifications. cbn [replies List.length listLoop].
  unfold bind at 1. unfold listPage, NewRequest.
  change ("https://api.github.com/notifications?per_page=50&page=" ++ itoa 1)
    with (pageURL 1).
  rewrite Hurl. unfold bind, ret, httpDo. cbn [replies trace].
  rewrite Hrl. unfold handlePage.
  subst meta. revert Hn Hm.
  generalize (captureMetadata 1 resp emptyResult) as meta. intros meta Hn Hm.
  destruct Hq as [Hs|[Hs Hb]]; rewrite Hs.
  - cbn. rewrite Hn. reflexivity.
  - rewrite Hb. cbn. rewrite Hm. reflexivity.
Qed.

(** C5, as the code has it.  On a first reply that is "not modified" or an
    empty page, [ListUnreadNotifications] returns no notifications and sets
    [NotModified] exactly in the first case.  [runOnce] and a cycle of
    [runDaemon] do not pass the difference on: [runOnce] prints "No unread
    notifications." and exits with 0, the daemon cycle prints the "not
    modified" summary when verbose and nothing otherwise, in both cases
    alike. *)
Theorem not_modified_reporting c cfg apply verbose ts cs lm resp rest tr :
  urlError (pageURL 1) = None ->
  quietReply resp ->
  let w := {| replies := Ok resp :: rest; trace := tr |} in
  let meta := captureMetadata 1 resp emptyResult in
  ListUnreadNotifications c lm w =
  (Some (Ok {| Notifications := [];
               NotModified := (StatusCode resp =? statusNotModified);
               LastModified := LastModified meta;
               PollInterval := PollInterval meta |}),
   {| replies := rest;
      trace := (tr ++ [EvDo (pageRequest c lm 1)])%list |}) /\
  runOnce c cfg apply verbose w =
  (Some 0,
   {| replies := rest;
      trace := (tr ++ [EvDo (pageRequest c EmptyString 1);
                       EvStdout ("No unread notifications." ++ Core.newline)])%list |}) /\
  runDaemonCycle c cfg apply verbose ts cs w =
  (Some (learn cs meta),
   {| replies := rest;
      trace := (tr ++ EvDo (pageRequest c (lastModified cs) 1) ::
                      (if verbose
                       then [EvStdout (Core.FormatDaemonCycleSummary ts 0 0 0 true)]
                       else []))%list |}).
Proof.
  intros Hurl Hq w meta. subst w.
  split; [now apply ListUnreadNotifications_quiet|]. split.
  - unfold runOnce, bind.
    rewrite (ListUnreadNotifications_quiet c EmptyString resp rest tr Hurl Hq).
    cbn [NotModified Notifications len List.length Z.of_nat Z.eqb orb].
    rewrite orb_true_r. unfold Println, emit, ret. cbn.
    now rewrite <- app_assoc.
  - unfold runDaemonCycle, bind.
    rewrite (ListUnreadNotifications_quiet c (lastModified cs) resp rest tr Hurl Hq).
    cbn [NotModified Notifications len List.length Z.of_nat Z.eqb orb
         LastModified PollInterval].
    rewrite orb_true_r. fold meta. unfold learn, when, Print, emit, ret.
    destruct verbose; cbn; [now rewrite <- app_assoc | reflexivity].
Qed.

End WithLib.
End MainFacts.


(** ** Facts about paging and the client calls *)

Module ClientFacts.
Import GitHub GitHubSpec GitHubFacts MainSpec MainFacts ClientSpec.

Section WithLib.
Context {lib : GoLib}.

(** *** Fuel *)

Lemma listLoop_fuel (fuel1 : nat) :
  forall fuel2 c lastModified page all result w,
    (List.length (replies w) < fuel1)%nat ->
    (List.length (replies w) < fuel2)%nat ->
    listLoop fuel1 c lastModified page all result w
    = listLoop fuel2 c lastModified page all result w.
Proof.
  induction fuel1 as [|fuel1 IH]; intros fuel2 c lastModified page all result w H1 H2;
    [lia|].
  destruct fuel2 as [|fuel2]; [lia|].
  cbn [listLoop]. unfold bind.
  destruct (listPage c lastModified page all result w) as [[res o] w1] eqn:Hp.
  destruct o as [r| |all']; try reflexivity.
  apply listPage_consumes in Hp. apply IH; lia.
Qed.

(** *** One page *)

Lemma listPage_plain c lastModified page all result resp rest tr :
  urlError (pageURL page) = None ->
  isRateLimited resp = false ->
  listPage c lastModified page all result
    {| replies := Ok resp :: rest; trace := tr |}
  = (handlePage page resp all result,
     {| replies := rest;
        trace := (tr ++ [EvDo (pageRequest c lastModified page)])%list |}).
Proof.
  intros Hu Hr. unfold listPage, NewRequest.
  change ("https://api.github.com/notifications?per_page=50&page=" ++ itoa page)
    with (pageURL page).
  rewrite Hu. unfold bind, ret, httpDo. cbn [replies trace].
  rewrite Hr. reflexivity.
Qed.

Lemma listPage_throttled c lastModified page all result resp reply rest tr :
  urlError (pageURL page) = None ->
  isRateLimited resp = true ->
  listPage c lastModified page all result
    {| replies := Ok resp :: Ok reply :: rest; trace := tr |}
  = (handlePage page reply all result,
     {| replies := rest;
        trace := (tr ++ [EvDo (pageRequest c lastModified page);
                         EvSleep (parseRetryAfter resp);
                         EvDo (pageRequest c lastModified page)])%list |}).
Proof.
  intros Hu Hr. unfold listPage, NewRequest.
  change ("https://api.github.com/notifications?per_page=50&page=" ++ itoa page)
    with (pageURL page).
  rewrite Hu. unfold bind, ret, httpDo, Sleep, emit. cbn [replies trace].
  rewrite Hr. cbn [replies trace]. rewrite <- !app_assoc. reflexivity.
Qed.

Lemma fullPage_not_limited resp : StatusCode resp = statusOK -> isRateLimited resp = false.
Proof.
  intros H. unfold isRateLimited. rewrite H. reflexivity.
Qed.

Lemma handlePage_full page resp all result :
  fullPage resp ->
  handlePage page resp all result
  = (captureMetadata page resp result, PageNext (all ++ notifsOf resp)%list).
Proof.
  intros [Hs (gn & gns & Hb)]. unfold handlePage, notifsOf.
  rewrite Hs, Hb. reflexivity.
Qed.

(** *** A run of full pages *)

Lemma pageRequests_snoc c lastModified (n : nat) : forall page,
  pageRequests c lastModified page (S n)
  = (pageRequests c lastModified page n
     ++ [EvDo (pageRequest c lastModified (page + Z.of_nat n))])%list.
Proof.
  induction n as [|n IH]; intros page.
  - cbn. now rewrite Z.add_0_r.
  - change (pageRequests c lastModified page (S (S n)))
      with (EvDo (pageRequest c lastModified page)
            :: pageRequests c lastModified (page + 1) (S n)).
    rewrite IH. rewrite (Nat2Z.inj_succ n).
    change (pageRequests c lastModified page (S n))
      with (EvDo (pageRequest c lastModified page)
            :: pageRequests c lastModified (page + 1) n).
    cbn [app]. do 5 f_equal. lia.
Qed.

Lemma listLoop_pages (pages : list Response) :
  forall fuel fuel' c lastModified page all result more tr,
    (forall p, urlError (pageURL p) = None) ->
    List.Forall fullPage pages ->
    1 <= page -> page + Z.of_nat (List.length pages) <= maxInt64 ->
    (List.length pages + List.length more < fuel)%nat ->
    (List.length more < fuel')%nat ->
    listLoop fuel c lastModified page all result
      {| replies := (map Ok pages ++ more)%list; trace := tr |}
    = listLoop fuel' c lastModified (page + Z.of_nat (List.length pages))
        (all ++ allNotifs pages)%list (capturePages page pages result)
        {| replies := more;
           trace := (tr ++ pageRequests c lastModified page (List.length pages))%list |}.
Proof.
  induction pages as [|resp pages IH];
    intros fuel fuel' c lastModified page all result more tr Hu Hfull Hp Hmax Hf Hf'.
  - cbn [map app List.length pageRequests allNotifs concat capturePages Z.of_nat].
    rewrite Z.add_0_r, !app_nil_r. apply listLoop_fuel; cbn; lia.
  - inversion Hfull as [|? ? Hresp Hrest]; subst.
    change (List.length (resp :: pages)) with (S (List.length pages)) in *.
    rewrite Nat2Z.inj_succ in *.
    destruct fuel as [|fuel]; [lia|].
    cbn [map app listLoop]. unfold bind.
    rewrite listPage_plain
      by (auto; apply fullPage_not_limited, Hresp).
    rewrite handlePage_full by exact Hresp.
    rewrite wrap64_small by (unfold inInt64, minInt64, maxInt64 in *; lia).
    rewrite (IH fuel fuel') by (auto; cbn in *; lia).
    cbn [capturePages pageRequests allNotifs map concat].
    rewrite <- !app_assoc. cbn [app].
    replace (page + Z.succ (Z.of_nat (List.length pages)))
      with (page + 1 + Z.of_nat (List.length pages)) by lia.
    reflexivity.
Qed.

Lemma captureMetadata_later page resp result :
  page <> 1 -> captureMetadata page resp result = result.
Proof.
  intros H. unfold captureMetadata.
  destruct (Z.eqb_spec page 1); [contradiction | reflexivity].
Qed.

Lemma capturePages_later (pages : list Response) : forall page result,
  1 < page -> capturePages page pages result = result.
Proof.
  induction pages as [|resp pages IH]; intros page result H; cbn [capturePages];
    [reflexivity|].
  rewrite captureMetadata_later by lia. apply IH. lia.
Qed.

(** The metadata after the pages and one more reply is that of the first
    reply of all. *)
Lemma capture_first (pages : list Response) (last : Response) :
  captureMetadata (1 + Z.of_nat (List.length pages)) last
    (capturePages 1 pages emptyResult)
  = captureMetadata 1 (hd last pages) emptyResult.
Proof.
  destruct pages as [|resp pages]; [reflexivity|].
  cbn [capturePages hd]. rewrite capturePages_later by lia.
  apply captureMetadata_later.
  change (List.length (resp :: pages)) with (S (List.length pages)).
  rewrite Nat2Z.inj_succ. lia.
Qed.

(** The page loop after a run of full pages. *)
Lemma ListUnreadNotifications_after_pages c lastModified pages more tr :
  (forall p, urlError (pageURL p) = None) ->
  List.Forall fullPage pages ->
  Z.of_nat (List.length pages) < maxInt64 ->
  ListUnreadNotifications c lastModified
    {| replies := (map Ok pages ++ more)%list; trace := tr |}
  = listLoop (S (List.length more)) c lastModified
      (1 + Z.of_nat (List.length pages)) (allNotifs pages)
      (capturePages 1 pages emptyResult)
      {| replies := more;
         trace := (tr ++ pageRequests c lastModified 1 (List.length pages))%list |}.
Proof.
  intros Hu Hfull Hlen. unfold ListUnreadNotifications. cbn [replies].
  rewrite (listLoop_pages pages _ (S (List.length more))); auto; try lia.
  rewrite length_app, length_map. lia.
Qed.

(** X1.  When the server answers with full pages and then an empty one,
    [ListUnreadNotifications] returns the notifications of all pages in
    order, with the metadata of the first reply, after one request per page
    and one for the empty page. *)
Theorem ListUnreadNotifications_pages c lastModified pages last rest tr :
  (forall p, urlError (pageURL p) = None) ->
  List.Forall fullPage pages ->
  emptyPage last ->
  Z.of_nat (List.length pages) < maxInt64 ->
  let meta := captureMetadata 1 (hd last pages) emptyResult in
  ListUnreadNotifications c lastModified
    {| replies := (map Ok pages ++ Ok last :: rest)%list; trace := tr |}
  = (Some (Ok {| Notifications := allNotifs pages;
                 NotModified := false;
                 LastModified := LastModified meta;
                 PollInterval := PollInterval meta |}),
     {| replies := rest;
        trace := (tr ++ pageRequests c lastModified 1
                          (S (List.length pages)))%list |}).
Proof.
  intros Hu Hfull [Hs Hb] Hlen meta.
  rewrite ListUnreadNotifications_after_pages by assumption.
  rewrite pageRequests_snoc, app_assoc.
  destruct (captureMetadata_keeps 1 (hd last pages) emptyResult) as [_ Hm].
  fold meta in Hm. change (NotModified emptyResult) with false in Hm.
  cbn [listLoop]. unfold bind.
  rewrite listPage_plain by (auto; now apply fullPage_not_limited).
  unfold handlePage. rewrite capture_first. fold meta.
  clearbody meta.
  rewrite Hs, Hb. cbn. rewrite Hm. reflexivity.
Qed.

(** X2.  A reply that is neither throttled nor a 200 ends the listing
    without any of the notifications fetched so far: "not modified" gives
    an empty result with the flag set, any other status an error that names
    the page. *)
Theorem ListUnreadNotifications_discards c lastModified pages last rest tr :
  (forall p, urlError (pageURL p) = None) ->
  List.Forall fullPage pages ->
  Z.of_nat (List.length pages) < maxInt64 ->
  isRateLimited last = false ->
  StatusCode last <> statusOK ->
  let meta := captureMetadata 1 (hd last pages) emptyResult in
  let page := 1 + Z.of_nat (List.length pages) in
  ListUnreadNotifications c lastModified
    {| replies := (map Ok pages ++ Ok last :: rest)%list; trace := tr |}
  = (Some (if StatusCode last =? statusNotModified
           then Ok {| Notifications := [];
                      NotModified := true;
                      LastModified := LastModified meta;
                      PollInterval := PollInterval meta |}
           else Err ("list notifications page " ++ itoa page ++
                     ": unexpected status " ++ itoa (StatusCode last))),
     {| replies := rest;
        trace := (tr ++ pageRequests c lastModified 1
                          (S (List.length pages)))%list |}).
Proof.
  intros Hu Hfull Hlen Hrl Hs meta page.
  rewrite ListUnreadNotifications_after_pages by assumption.
  rewrite pageRequests_snoc, app_assoc.
  destruct (captureMetadata_keeps 1 (hd last pages) emptyResult) as [Hn _].
  fold meta in Hn. change (Notifications emptyResult) with (@nil Core.Notification) in Hn.
  cbn [listLoop]. unfold bind.
  rewrite listPage_plain by auto.
  unfold handlePage. rewrite capture_first. fold meta page.
  clearbody meta page.
  destruct (StatusCode last =? statusNotModified) eqn:E304.
  - cbn. rewrite Hn. reflexivity.
  - destruct (Z.eqb_spec (StatusCode last) statusOK) as [H|H]; [contradiction|].
    reflexivity.
Qed.

(** *** The trace is written, never read *)

Lemma uniform_ret {A} (a : A) : uniform (ret a).
Proof.
  intros rs t1 t2. cbn. repeat split. exists []. now rewrite !app_nil_r.
Qed.

Lemma uniform_bind {A B} (c : M A) (k : A -> M B) :
  uniform c -> (forall a, uniform (k a)) -> uniform (bind c k).
Proof.
  intros Hc Hk rs t1 t2. unfold bind.
  destruct (Hc rs t1 t2) as (Ha & Hr & evs & E1 & E2).
  destruct (c {| replies := rs; trace := t1 |}) as [a1 [rs1 tr1]].
  destruct (c {| replies := rs; trace := t2 |}) as [a2 [rs2 tr2]].
  cbn in Ha, Hr, E1, E2. subst a2 rs2 tr1 tr2.
  destruct (Hk a1 rs1 (t1 ++ evs)%list (t2 ++ evs)%list)
    as (Hb & Hr' & evs' & E1' & E2').
  split; [exact Hb|]. split; [exact Hr'|].
  exists (evs ++ evs')%list. now rewrite E1', E2', !app_assoc.
Qed.

Lemma uniform_emit (e : Event) : uniform (emit e).
Proof.
  intros rs t1 t2. cbn. repeat split. now exists [e].
Qed.

Lemma uniform_httpDo (req : Request) : uniform (httpDo req).
Proof.
  intros rs t1 t2. unfold httpDo. cbn [replies trace].
  destruct rs as [|r rest]; cbn; repeat split; now exists [EvDo req].
Qed.

Lemma uniform_listPage c lastModified page all result :
  uniform (listPage c lastModified page all result).
Proof.
  unfold listPage.
  destruct (NewRequest "GET" _ EmptyString) as [req|e]; [|apply uniform_ret].
  apply uniform_bind; [apply uniform_httpDo|].
  intros [resp|e]; [|apply uniform_ret].
  destruct (isRateLimited resp); [|apply uniform_ret].
  apply uniform_bind; [apply uniform_emit|]. intros _.
  apply uniform_bind; [apply uniform_httpDo|].
  intros [resp2|e2]; apply uniform_ret.
Qed.

Lemma uniform_listLoop (fuel : nat) : forall c lastModified page all result,
  uniform (listLoop fuel c lastModified page all result).
Proof.
  induction fuel as [|fuel IH]; intros c lastModified page all result;
    cbn [listLoop]; [apply uniform_ret|].
  apply uniform_bind; [apply uniform_listPage|].
  intros [res [r| |all']]; try apply uniform_ret. apply IH.
Qed.

(** X3.  A throttled reply in the course of the listing is retried once,
    after one pause.  When the answer to the retry is a response that is
    not throttled itself, the detour costs that pause and one repetition
    of the request of the page being fetched: the result and the replies
    left are those of the listing that gets that response at once, and so
    are the other requests.  When the answer to the retry is throttled
    too, there is no second retry: the listing ends with the error of an
    unexpected status. *)
Theorem ListUnreadNotifications_throttled c lastModified pages thr reply rest tr :
  (forall p, urlError (pageURL p) = None) ->
  List.Forall fullPage pages ->
  Z.of_nat (List.length pages) < maxInt64 ->
  isRateLimited thr = true ->
  let slow :=
    ListUnreadNotifications c lastModified
      {| replies := (map Ok pages ++ Ok thr :: Ok reply :: rest)%list;
         trace := tr |} in
  let fast :=
    ListUnreadNotifications c lastModified
      {| replies := (map Ok pages ++ Ok reply :: rest)%list; trace := tr |} in
  let before := pageRequests c lastModified 1 (List.length pages) in
  let page := 1 + Z.of_nat (List.length pages) in
  (isRateLimited reply = false ->
   fst slow = fst fast /\
   replies (snd slow) = replies (snd fast) /\
   exists after,
     trace (snd fast) = (tr ++ before ++ after)%list /\
     trace (snd slow)
     = (tr ++ before ++
        [EvDo (pageRequest c lastModified page); EvSleep (parseRetryAfter thr)]
        ++ after)%list) /\
  (isRateLimited reply = true ->
   slow
   = (Some (Err ("list notifications page " ++ itoa page ++
                 ": unexpected status " ++ itoa (StatusCode reply))),
      {| replies := rest;
         trace := (tr ++ before ++
                   [EvDo (pageRequest c lastModified page);
                    EvSleep (parseRetryAfter thr);
                    EvDo (pageRequest c lastModified page)])%list |})).
Proof.
  intros Hu Hfull Hlen Hthr slow fast before page. subst slow fast.
  rewrite !ListUnreadNotifications_after_pages by assumption.
  fold before page.
  set (all := allNotifs pages). set (result := capturePages 1 pages emptyResult).
  set (t := (tr ++ before)%list).
  set (pause := [EvDo (pageRequest c lastModified page);
                 EvSleep (parseRetryAfter thr)]).
  split.
  - intros Hrep.
    assert (Hslow :
      listLoop (S (List.length (Ok thr :: Ok reply :: rest))) c lastModified page
        all result
        {| replies := Ok thr :: Ok reply :: rest; trace := t |}
      = listLoop (S (List.length (Ok reply :: rest))) c lastModified page all
          result
          {| replies := Ok reply :: rest; trace := (t ++ pause)%list |}).
    { remember (List.length (Ok thr :: Ok reply :: rest)) as f1 eqn:Hf1.
      remember (List.length (Ok reply :: rest)) as f2 eqn:Hf2.
      cbn [List.length] in Hf1, Hf2.
      cbn [listLoop]. unfold bind.
      rewrite listPage_throttled by auto.
      rewrite listPage_plain by auto.
      unfold pause. rewrite <- !app_assoc. cbn [app].
      destruct (handlePage page reply all result) as [res [r| |all']];
        try reflexivity.
      apply listLoop_fuel; cbn [replies]; lia. }
    rewrite Hslow.
    destruct (uniform_listLoop (S (List.length (Ok reply :: rest))) c
                lastModified page all result (Ok reply :: rest)
                (t ++ pause)%list t)
      as (Ha & Hr & evs & E1 & E2).
    split; [exact Ha|]. split; [exact Hr|].
    exists evs. rewrite E1, E2. unfold t. now rewrite <- !app_assoc.
  - intros Hrep.
    remember (List.length (Ok thr :: Ok reply :: rest)) as f1 eqn:Hf1.
    cbn [listLoop]. unfold bind.
    rewrite listPage_throttled by auto.
    assert (Hh : handlePage page reply all result
                 = (captureMetadata page reply result,
                    PageReturn
                      (Err ("list notifications page " ++ itoa page ++
                            ": unexpected status " ++
                            itoa (StatusCode reply))))).
    { unfold handlePage. unfold isRateLimited in Hrep.
      unfold statusNotModified, statusOK, statusTooManyRequests,
        statusForbidden in *.
      destruct (Z.eqb_spec (StatusCode reply) 429) as [E|E].
      - rewrite E. reflexivity.
      - destruct (Z.eqb_spec (StatusCode reply) 403) as [E'|E'];
          [|discriminate Hrep].
        rewrite E'. reflexivity. }
    rewrite Hh. unfold ret, t. rewrite <- !app_assoc. reflexivity.
Qed.

(** *** Requests *)

(** X4.  [do] sends nothing (when the URL is rejected), one request, or,
    after a throttled first reply and no other, a request, one pause and
    the request again without body: never a third request. *)
Theorem do_shapes c method url body w :
  exists evs,
    trace (snd (do c method url body w)) = (trace w ++ evs)%list /\
    (evs = [] \/
     evs = [EvDo (request c method url body)] \/
     exists resp rest,
       replies w = Ok resp :: rest /\ isRateLimited resp = true /\
       evs = [EvDo (request c method url body);
              EvSleep (parseRetryAfter resp);
              EvDo (request c method url EmptyString)]).
Proof.
  destruct w as [rs tr]. unfold do, doAttempt, NewRequest.
  destruct (urlError url) as [e|].
  { exists []. cbn. rewrite app_nil_r. auto. }
  fold (request c method url body). fold (request c method url EmptyString).
  unfold bind, ret, httpDo, Sleep, emit. cbn [replies trace].
  destruct rs as [|[resp|e] rest].
  - exists [EvDo (request c method url body)]. cbn. auto.
  - destruct (isRateLimited resp) eqn:Hr; cbn [andb Z.eqb].
    + exists [EvDo (request c method url body);
              EvSleep (parseRetryAfter resp);
              EvDo (request c method url EmptyString)].
      split.
      * cbn [replies trace fst snd].
        destruct rest as [|[resp2|e2] rest2]; cbn; now rewrite <- !app_assoc.
      * right. right. exists resp, rest. auto.
    + exists [EvDo (request c method url body)]. cbn. auto.
  - exists [EvDo (request c method url body)]. cbn. auto.
Qed.

Lemma emits_doAttempt_at c attempt method url body :
  emits (exchangeAt method url) (doAttempt c attempt method url body).
Proof.
  unfold doAttempt, NewRequest.
  destruct (urlError url); [apply emits_ret|].
  apply emits_bind; [apply emits_httpDo; now split|].
  intros [resp|e]; [|apply emits_ret].
  destruct (_ && _); [|apply emits_ret].
  apply emits_bind; [now apply emits_emit | intros; apply emits_ret].
Qed.

Lemma emits_do_at c method url body :
  emits (exchangeAt method url) (do c method url body).
Proof.
  unfold do. apply emits_bind; [apply emits_doAttempt_at|].
  intros [_|res]; [|apply emits_ret].
  apply emits_bind; [apply emits_doAttempt_at|].
  intros [_|res]; apply emits_ret.
Qed.

(** What [do] returns is a reply of the server, or the error of the
    rejected URL. *)
Lemma do_result c method url body w resp :
  fst (do c method url body w) = Ok resp -> In (Ok resp) (replies w).
Proof.
  destruct w as [rs tr]. unfold do, doAttempt, NewRequest.
  destruct (urlError url) as [e|]; [discriminate|].
  unfold bind, ret, httpDo, Sleep, emit. cbn [replies trace].
  destruct rs as [|[resp1|e] rest]; try discriminate.
  destruct (isRateLimited resp1); cbn [andb Z.eqb].
  - destruct rest as [|[resp2|e2] rest2]; cbn; try discriminate.
    intros H. inversion H; subst. right. now left.
  - cbn. intros H. inversion H; subst. now left.
Qed.

(** X5.  [GetRequestedReviewers] sends nothing for a reference that does
    not parse.  For one that does, it exchanges only [GET]s at the
    reviewers URL of the parsed reference, and the reviewers it returns are
    those of a reply with status 200. *)
Theorem GetRequestedReviewers_requests c subjectURL w :
  match Core.ParseSubjectURL subjectURL with
  | Err e =>
      GetRequestedReviewers c subjectURL w = (Err ("get reviewers: " ++ e), w)
  | Ok ref =>
      (exists evs,
         trace (snd (GetRequestedReviewers c subjectURL w))
         = (trace w ++ evs)%list /\
         List.Forall (exchangeAt "GET" (reviewersURL ref)) evs) /\
      (forall reviewers,
         fst (GetRequestedReviewers c subjectURL w) = Ok reviewers ->
         exists resp ghReviewers,
           In (Ok resp) (replies w) /\ StatusCode resp = statusOK /\
           asReviewers (RespBody resp) = Ok ghReviewers /\
           reviewers = toReviewers ghReviewers)
  end.
Proof.
  unfold GetRequestedReviewers.
  destruct (Core.ParseSubjectURL subjectURL) as [ref|e]; [|reflexivity].
  split.
  - refine ((_ : emits (exchangeAt "GET" (reviewersURL ref)) _) w).
    apply emits_bind; [apply emits_do_at|].
    intros [resp|e]; [|apply emits_ret].
    destruct (negb _); [apply emits_ret|].
    destruct (asReviewers _); apply emits_ret.
  - intros reviewers. unfold bind.
    pose proof (do_result c "GET" (reviewersURL ref) EmptyString w) as Hd.
    destruct (do c "GET" (reviewersURL ref) EmptyString w) as [[resp|e] w1];
      cbn [fst] in *; [|discriminate].
    destruct (Z.eqb_spec (StatusCode resp) statusOK) as [Hs|Hs]; cbn [negb];
      [|discriminate].
    destruct (asReviewers (RespBody resp)) as [gr|e] eqn:Hb; [|discriminate].
    cbn. intros H. inversion H; subst.
    exists resp, gr. auto.
Qed.

(** X17.  [FetchLogin] never changes the token.  When it reports an error
    the client is as before; when it succeeds the login is the one of a
    reply with status 200 whose body decodes.  It exchanges only [GET]s at
    the user URL. *)
Theorem FetchLogin_client c w :
  token (fst (fst (FetchLogin c w))) = token c /\
  (forall e, snd (fst (FetchLogin c w)) = Some e ->
     fst (fst (FetchLogin c w)) = c) /\
  (snd (fst (FetchLogin c w)) = None ->
     exists resp user,
       In (Ok resp) (replies w) /\ StatusCode resp = statusOK /\
       asUser (RespBody resp) = Ok user /\
       login (fst (fst (FetchLogin c w))) = ghAuthLogin user) /\
  (exists evs,
     trace (snd (FetchLogin c w)) = (trace w ++ evs)%list /\
     List.Forall (exchangeAt "GET" "https://api.github.com/user") evs).
Proof.
  assert (Hev : exists evs,
             trace (snd (FetchLogin c w)) = (trace w ++ evs)%list /\
             List.Forall (exchangeAt "GET" "https://api.github.com/user") evs).
  { refine ((_ : emits (exchangeAt "GET" "https://api.github.com/user") _) w).
    unfold FetchLogin. apply emits_bind; [apply emits_do_at|].
    intros [resp|e]; [|apply emits_ret].
    destruct (negb _); [apply emits_ret|].
    destruct (asUser _); apply emits_ret. }
  revert Hev. unfold FetchLogin, bind.
  pose proof (do_result c "GET" "https://api.github.com/user" EmptyString w)
    as Hd.
  destruct (do c "GET" "https://api.github.com/user" EmptyString w)
    as [[resp|e] w1]; cbn [fst] in *.
  2:{ cbn. intros Hev. split; [reflexivity|]. split; [reflexivity|].
      split; [discriminate | exact Hev]. }
  destruct (Z.eqb_spec (StatusCode resp) statusOK) as [Hs|Hs]; cbn [negb].
  2:{ cbn. intros Hev. split; [reflexivity|]. split; [reflexivity|].
      split; [discriminate | exact Hev]. }
  destruct (asUser (RespBody resp)) as [user|e] eqn:Hb; cbn; intros Hev.
  - split; [reflexivity|]. split; [discriminate|]. split; [|exact Hev].
    intros _. exists resp, user. auto.
  - split; [reflexivity|]. split; [reflexivity|].
    split; [discriminate | exact Hev].
Qed.

(** X18.  The two thread calls report success only for a reply with an
    accepted status: 205 or 200 for [MarkThreadRead], 200 or 201 for
    [IgnoreThread].  Without such a reply they return an error that names
    the thread. *)
Theorem thread_calls_accept c threadID w :
  (match fst (MarkThreadRead c threadID w) with
   | None =>
       exists resp, In (Ok resp) (replies w) /\
         (StatusCode resp = statusResetContent \/ StatusCode resp = statusOK)
   | Some e =>
       Strings.HasPrefix e ("mark thread " ++ threadID ++ " read: ") = true
   end) /\
  (match fst (IgnoreThread c threadID w) with
   | None =>
       exists resp, In (Ok resp) (replies w) /\
         (StatusCode resp = statusOK \/ StatusCode resp = statusCreated)
   | Some e =>
       Strings.HasPrefix e ("ignore thread " ++ threadID ++ ": ") = true
   end).
Proof.
  assert (Hp : forall p q rest,
             Strings.HasPrefix (p ++ q ++ rest) (p ++ q) = true).
  { intros p q rest. rewrite <- StringsFacts.append_assoc.
    apply StringsFacts.HasPrefix_app. }
  assert (Hp3 : forall p q r rest,
             Strings.HasPrefix (p ++ q ++ r ++ rest) (p ++ q ++ r) = true).
  { intros p q r rest.
    rewrite <- (StringsFacts.append_assoc q r rest),
            <- (StringsFacts.append_assoc p (q ++ r) rest).
    apply StringsFacts.HasPrefix_app. }
  split.
  - unfold MarkThreadRead, bind.
    pose proof (do_result c "PATCH" (threadURL threadID) EmptyString w) as Hd.
    destruct (do c "PATCH" (threadURL threadID) EmptyString w)
      as [[resp|e] w1]; cbn [fst] in *.
    + destruct (Z.eqb_spec (StatusCode resp) statusResetContent) as [H1|H1];
        cbn [negb andb].
      * unfold ret; cbn [fst]. exists resp. auto.
      * destruct (Z.eqb_spec (StatusCode resp) statusOK) as [H2|H2];
          cbn [negb]; unfold ret; cbn [fst].
        -- exists resp. auto.
        -- change " read: unexpected status "
             with (" read: " ++ "unexpected status ").
           rewrite (StringsFacts.append_assoc " read: ").
           apply Hp3.
    + unfold ret; cbn [fst]. apply Hp3.
  - unfold IgnoreThread, bind.
    pose proof (do_result c "PUT" (threadURL threadID ++ "/subscription")
                  ignoredBody w) as Hd.
    destruct (do c "PUT" (threadURL threadID ++ "/subscription") ignoredBody w)
      as [[resp|e] w1]; cbn [fst] in *.
    + destruct (Z.eqb_spec (StatusCode resp) statusOK) as [H1|H1];
        cbn [negb andb].
      * unfold ret; cbn [fst]. exists resp. auto.
      * destruct (Z.eqb_spec (StatusCode resp) statusCreated) as [H2|H2];
          cbn [negb]; unfold ret; cbn [fst].
        -- exists resp. auto.
        -- change ": unexpected status " with (": " ++ "unexpected status ").
           rewrite (StringsFacts.append_assoc ": ").
           apply Hp3.
    + unfold ret; cbn [fst]. apply Hp3.
Qed.

End WithLib.
End ClientFacts.

(** ** Facts about the batch *)

Module BatchFacts.
Import GitHub Main GitHubSpec GitHubFacts MainSpec MainFacts ClientSpec
  ClientFacts BatchSpec.

Section WithLib.
Context {lib : GoLib}.

Lemma stdoutOf_app (e1 e2 : list Event) :
  stdoutOf (e1 ++ e2) = (stdoutOf e1 ++ stdoutOf e2)%list.
Proof.
  induction e1 as [|e e1 IH]; cbn; [reflexivity|].
  destruct e; cbn; now rewrite ?IH.
Qed.

Lemma stdoutOf_lookupTraffic (evs : list Event) :
  List.Forall lookupTraffic evs -> stdoutOf evs = [].
Proof.
  induction 1 as [|e evs He _ IH]; cbn; [reflexivity|].
  destruct e; cbn in *; now try contradiction.
Qed.

Lemma stdoutOf_threadTraffic threadID (evs : list Event) :
  List.Forall (threadTraffic threadID) evs -> stdoutOf evs = [].
Proof.
  induction 1 as [|e evs He _ IH]; cbn; [reflexivity|].
  destruct e; cbn in *; try assumption; now destruct He.
Qed.

Lemma emits_fetch_traffic client cfg verbose byURL n :
  emits lookupTraffic (fetchIfNeeded client cfg verbose byURL n).
Proof.
  unfold fetchIfNeeded.
  destruct (Core.NeedsReviewerLookup n cfg); [|apply emits_ret].
  destruct (byURL !! _); [apply emits_ret|].
  apply emits_bind.
  - eapply emits_weaken; [|apply emits_GetRequestedReviewers].
    intros [req| | | | |]; cbn; auto.
  - intros r. apply emits_bind; [now apply emits_emit|]. intros _.
    destruct r as [reviewers|e]; [apply emits_ret|].
    apply emits_bind; [|intros; apply emits_ret].
    apply emits_when. now apply emits_emit.
Qed.

Lemma emits_mutate_thread client threadID :
  emits (threadTraffic threadID) (mutate client threadID).
Proof.
  unfold mutate, MarkThreadRead, IgnoreThread.
  apply emits_bind.
  - apply emits_bind.
    + eapply emits_weaken; [|apply emits_do_at]. intros e H. now left.
    + intros [resp|e]; [|apply emits_ret]. destruct (_ && _); apply emits_ret.
  - intros [e|]; [apply emits_ret|].
    apply emits_bind.
    + eapply emits_weaken; [|apply emits_do_at]. intros e H. now right.
    + intros [resp|e]; [|apply emits_ret]. destruct (_ && _); apply emits_ret.
Qed.

Lemma touchesOnly_mono apply (ds ds' : list Core.Decision) (e : Event) :
  (forall d, In d ds -> In d ds') -> touchesOnly apply ds e -> touchesOnly apply ds' e.
Proof.
  intros Hsub. destruct e; cbn; auto.
  intros [H|(Ha & d & Hin & Hm & Ht)]; [now left|].
  right. split; [exact Ha|]. exists d. auto.
Qed.

(** One iteration, step by step. *)
Lemma processOne_step client cfg apply verbose st n w :
  exists (s : Step) (evs : list Event),
    let r := processOne client cfg apply verbose st n w in
    decisions (fst r) = (decisions st ++ [fst s])%list /\
    Core.Notification_ (fst s) = n /\
    classified client cfg n (fst s) /\
    stepOK apply s /\
    trace (snd r) = (trace w ++ evs)%list /\
    stdoutOf evs = rowsOf apply s /\
    List.Forall (touchesOnly apply [fst s]) evs /\
    errCount (fst r)
    = match snd s with
      | Some (Some _) => wrap64 (errCount st + 1)
      | _ => errCount st
      end.
Proof.
  unfold processOne, bind.
  destruct (emits_fetch_traffic client cfg verbose (reviewersByURL st) n w)
    as (evsF & EF & FF).
  destruct (fetchIfNeeded client cfg verbose (reviewersByURL st) n w)
    as [byURL w0].
  cbn [fst snd] in EF.
  set (d := Core.Classify n _ (login client) cfg).
  assert (Hn : Core.Notification_ d = n) by apply Classify_notification.
  assert (Hc : classified client cfg n d) by (eexists; reflexivity).
  assert (HF : List.Forall (touchesOnly apply [d]) evsF).
  { eapply List.Forall_impl; [|exact FF].
    intros [req| | | | |]; cbn; auto. }
  destruct (apply && (Core.Action_ d =? Core.ActionMute)) eqn:Hcond.
  - apply andb_true_iff in Hcond as [-> Hmute].
    rewrite Hn.
    destruct (emits_mutate_thread client (Core.ID n) w0) as (evsM & EM & FM).
    destruct (mutate client (Core.ID n) w0) as [mutErr w1].
    cbn [fst snd] in EM.
    exists (d, Some mutErr),
      (evsF ++ evsM
       ++ [EvStdout (Core.FormatMutationRow d mutErr ++ Core.newline)])%list.
    cbn [fst snd]. unfold Println, emit, ret.
    cbn [fst snd trace decisions errCount].
    split; [reflexivity|]. split; [exact Hn|]. split; [exact Hc|].
    split; [split; [reflexivity | exact Hmute]|].
    split; [now rewrite EM, EF, <- !app_assoc|].
    split.
    { rewrite !stdoutOf_app, (stdoutOf_lookupTraffic _ FF),
        (stdoutOf_threadTraffic _ _ FM). reflexivity. }
    split; [|destruct mutErr; reflexivity].
    apply List.Forall_app. split; [exact HF|].
    apply List.Forall_app. split; [|repeat constructor].
    eapply List.Forall_impl; [|exact FM].
    intros e He. destruct e; cbn; auto.
    right. split; [reflexivity|]. exists d.
    split; [now left|]. split; [now apply Z.eqb_eq|]. now rewrite Hn.
  - assert (Hstep : stepOK apply (d, None)) by exact Hcond.
    destruct apply; cbn [negb].
    + exists (d, None), evsF. cbn [fst snd]. unfold ret.
      cbn [fst snd trace decisions errCount].
      split; [reflexivity|]. split; [exact Hn|]. split; [exact Hc|].
      split; [exact Hstep|]. split; [exact EF|].
      split; [now apply stdoutOf_lookupTraffic|]. split; [exact HF|reflexivity].
    + exists (d, None),
        (evsF ++ [EvStdout (Core.FormatDecisionRow d ++ Core.newline)])%list.
      cbn [fst snd]. unfold Println, emit, ret.
      cbn [fst snd trace decisions errCount].
      split; [reflexivity|]. split; [exact Hn|]. split; [exact Hc|].
      split; [exact Hstep|]. split; [now rewrite EF, <- app_assoc|].
      split; [rewrite stdoutOf_app, (stdoutOf_lookupTraffic _ FF); reflexivity|].
      split; [|reflexivity].
      apply List.Forall_app. split; [exact HF | repeat constructor].
Qed.

Lemma failures_bounds (steps : list Step) :
  0 <= failures steps <= Z.of_nat (List.length steps).
Proof.
  induction steps as [|[d [[e|]|]] steps IH]; cbn [failures List.length];
    rewrite ?Nat2Z.inj_succ; cbn; lia.
Qed.

Lemma failures_mutes apply (steps : list Step) :
  List.Forall (stepOK apply) steps ->
  failures steps <= countAction Core.ActionMute (map fst steps).
Proof.
  induction 1 as [|[d m] steps Hs _ IH]; cbn [failures map countAction fst];
    [lia|].
  unfold stepOK, isMute in Hs. cbn [fst snd] in Hs.
  destruct m as [[e|]|].
  - destruct Hs as [_ Hm]. rewrite Hm. lia.
  - destruct Hs as [_ Hm]. rewrite Hm. lia.
  - destruct (Core.Action_ d =? Core.ActionMute); lia.
Qed.

Lemma failures_dry (steps : list Step) :
  List.Forall (stepOK false) steps -> failures steps = 0.
Proof.
  induction 1 as [|[d m] steps Hs _ IH]; cbn [failures]; [reflexivity|].
  unfold stepOK in Hs. cbn [fst snd] in Hs.
  destruct m as [[e|]|]; try (destruct Hs; discriminate); exact IH.
Qed.

(** The loop, as a sequence of steps. *)
Lemma processLoop_steps client cfg apply verbose ns : forall st w,
  exists (steps : list Step) (evs : list Event),
    let r := processLoop client cfg apply verbose ns st w in
    decisions (fst r) = (decisions st ++ map fst steps)%list /\
    map (fun s => Core.Notification_ (fst s)) steps = ns /\
    List.Forall (fun s => classified client cfg (Core.Notification_ (fst s)) (fst s))
      steps /\
    List.Forall (stepOK apply) steps /\
    trace (snd r) = (trace w ++ evs)%list /\
    stdoutOf evs = concat (map (rowsOf apply) steps) /\
    List.Forall (touchesOnly apply (map fst steps)) evs /\
    (failures steps = 0 -> errCount (fst r) = errCount st) /\
    (0 <= errCount st ->
     errCount st + Z.of_nat (List.length ns) <= maxInt64 ->
     errCount (fst r) = errCount st + failures steps).
Proof.
  induction ns as [|n ns IH]; intros st w.
  - exists [], []. cbn. rewrite !app_nil_r.
    repeat split; auto; try constructor; intros; lia.
  - cbn [processLoop]. unfold bind.
    destruct (processOne_step client cfg apply verbose st n w)
      as (s & evs1 & Hd1 & Hn1 & Hc1 & Hok1 & Ht1 & Ho1 & Hf1 & He1).
    destruct (processOne client cfg apply verbose st n w) as [st1 w1].
    cbn [fst snd] in *.
    destruct (IH st1 w1)
      as (steps & evs2 & Hd2 & Hn2 & Hc2 & Hok2 & Ht2 & Ho2 & Hf2 & Hz2 & He2).
    exists (s :: steps), (evs1 ++ evs2)%list.
    cbn zeta in *. cbn [map concat List.length].
    split; [now rewrite Hd2, Hd1, <- app_assoc|].
    split; [now rewrite Hn1, Hn2|].
    split; [constructor; [now rewrite Hn1 | exact Hc2]|].
    split; [now constructor|].
    split; [now rewrite Ht2, Ht1, app_assoc|].
    split; [now rewrite stdoutOf_app, Ho1, Ho2|].
    split.
    { apply List.Forall_app. split.
      - eapply List.Forall_impl; [|exact Hf1].
        intros e. apply touchesOnly_mono. intros d [<-|[]]. now left.
      - eapply List.Forall_impl; [|exact Hf2].
        intros e. apply touchesOnly_mono. intros d Hin. now right. }
    pose proof (failures_bounds steps) as Hb.
    assert (Hlen : List.length steps = List.length ns)
      by (rewrite <- Hn2; now rewrite length_map).
    destruct s as [d m]. cbn [fst snd failures] in *.
    rewrite Nat2Z.inj_succ.
    split.
    + intros Hz. destruct m as [[e|]|]; try lia;
        rewrite Hz2 by lia; exact He1.
    + intros H0 Hmax.
      destruct m as [[e|]|];
        rewrite ?He1 in *;
        try rewrite wrap64_small in *
          by (unfold inInt64, minInt64, maxInt64 in *; lia);
        rewrite He2 by lia; try rewrite He1; lia.
Qed.

(** X6.  [processNotifications] returns one decision per notification, in
    the order of the input, each of them a decision of [Classify] for its
    notification; the error count lies between zero and the number of
    decisions to mute. *)
Theorem processNotifications_decisions client cfg ns apply verbose w :
  Z.of_nat (List.length ns) <= maxInt64 ->
  let r := processNotifications client cfg ns apply verbose w in
  let ds := fst (fst r) in
  map Core.Notification_ ds = ns /\
  List.Forall (fun d => classified client cfg (Core.Notification_ d) d) ds /\
  0 <= snd (fst r) <= countAction Core.ActionMute ds.
Proof.
  intros Hlen r ds. subst ds r. unfold processNotifications, bind, ret.
  destruct (processLoop_steps client cfg apply verbose ns initState w)
    as (steps & evs & Hd & Hn & Hc & Hok & _ & _ & _ & _ & He).
  destruct (processLoop client cfg apply verbose ns initState w) as [st w'].
  cbn [fst snd] in *. cbn [decisions initState app] in Hd.
  rewrite Hd, map_map. split; [exact Hn|]. split.
  - apply List.Forall_map. exact Hc.
  - rewrite He by (cbn; lia). cbn [errCount initState].
    pose proof (failures_bounds steps). pose proof (failures_mutes apply steps Hok).
    lia.
Qed.

(** X7.  A dry run changes nothing: without the mutate flag
    [processNotifications] sends only [GET] requests, counts no error, and
    prints exactly one decision row per notification, in order. *)
Theorem dry_run_reads_only client cfg ns verbose w :
  let r := processNotifications client cfg ns false verbose w in
  exists evs,
    trace (snd r) = (trace w ++ evs)%list /\
    (forall req, In (EvDo req) evs -> Method req = "GET") /\
    stdoutOf evs
    = map (fun d => Core.FormatDecisionRow d ++ Core.newline) (fst (fst r)) /\
    map Core.Notification_ (fst (fst r)) = ns /\
    snd (fst r) = 0.
Proof.
  intros r. subst r. unfold processNotifications, bind, ret.
  destruct (processLoop_steps client cfg false verbose ns initState w)
    as (steps & evs & Hd & Hn & _ & Hok & Ht & Ho & Hf & Hz & _).
  destruct (processLoop client cfg false verbose ns initState w) as [st w'].
  cbn [fst snd] in *. cbn [decisions initState app] in Hd.
  exists evs. split; [exact Ht|]. split; [|split; [|split]].
  - intros req Hin. rewrite List.Forall_forall in Hf.
    destruct (Hf _ Hin) as [H|[H _]]; [exact H | discriminate].
  - rewrite Ho, Hd. clear -Hok.
    induction Hok as [|[d m] steps Hs _ IH]; [reflexivity|].
    cbn [map concat fst]. rewrite IH.
    unfold stepOK in Hs. cbn [fst snd] in Hs.
    destruct m as [m|]; [destruct Hs; discriminate | reflexivity].
  - rewrite Hd, map_map. exact Hn.
  - rewrite Hz by (now apply failures_dry). reflexivity.
Qed.


(** X9.  With the mutate flag set, the rows printed are the mutation rows
    of the decisions to mute, in order, one each, and the error count is
    the number of rows that report an error. *)
Theorem mutation_report client cfg ns verbose w :
  Z.of_nat (List.length ns) <= maxInt64 ->
  let r := processNotifications client cfg ns true verbose w in
  exists evs (outcomes : list (Core.Decision * option string)),
    trace (snd r) = (trace w ++ evs)%list /\
    map fst outcomes = List.filter isMute (fst (fst r)) /\
    stdoutOf evs
    = map (fun o => Core.FormatMutationRow (fst o) (snd o) ++ Core.newline)
        outcomes /\
    snd (fst r)
    = Z.of_nat (List.length (List.filter failed outcomes)).
Proof.
  intros Hlen r. subst r. unfold processNotifications, bind, ret.
  destruct (processLoop_steps client cfg true verbose ns initState w)
    as (steps & evs & Hd & _ & _ & Hok & Ht & Ho & _ & _ & He).
  destruct (processLoop client cfg true verbose ns initState w) as [st w'].
  cbn [fst snd] in *. cbn [decisions initState app] in Hd.
  specialize (He ltac:(cbn; lia) ltac:(cbn; lia)). cbn [errCount initState] in He.
  assert (Hout : exists outcomes : list (Core.Decision * option string),
             map fst outcomes = List.filter isMute (map fst steps) /\
             concat (map (rowsOf true) steps)
             = map (fun o => Core.FormatMutationRow (fst o) (snd o) ++ Core.newline)
                 outcomes /\
             failures steps = Z.of_nat (List.length (List.filter failed outcomes))).
  { clear -Hok.
    induction Hok as [|[d m] steps Hs _ (outcomes & H1 & H2 & H3)].
    - exists []. repeat split.
    - unfold stepOK in Hs. cbn [fst snd] in Hs.
      destruct m as [mutErr|].
      + destruct Hs as [_ Hm].
        exists ((d, mutErr) :: outcomes).
        cbn [map List.filter fst snd concat rowsOf failures]. rewrite Hm.
        split; [now rewrite H1|].
        split; [cbn [app]; now rewrite H2|].
        destruct mutErr as [e|]; cbn [failed List.filter snd List.length];
          rewrite ?Nat2Z.inj_succ; lia.
      + exists outcomes. cbn [map List.filter fst snd concat rowsOf failures andb] in *.
        rewrite Hs. cbn [app]. auto. }
  destruct Hout as (outcomes & H1 & H2 & H3).
  exists evs, outcomes. rewrite Hd, Ho, He. auto.
Qed.

End WithLib.
End BatchFacts.

(** ** Facts about one shot and the daemon *)

Module RunFacts.
Import GitHub Main Daemon GitHubSpec GitHubFacts MainSpec MainFacts ClientSpec
  ClientFacts BatchSpec BatchFacts.

Section WithLib.
Context {lib : GoLib}.

Lemma dry_run_no_errors client cfg ns verbose w :
  snd (fst (processNotifications client cfg ns false verbose w)) = 0.
Proof.
  unfold processNotifications, bind, ret.
  destruct (processLoop_steps client cfg false verbose ns initState w)
    as (steps & evs & _ & _ & _ & Hok & _ & _ & _ & Hz & _).
  destruct (processLoop client cfg false verbose ns initState w) as [st w'].
  cbn [fst snd] in *. rewrite Hz by (now apply failures_dry). reflexivity.
Qed.

(** X10.  The exit status of [runOnce] is 0 or 1.  When the listing
    returns an error, [runOnce] returns 1 after writing the error to
    standard error and nothing else; when the listing returns a result and
    mutations are not applied, it returns 0. *)
Theorem runOnce_exit client cfg apply verbose w :
  let listing := ListUnreadNotifications client EmptyString w in
  (forall code,
     fst (runOnce client cfg apply verbose w) = Some code ->
     code = 0 \/ code = 1) /\
  (forall e, fst listing = Some (Err e) ->
     runOnce client cfg apply verbose w
     = (Some 1, snd (Eprint ("Error: " ++ e ++ Core.newline) (snd listing)))) /\
  (forall result, fst listing = Some (Ok result) -> apply = false ->
     fst (runOnce client cfg apply verbose w) = Some 0).
Proof.
  intros listing. subst listing. unfold runOnce, bind.
  destruct (ListUnreadNotifications client EmptyString w) as [o w1].
  cbn [fst snd].
  destruct o as [[result|e]|].
  - destruct (NotModified result || (len (Notifications result) =? 0)).
    + cbn. split; [intros code H; inversion H; auto|].
      split; [intros; discriminate | reflexivity].
    + destruct (when verbose _ w1) as [u w2].
      destruct (when (negb apply) _ w2) as [u' w3].
      pose proof (dry_run_no_errors client cfg (Notifications result) verbose w3)
        as Hdry.
      destruct apply.
      * destruct (processNotifications client cfg (Notifications result) true
                    verbose w3) as [[ds errs] w4].
        cbn [fst snd]. destruct (Core.CountByAction ds) as [[skip keep] mute].
        unfold Println, emit, ret.
        destruct (0 <? errs); cbn;
          (split; [intros code H; inversion H; auto|];
           split; intros; discriminate).
      * destruct (processNotifications client cfg (Notifications result) false
                    verbose w3) as [[ds errs] w4].
        cbn [fst snd] in *. subst errs.
        destruct (Core.CountByAction ds) as [[skip keep] mute].
        unfold Println, emit, ret. cbn.
        split; [intros code H; inversion H; auto|].
        split; [intros; discriminate | reflexivity].
  - unfold Eprint, emit, ret. cbn.
    split; [intros code H; inversion H; auto|]. split.
    + intros e' H. inversion H; subst. reflexivity.
    + intros; discriminate.
  - cbn. split; [intros; discriminate|].
    split; intros; discriminate.
Qed.

(** Over a finite script one cycle of the daemon completes; it keeps a
    positive interval positive and a known token known, and a failed
    listing leaves the cycle state as it was. *)
Lemma runDaemonCycle_state client cfg apply verbose ts cs w :
  exists cs',
    fst (runDaemonCycle client cfg apply verbose ts cs w) = Some cs' /\
    (0 < pollInterval cs -> 0 < pollInterval cs') /\
    (lastModified cs <> EmptyString -> lastModified cs' <> EmptyString) /\
    (forall e,
       fst (ListUnreadNotifications client (lastModified cs) w) = Some (Err e) ->
       cs' = cs).
Proof.
  unfold runDaemonCycle, bind.
  destruct (ListUnreadNotifications_returns client (lastModified cs) w)
    as (r & w1 & Hl).
  rewrite Hl. cbn [fst snd].
  destruct r as [result|e].
  - set (cs' := {| pollInterval := _; lastModified := _ |}).
    assert (Hp : 0 < pollInterval cs -> 0 < pollInterval cs').
    { subst cs'. cbn. destruct (Z.ltb_spec 0 (PollInterval result)); auto. }
    assert (Hm : lastModified cs <> EmptyString -> lastModified cs' <> EmptyString).
    { subst cs'. cbn.
      destruct (LastModified result) eqn:E; cbn; [auto | discriminate]. }
    exists cs'.
    destruct (NotModified result || (len (Notifications result) =? 0)).
    + destruct verbose; cbn; repeat split; auto; intros; discriminate.
    + destruct (processNotifications client cfg (Notifications result) apply
                  verbose w1) as [[ds errs] w2].
      cbn [fst snd]. destruct (Core.CountByAction ds) as [[skip keep] mute].
      cbn. repeat split; auto; intros; discriminate.
  - exists cs. cbn. repeat split; auto.
Qed.

Lemma daemonLoop_state client cfg apply verbose schedule : forall cs w,
  let r := daemonLoop client cfg apply verbose schedule cs w in
  (0 < pollInterval cs -> 0 < pollInterval (snd (fst r))) /\
  (fst (fst r) = None \/ fst (fst r) = Some 0) /\
  (fst (fst r) = Some 0 <-> exists ts s, In (ts, Signal s) schedule).
Proof.
  induction schedule as [|[ts wake] schedule IH]; intros cs w r; subst r.
  - cbn. split; [auto|]. split; [auto|].
    split; [discriminate | intros (ts & s & [])].
  - cbn [daemonLoop]. unfold bind.
    destruct (runDaemonCycle_state client cfg apply verbose ts cs w)
      as (cs' & Hc & Hp & _).
    destruct (runDaemonCycle client cfg apply verbose ts cs w) as [o w1].
    cbn [fst] in Hc. subst o.
    destruct wake as [|s].
    + unfold Sleep, emit. cbn [fst snd].
      destruct (IH cs' {| replies := replies w1;
                          trace := (trace w1 ++ [EvSleep (pollInterval cs')])%list |})
        as (Hp' & Hcode & Hiff).
      split; [auto|]. split; [exact Hcode|].
      rewrite Hiff. split.
      * intros (ts' & s' & Hin). exists ts', s'. now right.
      * intros (ts' & s' & [Heq|Hin]); [discriminate | now exists ts', s'].
    + unfold logPrintf, emit, ret. cbn.
      split; [exact Hp|]. split; [auto|].
      split; [intros _; exists ts, s; now left | reflexivity].
Qed.

(** X12.  A cycle of the daemon keeps a positive interval positive and a
    known token known.  When the listing returns an error the cycle logs
    it, does nothing else and leaves the cycle state as it was; when the
    listing returns a result the cycle ends in the state that takes the
    interval and the token of the result where the result has them. *)
Theorem runDaemonCycle_keeps client cfg apply verbose ts cs w :
  let listing := ListUnreadNotifications client (lastModified cs) w in
  (forall cs',
     fst (runDaemonCycle client cfg apply verbose ts cs w) = Some cs' ->
     (0 < pollInterval cs -> 0 < pollInterval cs') /\
     (lastModified cs <> EmptyString -> lastModified cs' <> EmptyString)) /\
  (forall e, fst listing = Some (Err e) ->
     runDaemonCycle client cfg apply verbose ts cs w
     = (Some cs, snd (logPrintf ("cycle error: " ++ e) (snd listing)))) /\
  (forall result, fst listing = Some (Ok result) ->
     fst (runDaemonCycle client cfg apply verbose ts cs w)
     = Some (learn cs result)).
Proof.
  intros listing. subst listing.
  assert (Hlearn : forall result,
            (0 < pollInterval cs -> 0 < pollInterval (learn cs result)) /\
            (lastModified cs <> EmptyString ->
             lastModified (learn cs result) <> EmptyString)).
  { intros result. unfold learn. cbn [pollInterval lastModified]. split.
    - destruct (Z.ltb_spec 0 (PollInterval result)); auto.
    - destruct (LastModified result) eqn:E; cbn; [auto | discriminate]. }
  assert (Hok : forall result,
            fst (ListUnreadNotifications client (lastModified cs) w)
            = Some (Ok result) ->
            fst (runDaemonCycle client cfg apply verbose ts cs w)
            = Some (learn cs result)).
  { intros result. unfold runDaemonCycle, bind.
    destruct (ListUnreadNotifications client (lastModified cs) w) as [o w1].
    cbn [fst]. intros ->.
    destruct (NotModified result || (len (Notifications result) =? 0)).
    - destruct verbose; reflexivity.
    - destruct (processNotifications client cfg (Notifications result) apply
                  verbose w1) as [[ds errs] w2].
      cbn [fst snd]. destruct (Core.CountByAction ds) as [[skip keep] mute].
      reflexivity. }
  assert (Herr : forall e,
            fst (ListUnreadNotifications client (lastModified cs) w)
            = Some (Err e) ->
            runDaemonCycle client cfg apply verbose ts cs w
            = (Some cs,
               snd (logPrintf ("cycle error: " ++ e)
                      (snd (ListUnreadNotifications client (lastModified cs)
                              w))))).
  { intros e. unfold runDaemonCycle, bind.
    destruct (ListUnreadNotifications client (lastModified cs) w) as [o w1].
    cbn [fst snd]. intros ->. reflexivity. }
  split; [|split; [exact Herr | exact Hok]].
  intros cs' Hcs.
  destruct (fst (ListUnreadNotifications client (lastModified cs) w))
    as [[result|e]|] eqn:Hl.
  - rewrite (Hok result eq_refl) in Hcs. inversion Hcs; subst.
    apply Hlearn.
  - rewrite (Herr e eq_refl) in Hcs. cbn [fst] in Hcs. inversion Hcs; subst.
    auto.
  - exfalso. revert Hcs Hl. unfold runDaemonCycle, bind.
    destruct (ListUnreadNotifications client (lastModified cs) w) as [o w1].
    cbn [fst]. intros Hcs ->. discriminate Hcs.
Qed.

(** X11.  The daemon ends only on a signal, and then with status 0: it ends
    exactly when the schedule holds a signal, whatever the server answers.
    The interval it waits stays positive. *)
Theorem runDaemon_ends_on_signal client cfg apply verbose schedule w :
  let r := runDaemon client cfg apply verbose schedule w in
  0 < pollInterval (snd (fst r)) /\
  (fst (fst r) = None \/ fst (fst r) = Some 0) /\
  (fst (fst r) = Some 0 <-> exists ts s, In (ts, Signal s) schedule).
Proof.
  intros r. subst r. unfold runDaemon, bind, logPrintf, emit.
  destruct (daemonLoop_state client cfg apply verbose schedule daemonStart
              {| replies := replies w;
                 trace := (trace w ++ [EvLog "daemon started (poll interval: 1m0s)"])%list |})
    as (Hp & Hcode & Hiff).
  split; [|split; assumption].
  apply Hp. reflexivity.
Qed.

End WithLib.
End RunFacts.

(** ** More facts about the classifier *)

Module ClassifierFacts.
Import Core CoreSpec CoreFacts StringsSpec StringsFacts BatchSpec.

Section WithLib.
Context {lib : GoLib}.

(** *** Counting *)

Lemma countAction_bounds (a : Action) (ds : list Decision) :
  0 <= countAction a ds <= Z.of_nat (List.length ds).
Proof.
  induction ds as [|d ds IH]; cbn [countAction List.length];
    rewrite ?Nat2Z.inj_succ; [lia|].
  destruct (Action_ d =? a); lia.
Qed.

Lemma countStep_counts (ds : list Decision) : forall skip keep mute,
  0 <= skip -> 0 <= keep -> 0 <= mute ->
  skip + Z.of_nat (List.length ds) <= maxInt64 ->
  keep + Z.of_nat (List.length ds) <= maxInt64 ->
  mute + Z.of_nat (List.length ds) <= maxInt64 ->
  fold_left countStep ds (skip, keep, mute)
  = (skip + countAction ActionSkip ds,
     keep + countAction ActionKeep ds,
     mute + countAction ActionMute ds).
Proof.
  induction ds as [|d ds IH]; intros skip keep mute Hs Hk Hm Bs Bk Bm.
  - cbn. now rewrite !Z.add_0_r.
  - change (List.length (d :: ds)) with (S (List.length ds)) in *.
    rewrite Nat2Z.inj_succ in *.
    assert (Hw : forall x, 0 <= x -> x + 1 <= maxInt64 -> wrap64 (x + 1) = x + 1).
    { intros x H0 H1. apply wrap64_small.
      unfold inInt64, minInt64, maxInt64 in *. lia. }
    cbn [fold_left countAction]. unfold countStep at 2.
    unfold ActionSkip, ActionKeep, ActionMute in *.
    destruct (Z.eqb_spec (Action_ d) 0) as [E0|E0];
      destruct (Z.eqb_spec (Action_ d) 1) as [E1|E1];
      destruct (Z.eqb_spec (Action_ d) 2) as [E2|E2]; try lia;
      rewrite ?Hw by lia; rewrite IH by lia;
      repeat (f_equal; try lia).
Qed.

(** X13.  Each counter of [CountByAction] is the number of decisions with
    that action; a decision with any other action value is counted
    nowhere, so the counters add up to at most the number of decisions. *)
Theorem CountByAction_exact (ds : list Decision) :
  Z.of_nat (List.length ds) <= maxInt64 ->
  CountByAction ds
  = (countAction ActionSkip ds, countAction ActionKeep ds,
     countAction ActionMute ds) /\
  countAction ActionSkip ds + countAction ActionKeep ds
  + countAction ActionMute ds <= Z.of_nat (List.length ds).
Proof.
  intros Hlen. split.
  - unfold CountByAction. rewrite countStep_counts by lia. reflexivity.
  - clear Hlen. induction ds as [|d ds IH]; cbn [countAction List.length];
      rewrite ?Nat2Z.inj_succ; [lia|].
    unfold ActionSkip, ActionKeep, ActionMute in *.
    destruct (Z.eqb_spec (Action_ d) 0); destruct (Z.eqb_spec (Action_ d) 1);
      destruct (Z.eqb_spec (Action_ d) 2); lia.
Qed.

(** *** The decision, read backwards *)

(** X14.  [Classify] mutes only a pull-request review request that passes
    the org filter, comes with reviewer data and does not name the acting
    user; it keeps only one that names the acting user.  In particular it
    never mutes without reviewer data. *)
Theorem Classify_action_iff n reviewers login cfg :
  (Action_ (Classify n reviewers login cfg) = ActionMute <->
   MatchesOrgFilter n cfg = true /\ Reason n = reviewRequested /\
   Type_ (Subject_ n) = pullRequest /\
   exists r, reviewers = Some r /\ ~ requestedDirectly login r) /\
  (Action_ (Classify n reviewers login cfg) = ActionKeep <->
   MatchesOrgFilter n cfg = true /\ Reason n = reviewRequested /\
   Type_ (Subject_ n) = pullRequest /\
   exists r, reviewers = Some r /\ requestedDirectly login r).
Proof.
  unfold Classify, requestedDirectly, reviewRequested, pullRequest.
  destruct (MatchesOrgFilter n cfg); cbn [negb].
  2:{ cbn. split; split; try discriminate; intros (H & _); discriminate. }
  destruct (String.eqb_spec (Reason n) "review_requested") as [Hr|Hr]; cbn [negb orb].
  2:{ cbn. split; split; try discriminate; intros (_ & H & _); contradiction. }
  destruct (String.eqb_spec (Type_ (Subject_ n)) "PullRequest") as [Ht|Ht]; cbn [negb].
  2:{ cbn. split; split; try discriminate; intros (_ & _ & H & _); contradiction. }
  destruct reviewers as [r|].
  2:{ cbn. split; split; try discriminate; intros (_ & _ & _ & r & H & _);
      discriminate. }
  destruct (anyUserIs (Users r) login) eqn:E; cbn.
  - apply anyUserIs_true in E. split; split.
    + discriminate.
    + intros (_ & _ & _ & r' & Hr' & Hn). inversion Hr'; subst. contradiction.
    + intros _. split; [reflexivity|]. split; [assumption|].
      split; [assumption|]. exists r. split; [reflexivity | assumption].
    + reflexivity.
  - assert (Hn : ~ exists user, In user (Users r) /\
                     Strings.EqualFold user login = true).
    { intros H. apply anyUserIs_true in H. congruence. }
    split; split.
    + intros _. split; [reflexivity|]. split; [assumption|].
      split; [assumption|]. exists r. split; [reflexivity | assumption].
    + reflexivity.
    + discriminate.
    + intros (_ & _ & _ & r' & Hr' & Hd). inversion Hr'; subst. contradiction.
Qed.

(** *** Case *)

Lemma anyUserIs_ascii (users : list string) (login : string) :
  List.Forall (fun u => isASCII u = true) users -> isASCII login = true ->
  anyUserIs users login
  = existsb (fun u => String.eqb u (toLower login)) (map toLower users).
Proof.
  intros Hu Hl. induction Hu as [|u users Hu _ IH]; cbn [anyUserIs map existsb];
    [reflexivity|].
  rewrite (EqualFold_ascii u login Hu Hl), IH.
  destruct (String.eqb (toLower u) (toLower login)); reflexivity.
Qed.

(** X15.  On ASCII names the decision does not depend on letter case:
    reviewer sets whose user lists agree up to case, and logins that agree
    up to case, get the same decision. *)
Theorem Classify_case_insensitive n cfg (r r' : Reviewers) (login login' : string) :
  List.Forall (fun u => isASCII u = true) (Users r) ->
  List.Forall (fun u => isASCII u = true) (Users r') ->
  isASCII login = true -> isASCII login' = true ->
  map toLower (Users r) = map toLower (Users r') ->
  toLower login = toLower login' ->
  Classify n (Some r) login cfg = Classify n (Some r') login' cfg.
Proof.
  intros Hr Hr' Hl Hl' Hu Hlog. unfold Classify.
  rewrite (anyUserIs_ascii _ _ Hr Hl), (anyUserIs_ascii _ _ Hr' Hl'), Hu, Hlog.
  reflexivity.
Qed.

(** *** Labels *)

(** X16.  The label of a row is the repository name followed by [#] and
    the number when the subject is a pull reference, whatever the spelling
    of the number, and the repository name alone when it is an issue
    reference. *)
Theorem formatLabel_reference (d : Decision) (o r num : string) :
  slashFree o -> slashFree r ->
  (forall n, IntLiteral num n ->
     URL (Subject_ (Notification_ d)) = pullURL o r num ->
     formatLabel d
     = FullName (Repository_ (Notification_ d)) ++ "#" ++ itoa n) /\
  (URL (Subject_ (Notification_ d)) = issueURL o r num ->
   formatLabel d = FullName (Repository_ (Notification_ d))).
Proof.
  intros Ho Hr. split.
  - intros n Hn Hu. unfold formatLabel.
    rewrite Hu, (ParseSubjectURL_pull o r num n Ho Hr Hn). reflexivity.
  - intros Hu. unfold formatLabel, issueURL in *.
    rewrite Hu, ParseSubjectURL_refURL by (assumption || reflexivity).
    destruct (Strings.Split num "/") as [|p3 [|p4 rest]]; reflexivity.
Qed.

End WithLib.
End ClassifierFacts.

(** ** Facts about the whole run *)

Module EntryFacts.
Import GitHub Main Daemon Entry GitHubSpec GitHubFacts MainSpec MainFacts.
Import ClientSpec ClientFacts BatchSpec BatchFacts EntrySpec.

Section WithLib.
Context {lib : GoLib}.

Lemma emits_listPage c lastModified page all result :
  emits readOnly (listPage c lastModified page all result).
Proof.
  unfold listPage, NewRequest.
  destruct (urlError _); [apply emits_ret|].
  match goal with
  | |- context [httpDo ?r] => set (req := r)
  end.
  assert (Hreq : readOnly (EvDo req)).
  { subst req. destruct (_ && _); reflexivity. }
  apply emits_bind; [now apply emits_httpDo|].
  intros [resp|e]; [|apply emits_ret].
  destruct (isRateLimited resp); [|apply emits_ret].
  apply emits_bind; [now apply emits_emit|]. intros _.
  apply emits_bind; [now apply emits_httpDo|].
  intros [resp2|e]; apply emits_ret.
Qed.

Lemma emits_listLoop (fuel : nat) : forall c lastModified page all result,
  emits readOnly (listLoop fuel c lastModified page all result).
Proof.
  induction fuel as [|fuel IH]; intros c lastModified page all result;
    cbn [listLoop]; [apply emits_ret|].
  apply emits_bind; [apply emits_listPage|].
  intros [result' [r| |all']]; [apply emits_ret | apply emits_ret | apply IH].
Qed.

Lemma emits_ListUnreadNotifications c lastModified :
  emits readOnly (ListUnreadNotifications c lastModified).
Proof.
  intros w. unfold ListUnreadNotifications. apply emits_listLoop.
Qed.

Lemma emits_processNotifications_dry client cfg ns verbose :
  emits readOnly (processNotifications client cfg ns false verbose).
Proof.
  intros w. unfold processNotifications, bind, ret.
  destruct (processLoop_steps client cfg false verbose ns initState w)
    as (steps & evs & _ & _ & _ & _ & Ht & _ & Hf & _).
  destruct (processLoop client cfg false verbose ns initState w) as [st w'].
  cbn [fst snd] in *. exists evs. split; [exact Ht|].
  apply (List.Forall_impl _ (P := touchesOnly false (map fst steps)));
    [|exact Hf].
  intros [req| | | | |]; cbn; auto.
  intros [H|[H _]]; [exact H | discriminate].
Qed.

Lemma emits_runOnce_dry client cfg verbose :
  emits readOnly (runOnce client cfg false verbose).
Proof.
  unfold runOnce.
  apply emits_bind; [apply emits_ListUnreadNotifications|].
  intros [[result|e]|]; [| |apply emits_ret].
  2:{ apply emits_bind; [now apply emits_emit | intros; apply emits_ret]. }
  destruct (_ || _).
  { apply emits_bind; [now apply emits_emit | intros; apply emits_ret]. }
  apply emits_bind; [apply emits_when; now apply emits_emit|]. intros _.
  apply emits_bind.
  { apply emits_when, emits_bind; [now apply emits_emit|].
    intros _. now apply emits_emit. }
  intros _.
  apply emits_bind; [apply emits_processNotifications_dry|].
  intros [ds errs]. cbn [fst snd].
  destruct (Core.CountByAction ds) as [[skip keep] mute].
  apply emits_bind; [now apply emits_emit|]. intros _.
  destruct (0 <? errs); apply emits_ret.
Qed.

Lemma emits_runDaemonCycle_dry client cfg verbose ts cs :
  emits readOnly (runDaemonCycle client cfg false verbose ts cs).
Proof.
  unfold runDaemonCycle.
  apply emits_bind; [apply emits_ListUnreadNotifications|].
  intros [[result|e]|]; [| |apply emits_ret].
  2:{ apply emits_bind; [now apply emits_emit | intros; apply emits_ret]. }
  destruct (_ || _).
  { apply emits_bind; [apply emits_when; now apply emits_emit|].
    intros; apply emits_ret. }
  apply emits_bind; [apply emits_processNotifications_dry|].
  intros [ds errs]. cbn [fst snd].
  destruct (Core.CountByAction ds) as [[skip keep] mute].
  apply emits_bind; [now apply emits_emit | intros; apply emits_ret].
Qed.

Lemma emits_daemonLoop_dry client cfg verbose schedule : forall cs,
  emits readOnly (daemonLoop client cfg false verbose schedule cs).
Proof.
  induction schedule as [|[ts wake] schedule IH]; intros cs; cbn [daemonLoop];
    [apply emits_ret|].
  apply emits_bind; [apply emits_runDaemonCycle_dry|].
  intros [cs'|]; [|apply emits_ret].
  destruct wake as [|s].
  - apply emits_bind; [now apply emits_emit | intros _; apply IH].
  - apply emits_bind; [now apply emits_emit | intros; apply emits_ret].
Qed.

Lemma emits_FetchLogin c : emits readOnly (FetchLogin c).
Proof.
  unfold FetchLogin. apply emits_bind.
  { apply (emits_weaken (exchangeAt "GET" "https://api.github.com/user"));
      [|apply emits_do_at].
    intros [req| | | | |]; cbn; tauto. }
  intros [resp|e]; [|apply emits_ret].
  destruct (negb _); [apply emits_ret|].
  destruct (asUser _); apply emits_ret.
Qed.

(** *** Headers *)

Lemma standard_doAttempt c attempt method url body :
  emits (standard (token c)) (doAttempt c attempt method url body).
Proof.
  unfold doAttempt, NewRequest.
  destruct (urlError url); [apply emits_ret|].
  apply emits_bind.
  { apply emits_httpDo. split; [reflexivity|]. split; reflexivity. }
  intros [resp|e]; [|apply emits_ret].
  destruct (_ && _); [|apply emits_ret].
  apply emits_bind; [now apply emits_emit | intros; apply emits_ret].
Qed.

Lemma standard_do c method url body :
  emits (standard (token c)) (do c method url body).
Proof.
  unfold do. apply emits_bind; [apply standard_doAttempt|].
  intros [_|res]; [|apply emits_ret].
  apply emits_bind; [apply standard_doAttempt|].
  intros [_|res]; apply emits_ret.
Qed.

Lemma standard_listPage c lastModified page all result :
  emits (standard (token c)) (listPage c lastModified page all result).
Proof.
  unfold listPage, NewRequest.
  destruct (urlError _); [apply emits_ret|].
  match goal with
  | |- context [httpDo ?r] => set (req := r)
  end.
  assert (Hreq : standard (token c) (EvDo req)).
  { subst req. destruct (_ && _);
      (split; [reflexivity|]; split; reflexivity). }
  apply emits_bind; [now apply emits_httpDo|].
  intros [resp|e]; [|apply emits_ret].
  destruct (isRateLimited resp); [|apply emits_ret].
  apply emits_bind; [now apply emits_emit|]. intros _.
  apply emits_bind; [now apply emits_httpDo|].
  intros [resp2|e]; apply emits_ret.
Qed.

Lemma standard_listLoop (fuel : nat) : forall c lastModified page all result,
  emits (standard (token c)) (listLoop fuel c lastModified page all result).
Proof.
  induction fuel as [|fuel IH]; intros c lastModified page all result;
    cbn [listLoop]; [apply emits_ret|].
  apply emits_bind; [apply standard_listPage|].
  intros [result' [r| |all']]; [apply emits_ret | apply emits_ret | apply IH].
Qed.

Lemma standard_ListUnreadNotifications c lastModified :
  emits (standard (token c)) (ListUnreadNotifications c lastModified).
Proof.
  intros w. unfold ListUnreadNotifications. apply standard_listLoop.
Qed.

Lemma standard_FetchLogin c : emits (standard (token c)) (FetchLogin c).
Proof.
  unfold FetchLogin. apply emits_bind; [apply standard_do|].
  intros [resp|e]; [|apply emits_ret].
  destruct (negb _); [apply emits_ret|].
  destruct (asUser _); apply emits_ret.
Qed.

Lemma FetchLogin_token c w : token (fst (fst (FetchLogin c w))) = token c.
Proof.
  unfold FetchLogin, bind.
  destruct (do c "GET" "https://api.github.com/user" EmptyString w)
    as [[resp|e] w1]; [|reflexivity].
  destruct (negb _); [reflexivity|].
  destruct (asUser _); reflexivity.
Qed.

Lemma standard_GetRequestedReviewers c subjectURL :
  emits (standard (token c)) (GetRequestedReviewers c subjectURL).
Proof.
  unfold GetRequestedReviewers.
  destruct (Core.ParseSubjectURL subjectURL) as [ref|e]; [|apply emits_ret].
  apply emits_bind; [apply standard_do|].
  intros [resp|e]; [|apply emits_ret].
  destruct (negb _); [apply emits_ret|].
  destruct (asReviewers _); apply emits_ret.
Qed.

Lemma standard_mutate c threadID :
  emits (standard (token c)) (mutate c threadID).
Proof.
  unfold mutate, MarkThreadRead, IgnoreThread.
  apply emits_bind.
  - apply emits_bind; [apply standard_do|].
    intros [resp|e]; [|apply emits_ret]. destruct (_ && _); apply emits_ret.
  - intros [e|]; [apply emits_ret|].
    apply emits_bind; [apply standard_do|].
    intros [resp|e]; [|apply emits_ret]. destruct (_ && _); apply emits_ret.
Qed.

Lemma standard_processOne c cfg apply verbose st n :
  emits (standard (token c)) (processOne c cfg apply verbose st n).
Proof.
  unfold processOne. apply emits_bind.
  { unfold fetchIfNeeded.
    destruct (Core.NeedsReviewerLookup n cfg); [|apply emits_ret].
    destruct (reviewersByURL st !! _); [apply emits_ret|].
    apply emits_bind; [apply standard_GetRequestedReviewers|].
    intros r. apply emits_bind; [now apply emits_emit|]. intros _.
    destruct r as [reviewers|e]; [apply emits_ret|].
    apply emits_bind; [|intros; apply emits_ret].
    apply emits_when. now apply emits_emit. }
  intros byURL. cbv zeta.
  destruct (apply && _).
  { apply emits_bind; [apply standard_mutate|]. intros mutErr.
    apply emits_bind; [now apply emits_emit | intros; apply emits_ret]. }
  destruct (negb apply); [|apply emits_ret].
  apply emits_bind; [now apply emits_emit | intros; apply emits_ret].
Qed.

Lemma standard_processNotifications c cfg ns apply verbose :
  emits (standard (token c)) (processNotifications c cfg ns apply verbose).
Proof.
  unfold processNotifications.
  apply emits_bind; [|intros; apply emits_ret].
  generalize initState. induction ns as [|n ns IH]; intros st;
    cbn [processLoop]; [apply emits_ret|].
  apply emits_bind; [apply standard_processOne | intros st'; apply IH].
Qed.

Lemma standard_runOnce c cfg apply verbose :
  emits (standard (token c)) (runOnce c cfg apply verbose).
Proof.
  unfold runOnce.
  apply emits_bind; [apply standard_ListUnreadNotifications|].
  intros [[result|e]|]; [| |apply emits_ret].
  2:{ apply emits_bind; [now apply emits_emit | intros; apply emits_ret]. }
  destruct (_ || _).
  { apply emits_bind; [now apply emits_emit | intros; apply emits_ret]. }
  apply emits_bind; [apply emits_when; now apply emits_emit|]. intros _.
  apply emits_bind.
  { apply emits_when, emits_bind; [now apply emits_emit|].
    intros _. now apply emits_emit. }
  intros _.
  apply emits_bind; [apply standard_processNotifications|].
  intros [ds errs]. cbn [fst snd].
  destruct (Core.CountByAction ds) as [[skip keep] mute].
  apply emits_bind; [now apply emits_emit|]. intros _.
  destruct (0 <? errs); apply emits_ret.
Qed.

Lemma standard_runDaemonCycle c cfg apply verbose ts cs :
  emits (standard (token c)) (runDaemonCycle c cfg apply verbose ts cs).
Proof.
  unfold runDaemonCycle.
  apply emits_bind; [apply standard_ListUnreadNotifications|].
  intros [[result|e]|]; [| |apply emits_ret].
  2:{ apply emits_bind; [now apply emits_emit | intros; apply emits_ret]. }
  destruct (_ || _).
  { apply emits_bind; [apply emits_when; now apply emits_emit|].
    intros; apply emits_ret. }
  apply emits_bind; [apply standard_processNotifications|].
  intros [ds errs]. cbn [fst snd].
  destruct (Core.CountByAction ds) as [[skip keep] mute].
  apply emits_bind; [now apply emits_emit | intros; apply emits_ret].
Qed.

Lemma standard_runDaemon c cfg apply verbose schedule :
  emits (standard (token c)) (runDaemon c cfg apply verbose schedule).
Proof.
  unfold runDaemon.
  apply emits_bind; [now apply emits_emit | intros _].
  generalize daemonStart.
  induction schedule as [|[ts wake] schedule IH]; intros cs; cbn [daemonLoop];
    [apply emits_ret|].
  apply emits_bind; [apply standard_runDaemonCycle|].
  intros [cs'|]; [|apply emits_ret].
  destruct wake as [|s].
  - apply emits_bind; [now apply emits_emit | intros _; apply IH].
  - apply emits_bind; [now apply emits_emit | intros; apply emits_ret].
Qed.

(** X22.  Every request of the program is authenticated: whatever the flags
    and the server's answers, each request [run] sends carries the token of
    [GH_TOKEN] as bearer, the GitHub media type and the API version. *)
Theorem run_requests_standard flags env schedule w :
  exists evs,
    trace (snd (run flags env schedule w)) = (trace w ++ evs)%list /\
    forall req, In (EvDo req) evs ->
      Get (ReqHeader req) "Accept" = "application/vnd.github+json" /\
      Get (ReqHeader req) "Authorization" = "Bearer " ++ env /\
      Get (ReqHeader req) "X-GitHub-Api-Version" = "2022-11-28".
Proof.
  assert (H : emits (standard env) (run flags env schedule)).
  { unfold run, resolveToken.
    destruct (negb (Core.nonEmpty env)).
    { apply emits_bind; [now apply emits_emit | intros; apply emits_ret]. }
    intros w0. unfold bind at 1.
    pose proof (FetchLogin_token (NewGitHubClient env) w0) as Htok.
    pose proof (standard_FetchLogin (NewGitHubClient env) w0)
      as (evs1 & Ht1 & Hf1).
    cbn [token NewGitHubClient] in Htok, Hf1.
    destruct (FetchLogin (NewGitHubClient env) w0) as [[client o] w1].
    cbn [fst snd] in *. subst env.
    assert (Hrest : forall (k : M (option Z)),
              emits (standard (token client)) k ->
              exists evs,
                trace (snd (k w1)) = (trace w0 ++ evs)%list /\
                List.Forall (standard (token client)) evs).
    { intros k Hk. destruct (Hk w1) as (evs2 & Ht2 & Hf2).
      exists (evs1 ++ evs2)%list. rewrite Ht2, Ht1, <- app_assoc.
      split; [reflexivity | now apply List.Forall_app]. }
    apply Hrest.
    destruct o as [e|].
    { apply emits_bind; [now apply emits_emit | intros; apply emits_ret]. }
    apply emits_bind; [apply emits_when; now apply emits_emit|]. intros _.
    destruct (flagDaemon flags); [|apply standard_runOnce].
    apply emits_bind; [apply standard_runDaemon | intros; apply emits_ret]. }
  destruct (H w) as (evs & Ht & Hf). exists evs. split; [exact Ht|].
  intros req Hin. rewrite List.Forall_forall in Hf. exact (Hf _ Hin).
Qed.

(** X19.  Dry run is the default and it holds for the whole program:
    without the apply flag [run] sends only [GET] requests, in one-shot and
    in daemon mode, whatever the server answers. *)
Theorem run_dry_by_default flags env schedule w :
  flagApply flags = false ->
  exists evs,
    trace (snd (run flags env schedule w)) = (trace w ++ evs)%list /\
    forall req, In (EvDo req) evs -> Method req = "GET".
Proof.
  intros Ha.
  assert (H : emits readOnly (run flags env schedule)).
  { unfold run. rewrite Ha.
    destruct (resolveToken env) as [tok|e].
    2:{ apply emits_bind; [now apply emits_emit | intros; apply emits_ret]. }
    apply emits_bind; [apply emits_FetchLogin|].
    intros [client [e|]]; cbn [fst snd].
    { apply emits_bind; [now apply emits_emit | intros; apply emits_ret]. }
    apply emits_bind; [apply emits_when; now apply emits_emit|]. intros _.
    destruct (flagDaemon flags); [|apply emits_runOnce_dry].
    apply emits_bind; [|intros; apply emits_ret].
    unfold runDaemon.
    apply emits_bind; [now apply emits_emit | intros _].
    apply emits_daemonLoop_dry. }
  destruct (H w) as (evs & Ht & Hf). exists evs. split; [exact Ht|].
  intros req Hin. rewrite List.Forall_forall in Hf. exact (Hf _ Hin).
Qed.

(** X20.  [run] does nothing without credentials: with [GH_TOKEN] unset it
    exits with status 1 after a message on standard error and no request;
    when the login cannot be fetched it exits with status 1 after the
    exchange with the user URL and the error on standard error. *)
Theorem run_needs_login flags env schedule w :
  (env = EmptyString ->
   exists msg,
     run flags env schedule w
     = (Some 1, {| replies := replies w;
                   trace := (trace w ++ [EvStderr msg])%list |})) /\
  (forall e, env <> EmptyString ->
     snd (fst (FetchLogin (NewGitHubClient env) w)) = Some e ->
     run flags env schedule w
     = (Some 1,
        snd (Eprint ("Error: " ++ e ++ Core.newline)
               (snd (FetchLogin (NewGitHubClient env) w))))).
Proof.
  split.
  - intros ->. eexists. reflexivity.
  - intros e Hne He. unfold run, resolveToken.
    apply CoreFacts.nonEmpty_true in Hne. rewrite Hne. cbn [negb].
    unfold bind at 1.
    destruct (FetchLogin (NewGitHubClient env) w) as [[client o] w1].
    cbn [fst snd] in *. subst o. reflexivity.
Qed.

End WithLib.
End EntryFacts.

(** ** Worked examples *)

Module Cases.
Import GitHub Main Examples.

(** C1 at a concrete input: a review request that names the acting user,
    in another case, is kept. *)
Lemma Classify_cases_witness :
  Core.MatchesOrgFilter (lib := asciiLib) nA cfgOrgs = true /\
  Core.Reason nA = CoreSpec.reviewRequested /\
  Core.Type_ (Core.Subject_ nA) = CoreSpec.pullRequest /\
  CoreSpec.requestedDirectly (lib := asciiLib) "ME" rA /\
  Core.Action_ (Core.Classify (lib := asciiLib) nA (Some rA) "ME" cfgOrgs)
  = Core.ActionKeep.
Proof.
  assert (Hf : Core.MatchesOrgFilter (lib := asciiLib) nA cfgOrgs = true)
    by reflexivity.
  assert (Hd : CoreSpec.requestedDirectly (lib := asciiLib) "ME" rA).
  { exists "me". split; [simpl; auto | reflexivity]. }
  split; [exact Hf|]. split; [reflexivity|]. split; [reflexivity|].
  split; [exact Hd|].
  destruct (CoreFacts.Classify_cases (lib := asciiLib) nA (Some rA) "ME" cfgOrgs)
    as [_ H].
  destruct (H Hf eq_refl eq_refl) as (_ & Hkeep & _).
  exact (Hkeep rA eq_refl Hd).
Defined.

(** C2 at a concrete input: a mention needs no lookup and is skipped. *)
Lemma NeedsReviewerLookup_spec_witness :
  Core.NeedsReviewerLookup (lib := asciiLib) nC cfg0 = false /\
  Core.Action_ (Core.Classify (lib := asciiLib) nC (Some rA) "me" cfg0)
  = Core.ActionSkip.
Proof.
  assert (Hn : Core.NeedsReviewerLookup (lib := asciiLib) nC cfg0 = false)
    by reflexivity.
  split; [exact Hn|].
  destruct (CoreFacts.NeedsReviewerLookup_spec (lib := asciiLib) nC cfg0)
    as (_ & Hskip & _).
  exact (Hskip Hn (Some rA) "me").
Defined.

(** C3 refuted as stated: identifiers that are not positive parse. *)
Lemma ParseSubjectURL_accepts_nonpositive :
  Core.ParseSubjectURL (lib := asciiLib)
    "https://api.github.com/repos/org/repo/pulls/0"
  = Ok {| Core.RefOwner := "org"; Core.RefRepo := "repo"; Core.Number := 0 |} /\
  Core.ParseSubjectURL (lib := asciiLib)
    "https://api.github.com/repos/org/repo/pulls/-7"
  = Ok {| Core.RefOwner := "org"; Core.RefRepo := "repo"; Core.Number := -7 |}.
Proof.
  split; reflexivity.
Qed.

(** C3 as amended, at a concrete input: a negative literal is a number. *)
Lemma ParseSubjectURL_shape_witness :
  CoreSpec.slashFree "org" /\ CoreSpec.slashFree "repo" /\
  StringsSpec.IntLiteral "-7" (-7) /\
  Core.ParseSubjectURL (lib := asciiLib) (CoreSpec.pullURL "org" "repo" "-7")
  = Ok {| Core.RefOwner := "org"; Core.RefRepo := "repo"; Core.Number := -7 |}.
Proof.
  assert (Hlit : StringsSpec.IntLiteral "-7" (-7)).
  { exists "-", "7". repeat split; auto; try discriminate;
      unfold minInt64, maxInt64; simpl; lia. }
  split; [reflexivity|]. split; [reflexivity|]. split; [exact Hlit|].
  destruct (CoreFacts.ParseSubjectURL_shape (lib := asciiLib)) as [Hiff _].
  apply Hiff. exists "-7".
  split; [reflexivity|]. split; [reflexivity|]. split; [reflexivity|exact Hlit].
Defined.

(** C4 refuted as stated: two notifications share a reference whose lookup
    fails, and the lookup is made twice. *)
Lemma lookup_repeated_after_failure :
  MainSpec.lookupsOf
    (trace (snd (processNotifications (lib := asciiLib) c0 cfg0 [nA; nA']
                   false false
                   (world [Ok (reply 500 []); Ok (reply 500 [])]))))
  = [(url42, false); (url42, false)].
Proof.
  vm_compute. reflexivity.
Qed.

(** C5 refuted as stated: after "not modified" and after an empty inbox
    [runOnce] and a verbose daemon cycle end in the same state with the same
    output, although the fetch itself tells the two apart. *)
Lemma not_modified_reported_alike :
  runOnce (lib := asciiLib) c0 cfg0 false true (world [Ok (reply 304 [])])
  = runOnce (lib := asciiLib) c0 cfg0 false true (world [Ok emptyPage]) /\
  runDaemonCycle (lib := asciiLib) c0 cfg0 false true "2026-01-01T00:00:00Z"
    daemonStart (world [Ok (reply 304 [])])
  = runDaemonCycle (lib := asciiLib) c0 cfg0 false true "2026-01-01T00:00:00Z"
      daemonStart (world [Ok emptyPage]) /\
  fst (ListUnreadNotifications (lib := asciiLib) c0 EmptyString
         (world [Ok (reply 304 [])]))
  = Some (Ok {| Notifications := []; NotModified := true;
                LastModified := EmptyString; PollInterval := 0 |}) /\
  fst (ListUnreadNotifications (lib := asciiLib) c0 EmptyString
         (world [Ok emptyPage]))
  = Some (Ok {| Notifications := []; NotModified := false;
                LastModified := EmptyString; PollInterval := 0 |}).
Proof.
  repeat split; vm_compute; reflexivity.
Qed.

(** C5 as amended, at a concrete input. *)
Lemma not_modified_reporting_witness :
  urlError (GoLib := asciiLib) (MainSpec.pageURL 1) = None /\
  MainSpec.quietReply (reply 304 []) /\
  runOnce (lib := asciiLib) c0 cfg0 false true (world [Ok (reply 304 [])])
  = (Some 0,
     {| replies := [];
        trace := [EvDo (MainSpec.pageRequest c0 EmptyString 1);
                  EvStdout ("No unread notifications." ++ Core.newline)] |}).
Proof.
  assert (Hq : MainSpec.quietReply (reply 304 [])) by (left; reflexivity).
  split; [reflexivity|]. split; [exact Hq|].
  exact (proj1 (proj2
    (MainFacts.not_modified_reporting (lib := asciiLib) c0 cfg0 false true
       "2026-01-01T00:00:00Z" daemonStart EmptyString (reply 304 []) [] []
       eq_refl Hq))).
Defined.

(** C6 at a concrete input: the owner matches the include organisation in
    another case and differs from the exclude one. *)
Lemma MatchesOrgFilter_spec_witness :
  StringsSpec.isASCII (Core.Owner (Core.Repository_ nA)) = true /\
  StringsSpec.isASCII (Core.IncludeOrg cfgOrgs) = true /\
  StringsSpec.isASCII (Core.ExcludeOrg cfgOrgs) = true /\
  Core.MatchesOrgFilter (lib := asciiLib) nA cfgOrgs = true.
Proof.
  split; [reflexivity|]. split; [reflexivity|]. split; [reflexivity|].
  destruct (CoreFacts.MatchesOrgFilter_spec (lib := asciiLib) nA cfgOrgs)
    as (_ & Hascii & _).
  apply (Hascii eq_refl eq_refl eq_refl).
  split; [reflexivity | discriminate].
Defined.

(** C7 at the batch of the three kinds of notification. *)
Lemma ClassifyAll_partition_witness :
  Z.of_nat (List.length [nA; nB; nC]) <= maxInt64 /\
  Core.CountByAction (Core.ClassifyAll (lib := asciiLib) [nA; nB; nC] byURL0 "me" cfg0)
  = (1, 1, 1) /\
  map Core.Notification_
    (Core.ClassifyAll (lib := asciiLib) [nA; nB; nC] byURL0 "me" cfg0)
  = [nA; nB; nC].
Proof.
  assert (Hlen : Z.of_nat (List.length [nA; nB; nC]) <= maxInt64)
    by (unfold maxInt64; simpl; lia).
  split; [exact Hlen|]. split; [vm_compute; reflexivity|].
  exact (proj1 (proj2
    (CoreFacts.ClassifyAll_partition (lib := asciiLib) [nA; nB; nC] byURL0 "me"
       cfg0 Hlen))).
Defined.

(** C9 at a concrete input: the same users under different teams. *)
Lemma Classify_ignores_teams_witness :
  Core.Users rB = Core.Users rB' /\
  Core.Classify (lib := asciiLib) nB (Some rB) "me" cfg0
  = Core.Classify (lib := asciiLib) nB (Some rB') "me" cfg0.
Proof.
  split; [reflexivity|].
  exact (CoreFacts.Classify_ignores_teams (lib := asciiLib) nB "me" cfg0 rB rB'
           eq_refl).
Defined.

(** C8 fails on the code at two inputs.  A throttled reply whose
    [Retry-After] is 9223372037 seconds makes the product with
    [time.Second] wrap to a negative duration, so [do] retries without any
    pause.  And when the request that sets a thread to ignored is
    throttled, the retry is built from the drained body reader: the second
    [PUT] carries no body, and its success is reported as a mute. *)
Theorem throttled_retry_defects :
  parseRetryAfter (lib := asciiLib) (reply 429 [("Retry-After", "9223372037")])
  = -9223372036709551616 /\
  do (lib := asciiLib) c0 "PATCH" (threadURL "1") EmptyString
    (world [Ok (reply 429 [("Retry-After", "9223372037")]); Ok (reply 205 [])])
  = (Ok (reply 205 []),
     {| replies := [];
        trace := [EvDo (GitHubSpec.request c0 "PATCH" (threadURL "1") EmptyString);
                  EvSleep (-9223372036709551616);
                  EvDo (GitHubSpec.request c0 "PATCH" (threadURL "1") EmptyString)] |}) /\
  IgnoreThread (lib := asciiLib) c0 "1"
    (world [Ok (reply 429 [("Retry-After", "1")]); Ok (reply 200 [])])
  = (None,
     {| replies := [];
        trace := [EvDo (GitHubSpec.request c0 "PUT"
                          (threadURL "1" ++ "/subscription") ignoredBody);
                  EvSleep (1 * Second);
                  EvDo (GitHubSpec.request c0 "PUT"
                          (threadURL "1" ++ "/subscription") EmptyString)] |}).
Proof.
  split; [vm_compute; reflexivity|]. split; vm_compute; reflexivity.
Qed.

(** C10 at a concrete input: the reviewers exclude the acting user, marking
    the thread read is answered with status 500, and the iteration ends with
    one error and no further request. *)
Lemma mute_only_after_read_witness :
  let w := world [Ok (reviewersReply ["alice"]); Ok (reply 500 []);
                  Ok (reply 200 [])] in
  let fetched :=
    fetchIfNeeded (lib := asciiLib) c0 cfg0 false (reviewersByURL st0) nA w in
  let d :=
    Core.Classify (lib := asciiLib) nA
      (Core.lookupReviewers (fst fetched) (Core.URL (Core.Subject_ nA)))
      (login c0) cfg0 in
  let done := processOne (lib := asciiLib) c0 cfg0 true false st0 nA w in
  Core.Action_ d = Core.ActionMute /\
  0 <= errCount st0 < maxInt64 /\
  errCount (fst done) = 1 /\
  replies (snd done) = [Ok (reply 200 [])].
Proof.
  intros w fetched d done.
  assert (Hmute : Core.Action_ d = Core.ActionMute) by (vm_compute; reflexivity).
  assert (Hcount : 0 <= errCount st0 < maxInt64)
    by (unfold maxInt64; simpl; lia).
  split; [exact Hmute|]. split; [exact Hcount|].
  pose proof (MainFacts.mute_only_after_read (lib := asciiLib) c0 cfg0 false st0
                nA w Hmute Hcount) as H.
  cbv zeta in H.
  assert (Hread :
    fst (MarkThreadRead (lib := asciiLib) c0 (Core.ID nA)
           (snd (fetchIfNeeded (lib := asciiLib) c0 cfg0 false
                   (reviewersByURL st0) nA w)))
    = Some "mark thread 1 read: unexpected status 500")
    by (vm_compute; reflexivity).
  rewrite Hread in H. destruct H as [H _].
  subst done. rewrite H. split; [reflexivity | vm_compute; reflexivity].
Defined.

End Cases.

(** ** Worked scenarios *)

Module ScenarioCases.
Import GitHub Main Daemon Entry Examples Scenarios.

(** X1 at a concrete input: one page of two notifications, then the empty
    page. *)
Lemma ListUnreadNotifications_pages_witness :
  ListUnreadNotifications (lib := asciiLib) c0 EmptyString
    (world [Ok firstPage; Ok Examples.emptyPage])
  = (Some (Ok {| Notifications := [nA; nC];
                 NotModified := false;
                 LastModified := stamp;
                 PollInterval := 120 * Second |}),
     {| replies := [];
        trace := [EvDo (MainSpec.pageRequest c0 EmptyString 1);
                  EvDo (MainSpec.pageRequest c0 EmptyString 2)] |}).
Proof.
  assert (Hfull : List.Forall (ClientSpec.fullPage) [firstPage]).
  { constructor; [|constructor]. split; [reflexivity|].
    exists (wire nA), [wire nC]. reflexivity. }
  assert (Hempty : ClientSpec.emptyPage Examples.emptyPage).
  { split; reflexivity. }
  assert (Hlen : Z.of_nat (List.length [firstPage]) < maxInt64).
  { unfold maxInt64. simpl. lia. }
  exact (ClientFacts.ListUnreadNotifications_pages (lib := asciiLib)
           c0 EmptyString [firstPage] Examples.emptyPage [] []
           (fun _ => eq_refl) Hfull Hempty Hlen).
Defined.

(** X2 at a concrete input: a 502 on the second page. *)
Lemma ListUnreadNotifications_discards_witness :
  fst (ListUnreadNotifications (lib := asciiLib) c0 EmptyString
         (world [Ok firstPage; Ok (reply 502 [])]))
  = Some (Err "list notifications page 2: unexpected status 502").
Proof.
  assert (Hfull : List.Forall (ClientSpec.fullPage) [firstPage]).
  { constructor; [|constructor]. split; [reflexivity|].
    exists (wire nA), [wire nC]. reflexivity. }
  assert (Hlen : Z.of_nat (List.length [firstPage]) < maxInt64).
  { unfold maxInt64. simpl. lia. }
  assert (Hst : StatusCode (reply 502 []) <> statusOK).
  { unfold statusOK. simpl. lia. }
  pose proof (ClientFacts.ListUnreadNotifications_discards (lib := asciiLib)
                c0 EmptyString [firstPage] (reply 502 []) [] []
                (fun _ => eq_refl) Hfull Hlen eq_refl Hst) as H.
  exact (f_equal fst H).
Defined.

(** X3 at a concrete input: the first reply is throttled with a hint of
    five seconds, and the retry gets the empty page. *)
Lemma ListUnreadNotifications_throttled_witness :
  let slow :=
    ListUnreadNotifications (lib := asciiLib) c0 EmptyString
      (world [Ok throttled; Ok Examples.emptyPage]) in
  let fast :=
    ListUnreadNotifications (lib := asciiLib) c0 EmptyString
      (world [Ok Examples.emptyPage]) in
  fst slow = fst fast /\
  replies (snd slow) = replies (snd fast) /\
  exists after,
    trace (snd fast) = after /\
    trace (snd slow)
    = (EvDo (MainSpec.pageRequest c0 EmptyString 1)
       :: EvSleep (5 * Second) :: after)%list.
Proof.
  assert (Hlen : Z.of_nat (List.length (@nil Response)) < maxInt64).
  { unfold maxInt64. simpl. lia. }
  destruct (ClientFacts.ListUnreadNotifications_throttled (lib := asciiLib)
              c0 EmptyString [] throttled Examples.emptyPage [] []
              (fun _ => eq_refl) (List.Forall_nil _) Hlen eq_refl)
    as [Hretry _].
  destruct (Hretry eq_refl) as (Hres & Hrep & after & Hfast & Hslow).
  split; [exact Hres|]. split; [exact Hrep|].
  exists after. split; [exact Hfast | exact Hslow].
Defined.

(** X5 at a concrete input: the reviewers of pull 42. *)
Lemma GetRequestedReviewers_requests_witness :
  exists resp ghReviewers,
    In (Ok resp) [Ok (reviewersReply ["alice"])] /\
    StatusCode resp = statusOK /\
    asReviewers (RespBody resp) = Ok ghReviewers /\
    rB = toReviewers ghReviewers.
Proof.
  pose proof (ClientFacts.GetRequestedReviewers_requests (lib := asciiLib)
                c0 url42 (world [Ok (reviewersReply ["alice"])])) as H.
  assert (E : Core.ParseSubjectURL (lib := asciiLib) url42
              = Ok {| Core.RefOwner := "MyOrg"; Core.RefRepo := "repo";
                      Core.Number := 42 |}) by reflexivity.
  rewrite E in H. destruct H as [_ H].
  exact (H rB eq_refl).
Defined.

(** X6 at a concrete input: a review request and a mention. *)
Lemma processNotifications_decisions_witness :
  let r :=
    processNotifications (lib := asciiLib) c0 cfg0 [nA; nC] false false
      (world [Ok (reviewersReply ["alice"])]) in
  map Core.Notification_ (fst (fst r)) = [nA; nC] /\
  0 <= snd (fst r) <= BatchSpec.countAction Core.ActionMute (fst (fst r)).
Proof.
  assert (Hlen : Z.of_nat (List.length [nA; nC]) <= maxInt64).
  { unfold maxInt64. simpl. lia. }
  destruct (BatchFacts.processNotifications_decisions (lib := asciiLib)
              c0 cfg0 [nA; nC] false false
              (world [Ok (reviewersReply ["alice"])]) Hlen)
    as (Hmap & _ & Herr).
  split; [exact Hmap | exact Herr].
Defined.

(** X9 at a concrete input: the thread is marked read, and the server
    refuses to ignore it. *)
Lemma mutation_report_witness :
  let r :=
    processNotifications (lib := asciiLib) c0 cfg0 [nA; nC] true false
      (world [Ok (reviewersReply ["alice"]); Ok (reply 205 []);
              Ok (reply 500 [])]) in
  exists evs (outcomes : list (Core.Decision * option string)),
    trace (snd r) = evs /\
    map fst outcomes = List.filter BatchSpec.isMute (fst (fst r)) /\
    BatchSpec.stdoutOf evs
    = map (fun o => Core.FormatMutationRow (lib := asciiLib) (fst o) (snd o)
                    ++ Core.newline) outcomes /\
    snd (fst r) = Z.of_nat (List.length (List.filter BatchSpec.failed outcomes)).
Proof.
  assert (Hlen : Z.of_nat (List.length [nA; nC]) <= maxInt64).
  { unfold maxInt64. simpl. lia. }
  destruct (BatchFacts.mutation_report (lib := asciiLib)
              c0 cfg0 [nA; nC] false
              (world [Ok (reviewersReply ["alice"]); Ok (reply 205 []);
                      Ok (reply 500 [])]) Hlen)
    as (evs & outcomes & Ht & Hm & Ho & He).
  exists evs, outcomes.
  split; [exact Ht|]. split; [exact Hm|]. split; [exact Ho | exact He].
Defined.

(** X10 at a concrete input: the server cannot be reached. *)
Lemma runOnce_exit_witness :
  fst (runOnce (lib := asciiLib) c0 cfg0 true false (world [])) = Some 1.
Proof.
  destruct (RunFacts.runOnce_exit (lib := asciiLib) c0 cfg0 true false (world []))
    as (_ & Herr & _).
  exact (f_equal fst
           (Herr "list notifications page 1: connection refused" eq_refl)).
Defined.

(** X12 at a concrete input: a failed listing leaves the cycle state. *)
Lemma runDaemonCycle_keeps_witness :
  fst (runDaemonCycle (lib := asciiLib) c0 cfg0 true false "t0" daemonStart
         (world []))
  = Some daemonStart.
Proof.
  destruct (RunFacts.runDaemonCycle_keeps (lib := asciiLib) c0 cfg0 true false
              "t0" daemonStart (world []))
    as (_ & Herr & _).
  exact (f_equal fst
           (Herr "list notifications page 1: connection refused" eq_refl)).
Defined.

(** X13 at a concrete input: a decision with an action outside the three
    named ones is counted nowhere. *)
Lemma CountByAction_exact_witness :
  Core.CountByAction
    [Core.Classify (lib := asciiLib) nA (Some rA) "me" cfg0; odd;
     Core.Classify (lib := asciiLib) nB (Some rB) "me" cfg0]
  = (0, 1, 1).
Proof.
  assert (Hlen : Z.of_nat (List.length
                   [Core.Classify (lib := asciiLib) nA (Some rA) "me" cfg0; odd;
                    Core.Classify (lib := asciiLib) nB (Some rB) "me" cfg0])
                 <= maxInt64).
  { unfold maxInt64. simpl. lia. }
  destruct (ClassifierFacts.CountByAction_exact _ Hlen) as [Hcount _].
  exact Hcount.
Defined.

(** X14 at a concrete input: a review request that names only somebody
    else is muted. *)
Lemma Classify_action_iff_witness :
  Core.Action_ (Core.Classify (lib := asciiLib) nB (Some rB) "me" cfg0)
  = Core.ActionMute.
Proof.
  assert (Hno : ~ CoreSpec.requestedDirectly (lib := asciiLib) "me" rB).
  { intros (user & Hin & Heq). destruct Hin as [<-|[]]. discriminate Heq. }
  destruct (ClassifierFacts.Classify_action_iff (lib := asciiLib)
              nB (Some rB) "me" cfg0) as [[_ Hmute] _].
  apply Hmute.
  split; [reflexivity|]. split; [reflexivity|]. split; [reflexivity|].
  exists rB. split; [reflexivity | exact Hno].
Defined.

(** X15 at a concrete input: the same names in another case. *)
Lemma Classify_case_insensitive_witness :
  Core.Classify (lib := asciiLib) nA (Some rA) "me" cfg0
  = Core.Classify (lib := asciiLib) nA (Some rShout) "ME" cfg0.
Proof.
  apply ClassifierFacts.Classify_case_insensitive.
  - repeat constructor.
  - repeat constructor.
  - reflexivity.
  - reflexivity.
  - reflexivity.
  - reflexivity.
Defined.

(** X16 at a concrete input: the label of pull 42. *)
Lemma formatLabel_reference_witness :
  Core.formatLabel (lib := asciiLib)
    (Core.Classify (lib := asciiLib) nA (Some rA) "me" cfg0)
  = "MyOrg/repo#42".
Proof.
  assert (Hlit : StringsSpec.IntLiteral "42" 42).
  { exists EmptyString, "42". repeat split; auto; try discriminate;
      unfold minInt64, maxInt64; simpl; lia. }
  destruct (ClassifierFacts.formatLabel_reference (lib := asciiLib)
              (Core.Classify (lib := asciiLib) nA (Some rA) "me" cfg0)
              "MyOrg" "repo" "42" eq_refl eq_refl) as [Hpull _].
  exact (Hpull 42 Hlit eq_refl).
Defined.

(** X17 at a concrete input: the server cannot be reached, and the client
    is as before. *)
Lemma FetchLogin_client_witness :
  fst (fst (FetchLogin (lib := asciiLib) c0 (world []))) = c0.
Proof.
  destruct (ClientFacts.FetchLogin_client (lib := asciiLib) c0 (world []))
    as (_ & Herr & _).
  exact (Herr "fetch login: connection refused" eq_refl).
Defined.

(** X19 at a concrete input: a daemon without the apply flag, through two
    cycles and a signal. *)
Lemma run_dry_by_default_witness :
  exists evs,
    trace (snd (run (lib := asciiLib) flags0 "t"
                  [("t0", Timer); ("t1", Signal "interrupt")]
                  (world [Ok (userReply "me"); Ok firstPage;
                          Ok Examples.emptyPage;
                          Ok (reviewersReply ["alice"])])))
    = evs /\
    forall req, In (EvDo req) evs -> Method req = "GET".
Proof.
  destruct (EntryFacts.run_dry_by_default (lib := asciiLib) flags0 "t"
              [("t0", Timer); ("t1", Signal "interrupt")]
              (world [Ok (userReply "me"); Ok firstPage;
                      Ok Examples.emptyPage;
                      Ok (reviewersReply ["alice"])]) eq_refl)
    as (evs & Ht & Hget).
  exists evs. split; [exact Ht | exact Hget].
Defined.

(** X20 at a concrete input: the token is set and the login is refused. *)
Lemma run_needs_login_witness :
  fst (run (lib := asciiLib) flags0 "t" [] (world [Ok (reply 401 [])]))
  = Some 1.
Proof.
  destruct (EntryFacts.run_needs_login (lib := asciiLib) flags0 "t" []
              (world [Ok (reply 401 [])])) as [_ Hlogin].
  assert (Hne : "t" <> EmptyString) by discriminate.
  exact (f_equal fst
           (Hlogin "fetch login: unexpected status 401" Hne eq_refl)).
Defined.

(** X21 at a concrete input: a hint of five seconds. *)
Lemma parseRetryAfter_spec_witness :
  parseRetryAfter (lib := asciiLib) throttled = 5 * Second.
Proof.
  assert (Hlit : StringsSpec.IntLiteral "5" 5).
  { exists EmptyString, "5". repeat split; auto; try discriminate;
      unfold minInt64, maxInt64; simpl; lia. }
  destruct (GitHubFacts.parseRetryAfter_spec (lib := asciiLib) throttled)
    as [_ Hhint].
  apply (Hhint 5 Hlit). lia.
Defined.

End ScenarioCases.
